(** * MetaHDR evaluation script ([eval.py]): a shallow embedding

    The script evaluates a meta-learned HDR model in three modes
    (single-shot, Debevec-adapted, HDRCNN-adapted).  Its control flow,
    index arithmetic, file naming, accumulators and failure points are
    embedded below as executable Rocq definitions.  Python [int]s that
    can be negative are [Z], loop counters and array indices are [nat],
    [float64] values are exact rationals [Q] (rounding is outside the
    model), exceptions are values of [exn], and the side effects of
    [main] are events appended to a trace. *)

From Stdlib Require Import List String Ascii Bool Arith ZArith QArith Lia.
From Stdlib Require Import Permutation.
From Stdlib Require DecimalFacts DecimalNat DecimalString.
Import ListNotations.

Local Open Scope string_scope.
Local Open Scope list_scope.
Local Open Scope nat_scope.

(** ** Exceptions and outcomes *)

Inductive exn : Type :=
| TypeError                          (* [osp.join(None, ...)] *)
| CudaError                          (* [torch.cuda.get_device_name()] without a device *)
| AssertionError (msg : string)      (* a failed [assert] *)
| FileNotFoundError (path : string)  (* [torch.load], [io.imread] *)
| ValueError (msg : string)          (* [train_test_split], [np.stack] *)
| IndexError                         (* array subscript out of range *)
| ZeroDivisionError.                 (* [0.0 / 0] *)

Inductive outcome (A : Type) : Type :=
| Ok (a : A)
| Raise (e : exn).
Arguments Ok {A} a.
Arguments Raise {A} e.

(** ** Python and NumPy primitives *)

Module Py.

(** [range(n)] and [range(a, b)] over non-negative bounds. *)
Definition range (n : nat) : list nat := seq 0 n.
Definition range_from (a b : nat) : list nat := seq a (b - a).

(** [np.arange(start, stop)]: empty when [stop <= start]. *)
Definition np_arange (start : nat) (stop : Z) : list nat :=
  seq start (Z.to_nat (stop - Z.of_nat start)).

(** [bool(s)] on a [str]: false only for the empty string. *)
Definition bool_of_str (s : string) : bool :=
  match s with EmptyString => false | String _ _ => true end.

(** [str(n)] for a non-negative [int]. *)
Definition str_of_nat (n : nat) : string :=
  DecimalString.NilEmpty.string_of_uint (Nat.to_uint n).

Fixpoint zeros (k : nat) : string :=
  match k with O => EmptyString | S k' => String "0" (zeros k') end.

(** [f'{n:0wd}'] for a non-negative [int]: the decimal digits of [n],
    left-filled with ['0'] up to width [w]; never truncated. *)
Definition format_0d (w n : nat) : string :=
  let d := str_of_nat n in
  (zeros (w - String.length d) ++ d)%string.

(** [int(s)] for a string of decimal digits. *)
Definition int_of_str (s : string) : option nat :=
  option_map Nat.of_uint (DecimalString.NilEmpty.uint_of_string s).

(** [os.path.join(a, b)] for a relative [b]. *)
Fixpoint ends_with_slash (a : string) : bool :=
  match a with
  | EmptyString => false
  | String c EmptyString => Ascii.eqb c "/"
  | String _ a' => ends_with_slash a'
  end.

Definition osp_join (a b : string) : string :=
  match a with
  | EmptyString => b
  | _ => if ends_with_slash a then (a ++ b)%string else (a ++ "/" ++ b)%string
  end.

(** Subscripting a sequence: [IndexError] out of range. *)
Definition getitem {A} (l : list A) (i : nat) : outcome A :=
  match nth_error l i with
  | Some x => Ok x
  | None => Raise IndexError
  end.

(** Fancy indexing [arr[ind]]. *)
Fixpoint take {A} (arr : list A) (ind : list nat) : outcome (list A) :=
  match ind with
  | [] => Ok []
  | i :: ind' =>
      match getitem arr i with
      | Raise e => Raise e
      | Ok x =>
          match take arr ind' with
          | Raise e => Raise e
          | Ok xs => Ok (x :: xs)
          end
      end
  end.

End Py.

(** ** [sklearn.model_selection.train_test_split]

    The call in the script is [train_test_split(arr, test_size=1)]:
    default [train_size=None], [shuffle=True], no stratification.  The
    library validates the sizes, asks the random generator for one
    permutation of [range(n_samples)], takes its first [n_test] entries
    as test indices and the following [n_train] as train indices, and
    returns [arr[train], arr[test]].  The permutation drawn by the
    generator is the argument [perm]. *)

Module Sklearn.

Definition validate_shuffle_split (n_samples test_size : nat)
  : outcome (nat * nat) :=
  if (n_samples <=? test_size) || (test_size =? 0) then
    Raise (ValueError "test_size should be positive and smaller than the number of samples")
  else
    let n_test := test_size in
    let n_train := n_samples - n_test in
    if n_train =? 0 then
      Raise (ValueError "the resulting train set will be empty")
    else Ok (n_train, n_test).

Definition train_test_split {A} (arr : list A) (test_size : nat)
           (perm : list nat) : outcome (list A * list A) :=
  match validate_shuffle_split (List.length arr) test_size with
  | Raise e => Raise e
  | Ok (n_train, n_test) =>
      let ind_test := firstn n_test perm in
      let ind_train := firstn n_train (skipn n_test perm) in
      match Py.take arr ind_train with
      | Raise e => Raise e
      | Ok train =>
          match Py.take arr ind_test with
          | Raise e => Raise e
          | Ok test => Ok (train, test)
          end
      end
  end.

End Sklearn.

(** ** Data of the script *)

(** An image tensor, flattened; a decoded PNG holds integer samples. *)
Definition image := list Q.
Definition png := list Z.

(** [all_test_data]: an array of shape [(shape0, shape1, ...)], scene by
    exposure; exposure 0 of a scene is its reference label. *)
Record ndarray : Type := {
  shape0 : nat;
  shape1 : nat;
  at_ : nat -> nat -> image
}.

(** One row [all_test_data[curr_idx]]: the exposures of one scene. *)
Record image_set_t : Type := {
  n_images : nat;
  image_at : nat -> image
}.

Definition row (a : ndarray) (i : nat) : image_set_t :=
  {| n_images := shape1 a; image_at := at_ a i |}.

(** The configuration node [cfg.EVAL]. *)
Record config : Type := {
  LOSS_FUNC : string;
  NUM_EXPOSURES : Z;
  NUM_TASK_TR_ITER : Z;
  TASK_LR : Q
}.

(** The parsed command line. *)
Record args_t : Type := {
  model_dir : option string;
  use_best : bool;
  cfg_path : option string
}.

Record checkpoint_t : Type := {
  performance : Q;
  epoch : nat;
  unet_state_dict : list Q
}.

(** [l2l.algorithms.MAML(model, lr=...)] after [load_state_dict]. *)
Record meta_model_t : Type := {
  weights : list Q;
  lr : Q
}.

(** [eval_train] and [eval_test]: a stack of images and a stack of
    labels, each indexed by batch entry and then by exposure. *)
Definition stacked := (list (list image) * list (list image))%type.

(** Effects of [main], in program order. *)
Inductive event : Type :=
| EvPrint (msg : string)
| EvMakedirs (path : string)
| EvCreateLogger (dir : string)
| EvLogGpu
| EvLoadCfg (path : option string)
| EvGetLossFunc (name : string)
| EvTorchLoad (path : string)
| EvLoadStateDict (w : list Q)
| EvDataGenerator (num_exposures : Z)
| EvEvaluateSingle (img label : image) (idx : nat) (dir : string)
| EvEvaluateMaml (train test : stacked) (idx : nat) (iters : Z) (dir : string)
| EvImread (path : string)
| EvResult (what : string) (value : Q).

(** What the script reads from its surroundings: the machine, the
    configuration and checkpoint files, the data set, the label files
    of the HDRCNN baseline, the random generator (its [c]-th draw of a
    permutation of [range(n)] is [rng_permutation c n]), and the two
    evaluation routines of [src.models.metaHDR], which return
    [(_, ssim, psnr)]. *)
Record Env : Type := {
  cuda_is_available : bool;
  script_dir : string;
  update_cfg : string -> config;
  get_cfg_defaults : config;
  torch_load : string -> option checkpoint_t;
  meta_test_data : Z -> ndarray;
  io_imread : string -> option png;
  rng_permutation : nat -> nat -> list nat;
  evaluate_single_maml :
    meta_model_t -> string -> image -> image -> nat -> Q * Q;
  evaluate_maml :
    meta_model_t -> string -> stacked -> stacked -> nat -> Z -> Q * Q
}.

(** The local variables of [main] that outlive one loop, the number of
    permutations drawn so far, and the trace. *)
Record state : Type := {
  eval_single_ssim : Q;
  eval_single_psnr : Q;
  eval_adaptive_ssim : Q;
  eval_adaptive_psnr : Q;
  idx : nat;
  rng_calls : nat;
  trace : list event
}.

Definition init_state : state :=
  {| eval_single_ssim := 0; eval_single_psnr := 0;
     eval_adaptive_ssim := 0; eval_adaptive_psnr := 0;
     idx := 0; rng_calls := 0; trace := [] |}.

Definition set_single (a b : Q) (s : state) : state :=
  {| eval_single_ssim := a; eval_single_psnr := b;
     eval_adaptive_ssim := eval_adaptive_ssim s;
     eval_adaptive_psnr := eval_adaptive_psnr s;
     idx := idx s; rng_calls := rng_calls s; trace := trace s |}.

Definition set_adaptive (a b : Q) (s : state) : state :=
  {| eval_single_ssim := eval_single_ssim s;
     eval_single_psnr := eval_single_psnr s;
     eval_adaptive_ssim := a; eval_adaptive_psnr := b;
     idx := idx s; rng_calls := rng_calls s; trace := trace s |}.

Definition set_idx (n : nat) (s : state) : state :=
  {| eval_single_ssim := eval_single_ssim s;
     eval_single_psnr := eval_single_psnr s;
     eval_adaptive_ssim := eval_adaptive_ssim s;
     eval_adaptive_psnr := eval_adaptive_psnr s;
     idx := n; rng_calls := rng_calls s; trace := trace s |}.

Definition set_rng_calls (n : nat) (s : state) : state :=
  {| eval_single_ssim := eval_single_ssim s;
     eval_single_psnr := eval_single_psnr s;
     eval_adaptive_ssim := eval_adaptive_ssim s;
     eval_adaptive_psnr := eval_adaptive_psnr s;
     idx := idx s; rng_calls := n; trace := trace s |}.

Definition log_event (e : event) (s : state) : state :=
  {| eval_single_ssim := eval_single_ssim s;
     eval_single_psnr := eval_single_psnr s;
     eval_adaptive_ssim := eval_adaptive_ssim s;
     eval_adaptive_psnr := eval_adaptive_psnr s;
     idx := idx s; rng_calls := rng_calls s; trace := trace s ++ [e] |}.

(** ** The monad of the script: state, with exceptions that keep the
    state reached when they are raised *)

Definition M (A : Type) : Type := state -> outcome A * state.

Definition ret {A} (a : A) : M A := fun s => (Ok a, s).

Definition bind {A B} (c : M A) (k : A -> M B) : M B :=
  fun s => match c s with
           | (Ok a, s') => k a s'
           | (Raise e, s') => (Raise e, s')
           end.

Definition raise {A} (e : exn) : M A := fun s => (Raise e, s).

Definition lift {A} (o : outcome A) : M A := fun s => (o, s).

Definition gets {A} (f : state -> A) : M A := fun s => (Ok (f s), s).

Definition modify (f : state -> state) : M unit := fun s => (Ok tt, f s).

Definition emit (e : event) : M unit := modify (log_event e).

Declare Scope script_scope.
Delimit Scope script_scope with script.
Notation "x <- c ;; k" := (bind c (fun x => k))
  (at level 61, c at next level, right associativity) : script_scope.
Notation "' pat <- c ;; k" := (bind c (fun x => match x with pat => k end))
  (at level 61, pat pattern, c at next level, right associativity) : script_scope.
Notation "c ;; k" := (bind c (fun _ => k))
  (at level 61, right associativity) : script_scope.

Local Open Scope script_scope.

(** [for x in l: body x] *)
Fixpoint for_ {A} (l : list A) (body : A -> M unit) : M unit :=
  match l with
  | [] => ret tt
  | x :: l' => body x ;; for_ l' body
  end.

(** A loop that appends one value per iteration to a fresh list. *)
Fixpoint for_collect {A B} (l : list A) (body : A -> M B) : M (list B) :=
  match l with
  | [] => ret []
  | x :: l' => y <- body x ;; ys <- for_collect l' body ;; ret (y :: ys)
  end.

(** [np.stack(arrays)]: needs at least one array.  (Array shapes are
    not part of the model, so the requirement that the stacked arrays
    have one shape is not checked.) *)
Definition np_stack {A} (l : list A) : M (list A) :=
  match l with
  | [] => raise (ValueError "need at least one array to stack")
  | _ => ret l
  end.

(** [image_set[i, ...]] *)
Definition image_set_getitem (image_set : image_set_t) (i : nat) : M image :=
  if i <? n_images image_set then ret (image_at image_set i)
  else raise IndexError.

(** [all_test_data[np.newaxis, i, j]] *)
Definition ndarray_getitem (a : ndarray) (i j : nat) : M image :=
  if (i <? shape0 a) && (j <? shape1 a) then ret (at_ a i j)
  else raise IndexError.

(** [all_test_data[np.newaxis, curr_idx]]: a batch of one scene. *)
Definition ndarray_batch (a : ndarray) (i : nat) : M (list image_set_t) :=
  if i <? shape0 a then ret [row a i] else raise IndexError.

(** [acc /= d] on a Python [float] accumulator and an [int] divisor. *)
Definition py_div (acc : Q) (d : Z) : M Q :=
  if (d =? 0)%Z then raise ZeroDivisionError else ret (acc / inject_Z d)%Q.

Definition valid_loss_funcs : list string :=
  ["ExpandNetLoss"; "HaarLoss"; "LPIPSLoss"; "LPIPSLoss_L2"; "SSIMLoss"].

Definition str_in (x : string) (l : list string) : bool :=
  existsb (String.eqb x) l.

(** The offset chain of the HDRCNN loop (lines 164-171). *)
Definition hdrcnn_image_idx (curr_idx i n_scenes : nat) : nat :=
  let image_idx := curr_idx + 1 in
  if i =? 1 then image_idx + n_scenes
  else if i =? 2 then image_idx
  else if i =? 3 then image_idx + n_scenes * 2
  else image_idx.

(** [f'{image_idx:06d}_out.png'] *)
Definition label_file_name (image_idx : nat) : string :=
  (Py.format_0d 6 image_idx ++ "_out.png")%string.

(** [.astype(np.float64) / 255] *)
Definition normalize_png (raw : png) : image :=
  map (fun v => (inject_Z v / 255)%Q) raw.

(** ** The script *)

Section Script.

Variable env : Env.

(** [io.imread(path).astype(np.float64) / 255] *)
Definition imread_label (path : string) : M image :=
  emit (EvImread path) ;;
  match io_imread env path with
  | None => raise (FileNotFoundError path)
  | Some raw => ret (normalize_png raw)
  end.

(** [train_test_split(arr, test_size=1)] with the global generator:
    the sizes are validated first, then one permutation is drawn. *)
Definition train_test_split (arr : list nat) : M (list nat * list nat) :=
  c <- gets rng_calls ;;
  r <- lift (Sklearn.train_test_split arr 1
               (rng_permutation env c (List.length arr))) ;;
  modify (set_rng_calls (c + 1)) ;;
  ret r.

(** Lines 83-89: the body of the inner loop. *)
Definition single_shot_body (meta_model : meta_model_t) (loss_func : string)
           (all_test_data : ndarray) (single_dir : string) (i j : nat)
  : M unit :=
  input_test_image <- ndarray_getitem all_test_data i j ;;
  input_test_label <- ndarray_getitem all_test_data i 0 ;;
  k <- gets idx ;;
  emit (EvEvaluateSingle input_test_image input_test_label k single_dir) ;;
  let '(test_ssim, test_psnr) :=
    evaluate_single_maml env meta_model loss_func
                         input_test_image input_test_label k in
  modify (fun s => set_single (eval_single_ssim s + test_ssim)%Q
                              (eval_single_psnr s + test_psnr)%Q s) ;;
  modify (fun s => set_idx (idx s + 1) s).

(** Lines 90-93 *)
Definition report_single (d : Z) : M unit :=
  a <- gets eval_single_ssim ;;
  a' <- py_div a d ;;
  modify (fun s => set_single a' (eval_single_psnr s) s) ;;
  b <- gets eval_single_psnr ;;
  b' <- py_div b d ;;
  modify (fun s => set_single (eval_single_ssim s) b' s) ;;
  emit (EvResult "Average Single-Shot Evaluation SSIM" a') ;;
  emit (EvResult "Average Single-Shot Evaluation PSNR" b').

(** Lines 76-93. *)
Definition single_shot_mode (meta_model : meta_model_t) (loss_func : string)
           (all_test_data : ndarray) (single_dir : string) : M unit :=
  emit (EvPrint "Performing Single-Shot Evaluation") ;;
  modify (set_single 0 0) ;;
  modify (set_idx 0) ;;
  for_ (Py.range (shape0 all_test_data)) (fun i =>
    for_ (Py.range_from 1 (shape1 all_test_data))
         (single_shot_body meta_model loss_func all_test_data single_dir i)) ;;
  report_single (Z.of_nat (shape0 all_test_data)
                 * (Z.of_nat (shape1 all_test_data) - 1))%Z.

(** Lines 115-120 and 176-181: the query images with the scene's
    reference as label. *)
Definition collect_test (image_set : image_set_t) (ts : list nat)
  : M (list image * list image) :=
  pairs <- for_collect ts (fun i =>
             x <- image_set_getitem image_set i ;;
             y <- image_set_getitem image_set 0 ;;
             ret (x, y)) ;;
  xs <- np_stack (map fst pairs) ;;
  ys <- np_stack (map snd pairs) ;;
  ret (xs, ys).

(** Lines 122-138 and 183-199: stack the batch, evaluate, accumulate. *)
Definition adapt_and_score (meta_model : meta_model_t) (loss_func : string)
           (iters : Z) (dir : string)
           (sets : list ((list image * list image) * (list image * list image)))
  : M unit :=
  tr_images <- np_stack (map (fun p => fst (fst p)) sets) ;;
  tr_labels <- np_stack (map (fun p => snd (fst p)) sets) ;;
  ts_images <- np_stack (map (fun p => fst (snd p)) sets) ;;
  ts_labels <- np_stack (map (fun p => snd (snd p)) sets) ;;
  let eval_train := (tr_images, tr_labels) in
  let eval_test := (ts_images, ts_labels) in
  k <- gets idx ;;
  emit (EvEvaluateMaml eval_train eval_test k iters dir) ;;
  let '(test_ssim, test_psnr) :=
    evaluate_maml env meta_model loss_func eval_train eval_test k iters in
  modify (fun s => set_idx (idx s + 1) s) ;;
  modify (fun s => set_adaptive (eval_adaptive_ssim s + test_ssim)%Q
                                (eval_adaptive_psnr s + test_psnr)%Q s).

(** Lines 137-141 and 198-202. *)
Definition report_adaptive (n_scenes : nat) (what_ssim what_psnr : string)
  : M unit :=
  let d := Z.of_nat n_scenes in
  a <- gets eval_adaptive_ssim ;;
  a' <- py_div a d ;;
  modify (fun s => set_adaptive a' (eval_adaptive_psnr s) s) ;;
  b <- gets eval_adaptive_psnr ;;
  b' <- py_div b d ;;
  modify (fun s => set_adaptive (eval_adaptive_ssim s) b' s) ;;
  emit (EvResult what_ssim a') ;;
  emit (EvResult what_psnr b').

(** Lines 104-120: the body of [for image_set in cur_batch]. *)
Definition debevec_set (cfg : config) (image_set : image_set_t)
  : M ((list image * list image) * (list image * list image)) :=
  ' (tr, ts) <- train_test_split
                  (Py.np_arange 1 (NUM_EXPOSURES cfg + 1)) ;;
  pairs <- for_collect tr (fun i =>
             x <- image_set_getitem image_set i ;;
             y <- image_set_getitem image_set 0 ;;
             ret (x, y)) ;;
  cur_tr_images <- np_stack (map fst pairs) ;;
  cur_tr_labels <- np_stack (map snd pairs) ;;
  test <- collect_test image_set ts ;;
  ret ((cur_tr_images, cur_tr_labels), test).

(** Lines 100-135: the body of [for curr_idx in ...]. *)
Definition debevec_scene (meta_model : meta_model_t) (loss_func : string)
           (cfg : config) (all_test_data : ndarray) (dir : string)
           (curr_idx : nat) : M unit :=
  cur_batch <- ndarray_batch all_test_data curr_idx ;;
  sets <- for_collect cur_batch (debevec_set cfg) ;;
  adapt_and_score meta_model loss_func (NUM_TASK_TR_ITER cfg) dir sets.

(** Lines 95-141. *)
Definition debevec_mode (meta_model : meta_model_t) (loss_func : string)
           (cfg : config) (all_test_data : ndarray) (dir : string) : M unit :=
  emit (EvPrint "Performing Adaptive Evaluation using Debevec labels") ;;
  modify (set_adaptive 0 0) ;;
  modify (set_idx 0) ;;
  for_ (Py.range (shape0 all_test_data))
       (debevec_scene meta_model loss_func cfg all_test_data dir) ;;
  report_adaptive (shape0 all_test_data)
    "Average Debevec Adapted Evaluation SSIM"
    "Average Debevec Adapted Evaluation PSNR".

(** [Path(__file__).parent/'data/LDR-HDR-pair_Dataset/TestOutputs'] *)
Definition load_dir : string :=
  (script_dir env ++ "/data/LDR-HDR-pair_Dataset/TestOutputs")%string.

(** Lines 159-181: the body of [for image_set in cur_batch]. *)
Definition hdrcnn_set (cfg : config) (n_scenes curr_idx : nat)
           (image_set : image_set_t)
  : M ((list image * list image) * (list image * list image)) :=
  ' (tr, ts) <- train_test_split
                  (Py.np_arange 1 (NUM_EXPOSURES cfg + 1)) ;;
  pairs <- for_collect tr (fun i =>
             x <- image_set_getitem image_set i ;;
             let image_idx := hdrcnn_image_idx curr_idx i n_scenes in
             cur_label <- imread_label
               (load_dir ++ "/" ++ label_file_name image_idx)%string ;;
             ret (x, cur_label)) ;;
  cur_tr_images <- np_stack (map fst pairs) ;;
  cur_tr_labels <- np_stack (map snd pairs) ;;
  test <- collect_test image_set ts ;;
  ret ((cur_tr_images, cur_tr_labels), test).

(** Lines 155-196: the body of [for curr_idx in ...]. *)
Definition hdrcnn_scene (meta_model : meta_model_t) (loss_func : string)
           (cfg : config) (all_test_data : ndarray) (dir : string)
           (curr_idx : nat) : M unit :=
  cur_batch <- ndarray_batch all_test_data curr_idx ;;
  sets <- for_collect cur_batch
            (hdrcnn_set cfg (shape0 all_test_data) curr_idx) ;;
  adapt_and_score meta_model loss_func (NUM_TASK_TR_ITER cfg) dir sets.

(** Lines 143-202. *)
Definition hdrcnn_mode (meta_model : meta_model_t) (loss_func : string)
           (cfg : config) (all_test_data : ndarray) (dir : string) : M unit :=
  emit (EvPrint "Performing Adaptive Evaluation using HDRCNN labels") ;;
  modify (set_adaptive 0 0) ;;
  modify (set_idx 0) ;;
  for_ (Py.range (shape0 all_test_data))
       (hdrcnn_scene meta_model loss_func cfg all_test_data dir) ;;
  report_adaptive (shape0 all_test_data)
    "Average HDRCNN Adapted Evaluation SSIM"
    "Average HDRCNN Adapted Evaluation PSNR".

(** Lines 54-57. *)
Definition model_path_of (source_directory : string) (use_best_flag : bool)
  : string :=
  if use_best_flag then Py.osp_join source_directory "model_best.pth.tar"
  else Py.osp_join source_directory "model_last.pth.tar".

(** Line 50. *)
Definition check_loss_func (cfg : config) : M unit :=
  if str_in (LOSS_FUNC cfg) valid_loss_funcs then ret tt
  else raise (AssertionError
                ("[CONFIG] evaluation loss function '" ++ LOSS_FUNC cfg
                 ++ "' not valid")%string).

(** Lines 44-47. *)
Definition load_cfg (args : args_t) : config :=
  match cfg_path args with
  | Some p => update_cfg env p
  | None => get_cfg_defaults env
  end.

(** [main(args)], lines 18-204. *)
Definition main (args : args_t) : M unit :=
  emit (EvPrint "--- Evaluating on meta-test set ---") ;;
  source_directory <- match model_dir args with
                      | Some d => ret d
                      | None => raise TypeError
                      end ;;
  let use_best_flag := use_best args in
  let evaluation_figure_output_dir :=
    Py.osp_join source_directory "evaluation_output" in
  emit (EvMakedirs evaluation_figure_output_dir) ;;
  let single_dir := Py.osp_join evaluation_figure_output_dir "single" in
  let adapt_debevec_dir :=
    Py.osp_join evaluation_figure_output_dir "adapt_debevec" in
  let adapt_hdrcnn_dir :=
    Py.osp_join evaluation_figure_output_dir "adapt_hdrcnn" in
  emit (EvMakedirs single_dir) ;;
  emit (EvMakedirs adapt_debevec_dir) ;;
  emit (EvMakedirs adapt_hdrcnn_dir) ;;
  emit (EvMakedirs evaluation_figure_output_dir) ;;
  emit (EvCreateLogger evaluation_figure_output_dir) ;;
  (if cuda_is_available env then emit EvLogGpu ;; emit EvLogGpu
   else raise CudaError) ;;
  emit (EvLoadCfg (cfg_path args)) ;;
  let cfg := load_cfg args in
  check_loss_func cfg ;;
  emit (EvGetLossFunc (LOSS_FUNC cfg)) ;;
  let loss_func := LOSS_FUNC cfg in
  let model_path := model_path_of source_directory use_best_flag in
  emit (EvTorchLoad model_path) ;;
  checkpoint <- match torch_load env model_path with
                | Some c => ret c
                | None => raise (FileNotFoundError model_path)
                end ;;
  emit (EvPrint "During training: Best Epoch, Best SSIM") ;;
  let meta_model :=
    {| weights := unet_state_dict checkpoint; lr := TASK_LR cfg |} in
  emit (EvPrint ("Loading pre-trained model from --> " ++ model_path)%string) ;;
  emit (EvLoadStateDict (unet_state_dict checkpoint)) ;;
  emit (EvPrint ("Successfully loaded pre-trained model from --> "
                 ++ model_path)%string) ;;
  emit (EvDataGenerator (NUM_EXPOSURES cfg)) ;;
  let all_test_data := meta_test_data env (NUM_EXPOSURES cfg) in
  single_shot_mode meta_model loss_func all_test_data single_dir ;;
  debevec_mode meta_model loss_func cfg all_test_data adapt_debevec_dir ;;
  hdrcnn_mode meta_model loss_func cfg all_test_data adapt_hdrcnn_dir.

End Script.

(** ** The command line (lines 206-214)

    [argparse] with three optional arguments that each take one value.
    [--use_best] is declared with [type=bool], so its value is the
    result of [bool(...)] on the argument string; its default is
    [True]. *)

Definition default_args : args_t :=
  {| model_dir := None; use_best := true; cfg_path := None |}.

Fixpoint parse_from (acc : args_t) (argv : list string) : option args_t :=
  match argv with
  | [] => Some acc
  | opt :: v :: rest =>
      if String.eqb opt "--model_dir" then
        parse_from {| model_dir := Some v; use_best := use_best acc;
                      cfg_path := cfg_path acc |} rest
      else if String.eqb opt "--use_best" then
        parse_from {| model_dir := model_dir acc;
                      use_best := Py.bool_of_str v;
                      cfg_path := cfg_path acc |} rest
      else if String.eqb opt "--cfg" then
        parse_from {| model_dir := model_dir acc; use_best := use_best acc;
                      cfg_path := Some v |} rest
      else None
  | _ => None
  end.

Definition parse_args (argv : list string) : option args_t :=
  parse_from default_args argv.

(** [python eval.py argv...]: a usage error ends the process before
    [main] is entered. *)
Definition script (env : Env) (argv : list string)
  : option (outcome unit * state) :=
  match parse_args argv with
  | None => None
  | Some args => Some (main env args init_state)
  end.

(** ** Reference runs

    The state each loop of the script reaches, written without the
    monad: what a loop does when none of its steps raises. *)

Definition log_events (evs : list event) (s : state) : state :=
  fold_left (fun s e => log_event e s) evs s.

Definition is_evaluation (e : event) : bool :=
  match e with
  | EvEvaluateSingle _ _ _ _ => true
  | EvEvaluateMaml _ _ _ _ _ => true
  | _ => false
  end.

(** The calls of the evaluation routines found in a trace. *)
Definition evaluations (evs : list event) : list event :=
  filter is_evaluation evs.

(** The label files read in a trace. *)
Definition imreads (evs : list event) : list string :=
  flat_map (fun e => match e with EvImread p => [p] | _ => [] end) evs.

(** The sum of a list of values. *)
Definition Qsum (l : list Q) : Q := fold_right Qplus 0%Q l.

(** The arithmetic mean, as the spec words it: the sum of the values
    over their number. *)
Definition arithmetic_mean (l : list Q) : Q :=
  (Qsum l / inject_Z (Z.of_nat (List.length l)))%Q.

Section Reference.

Variable env : Env.
Variable meta_model : meta_model_t.
Variable loss_func : string.

(** *** Single-shot *)

(** The (image, label) pairs of the nested loop, in loop order. *)
Definition single_pairs (data : ndarray) : list (image * image) :=
  flat_map (fun i => map (fun j => (at_ data i j, at_ data i 0))
                         (Py.range_from 1 (shape1 data)))
           (Py.range (shape0 data)).

(** What [evaluate_single_maml] returns for the [k]-th pair. *)
Definition single_value (k : nat) (p : image * image) : Q * Q :=
  evaluate_single_maml env meta_model loss_func (fst p) (snd p) k.

Definition single_event (dir : string) (k : nat) (p : image * image)
  : event :=
  EvEvaluateSingle (fst p) (snd p) k dir.

Definition single_step (dir : string) (p : image * image) (s : state)
  : state :=
  let k := idx s in
  let v := single_value k p in
  set_idx (k + 1)
    (set_single (eval_single_ssim s + fst v)%Q (eval_single_psnr s + snd v)%Q
       (log_event (single_event dir k p) s)).

Definition single_run (dir : string) (ps : list (image * image))
           (s : state) : state :=
  fold_left (fun s p => single_step dir p s) ps s.

(** Pairs numbered from [k]. *)
Fixpoint numbered {A} (k : nat) (l : list A) : list (nat * A) :=
  match l with
  | [] => []
  | x :: l' => (k, x) :: numbered (k + 1) l'
  end.

(** The divisor of lines 90-91. *)
Definition single_divisor (data : ndarray) : Z :=
(Z.of_nat (shape0 data) * (Z.of_nat (shape1 data) - 1))%Z.

(** The pairs with the value of [idx] at each call. *)
Definition single_calls (data : ndarray) : list (nat * (image * image)) :=
numbered 0 (single_pairs data).

(** *** Adaptive modes *)

(** The split that the [c]-th draw of the generator yields. *)
Definition split_at (K : Z) (c : nat) : outcome (list nat * list nat) :=
  let arr := Py.np_arange 1 (K + 1) in
  Sklearn.train_test_split arr 1 (rng_permutation env c (List.length arr)).

Definition split_or_empty (K : Z) (c : nat) : list nat * list nat :=
  match split_at K c with
  | Ok sp => sp
  | Raise _ => ([], [])
  end.

(** The query side of a task: the held-out exposures against the
    scene's reference. *)
Definition query_of (data : ndarray) (i : nat) (ts : list nat) : stacked :=
  ([map (at_ data i) ts], [map (fun _ => at_ data i 0) ts]).

Definition debevec_task (data : ndarray) (K : Z) (i c : nat)
  : stacked * stacked :=
  let '(tr, ts) := split_or_empty K c in
  (([map (at_ data i) tr], [map (fun _ => at_ data i 0) tr]),
   query_of data i ts).

(** The file read for support exposure [i] of scene [curr_idx]. *)
Definition label_path (n_scenes curr_idx i : nat) : string :=
  (load_dir env ++ "/"
   ++ label_file_name (hdrcnn_image_idx curr_idx i n_scenes))%string.

Definition label_of (n_scenes curr_idx i : nat) : image :=
  match io_imread env (label_path n_scenes curr_idx i) with
  | Some raw => normalize_png raw
  | None => []
  end.

(** The support and query sides the script builds from a split. *)
Definition debevec_sides (image_set : image_set_t) (sp : list nat * list nat)
: (list image * list image) * (list image * list image) :=
((map (image_at image_set) (fst sp),
  map (fun _ => image_at image_set 0) (fst sp)),
 (map (image_at image_set) (snd sp),
  map (fun _ => image_at image_set 0) (snd sp))).

Definition hdrcnn_sides (n_scenes curr_idx : nat) (image_set : image_set_t)
         (sp : list nat * list nat)
: (list image * list image) * (list image * list image) :=
((map (image_at image_set) (fst sp),
  map (label_of n_scenes curr_idx) (fst sp)),
 (map (image_at image_set) (snd sp),
  map (fun _ => image_at image_set 0) (snd sp))).

Definition hdrcnn_task (data : ndarray) (K : Z) (i c : nat)
  : stacked * stacked :=
  let '(tr, ts) := split_or_empty K c in
  (([map (at_ data i) tr], [map (label_of (shape0 data) i) tr]),
   query_of data i ts).

Definition hdrcnn_reads (data : ndarray) (K : Z) (i c : nat) : list event :=
  map (fun e => EvImread (label_path (shape0 data) i e))
      (fst (split_or_empty K c)).

Definition maml_value (iters : Z) (k : nat) (t : stacked * stacked) : Q * Q :=
  evaluate_maml env meta_model loss_func (fst t) (snd t) k iters.

Definition maml_event (iters : Z) (dir : string) (k : nat)
           (t : stacked * stacked) : event :=
  EvEvaluateMaml (fst t) (snd t) k iters dir.

(** One scene of an adaptive mode: draw, read the labels ([pre]),
    evaluate, count, accumulate. *)
Definition adaptive_step (iters : Z) (dir : string) (pre : list event)
           (t : stacked * stacked) (s : state) : state :=
  let s1 := log_events pre (set_rng_calls (rng_calls s + 1) s) in
  let k := idx s1 in
  let v := maml_value iters k t in
  let s2 := set_idx (k + 1) (log_event (maml_event iters dir k t) s1) in
  set_adaptive (eval_adaptive_ssim s2 + fst v)%Q
               (eval_adaptive_psnr s2 + snd v)%Q s2.

Fixpoint adaptive_run (iters : Z) (dir : string)
         (pre : nat -> nat -> list event)
         (task : nat -> nat -> stacked * stacked)
         (scenes : list nat) (s : state) : state :=
  match scenes with
  | [] => s
  | i :: rest =>
      adaptive_run iters dir pre task rest
        (adaptive_step iters dir (pre i (rng_calls s))
                       (task i (rng_calls s)) s)
  end.

(** The calls of an adaptive loop over [scenes], entered after [c]
  draws with counter [k]: the label reads of each scene, the value
  of [idx] and the task passed to [evaluate_maml]. *)
Fixpoint adaptive_calls (pre : nat -> nat -> list event)
       (task : nat -> nat -> stacked * stacked)
       (scenes : list nat) (c k : nat)
: list (list event * (nat * (stacked * stacked))) :=
match scenes with
| [] => []
| i :: rest =>
    (pre i c, (k, task i c)) :: adaptive_calls pre task rest (c + 1) (k + 1)
end.

(** The state left by lines 137-141 and 198-202 when the division
  succeeds. *)
Definition adaptive_report (n_scenes : nat) (what_ssim what_psnr : string)
         (s : state) : state :=
let a := (eval_adaptive_ssim s / inject_Z (Z.of_nat n_scenes))%Q in
let b := (eval_adaptive_psnr s / inject_Z (Z.of_nat n_scenes))%Q in
log_events [EvResult what_ssim a; EvResult what_psnr b]
           (set_adaptive a b s).

(** The state in which an adaptive loop is entered. *)
Definition adaptive_entry (banner : string) (s : state) : state :=
set_idx 0 (set_adaptive 0 0 (log_event (EvPrint banner) s)).

End Reference.

(** ** A small configuration to run the model on

    Two scenes of four exposures (K = 3), one-pixel images, a generator
    that returns rotations, and label files for the indices given. *)

Module Demo.

Definition cfg (K : Z) (loss : string) : config :=
  {| LOSS_FUNC := loss; NUM_EXPOSURES := K;
     NUM_TASK_TR_ITER := 2; TASK_LR := (1 # 10)%Q |}.

Definition data (n m : nat) : ndarray :=
  {| shape0 := n; shape1 := m;
     at_ := fun i j => [inject_Z (Z.of_nat (10 * i + j))] |}.

Definition rotate (c n : nat) : list nat :=
  map (fun k => (k + c) mod n) (seq 0 n).

Definition files (ids : list nat) (dir path : string) : option png :=
  if existsb (fun i => String.eqb path (dir ++ "/" ++ label_file_name i)%string)
             ids
  then Some [0; 51; 255]%Z else None.

Definition env (K : Z) (loss : string) (n : nat) (ids : list nat) : Env :=
  {| cuda_is_available := true;
     script_dir := "/repo";
     update_cfg := fun _ => cfg K loss;
     get_cfg_defaults := cfg K loss;
     torch_load := fun p =>
       Some {| performance := 1%Q; epoch := 3; unet_state_dict := [1%Q] |};
     meta_test_data := fun k => data n (Z.to_nat (k + 1));
     io_imread := files ids "/repo/data/LDR-HDR-pair_Dataset/TestOutputs";
     rng_permutation := rotate;
     evaluate_single_maml := fun _ _ _ _ k => (inject_Z (Z.of_nat k), 1%Q);
     evaluate_maml := fun _ _ _ _ k _ => ((inject_Z (Z.of_nat k) + 1)%Q, 2%Q) |}.

Definition model : meta_model_t := {| weights := [1%Q]; lr := (1 # 10)%Q |}.

Definition args : args_t :=
  {| model_dir := Some "out"; use_best := true; cfg_path := None |}.

End Demo.

(** ** Specifications of computations *)

(** [r] is a run that either returned [v] in state [s'] or raised. *)
Definition ok_or_raise {A} (r : outcome A * state) (v : A) (s' : state)
  : Prop :=
  r = (Ok v, s') \/ exists e s'', r = (Raise e, s'').

(** ** The two adaptive modes, side by side *)

Inductive adaptive_kind : Type := Debevec | Hdrcnn.

Definition adaptive_mode (env : Env) (kind : adaptive_kind)
  : meta_model_t -> string -> config -> ndarray -> string -> M unit :=
  match kind with
  | Debevec => debevec_mode env
  | Hdrcnn => hdrcnn_mode env
  end.

Definition adaptive_task (env : Env) (kind : adaptive_kind)
           (data : ndarray) (K : Z) : nat -> nat -> stacked * stacked :=
  match kind with
  | Debevec => debevec_task env data K
  | Hdrcnn => hdrcnn_task env data K
  end.

Definition adaptive_reads (env : Env) (kind : adaptive_kind)
           (data : ndarray) (K : Z) : nat -> nat -> list event :=
  match kind with
  | Debevec => fun _ _ => []
  | Hdrcnn => hdrcnn_reads env data K
  end.

Definition adaptive_banner (kind : adaptive_kind) : string :=
  match kind with
  | Debevec => "Performing Adaptive Evaluation using Debevec labels"
  | Hdrcnn => "Performing Adaptive Evaluation using HDRCNN labels"
  end.

Definition adaptive_what_ssim (kind : adaptive_kind) : string :=
  match kind with
  | Debevec => "Average Debevec Adapted Evaluation SSIM"
  | Hdrcnn => "Average HDRCNN Adapted Evaluation SSIM"
  end.

Definition adaptive_what_psnr (kind : adaptive_kind) : string :=
  match kind with
  | Debevec => "Average Debevec Adapted Evaluation PSNR"
  | Hdrcnn => "Average HDRCNN Adapted Evaluation PSNR"
  end.

(** The values the evaluation routines returned for the calls found in
    a trace: what the script adds to its accumulators. *)
Definition recorded (env : Env) (meta_model : meta_model_t)
           (loss_func : string) (evs : list event) : list (Q * Q) :=
  flat_map (fun e =>
              match e with
              | EvEvaluateSingle x y k _ =>
                  [evaluate_single_maml env meta_model loss_func x y k]
              | EvEvaluateMaml tr te k iters _ =>
                  [evaluate_maml env meta_model loss_func tr te k iters]
              | _ => []
              end) evs.

(** Events that load data or a checkpoint, or compute with the model. *)
Definition loads_or_computes (e : event) : bool :=
  match e with
  | EvGetLossFunc _ | EvTorchLoad _ | EvLoadStateDict _ | EvDataGenerator _
  | EvEvaluateSingle _ _ _ _ | EvEvaluateMaml _ _ _ _ _ | EvImread _
  | EvResult _ _ => true
  | _ => false
  end.

(** A run that raised. *)
Definition fails {A} (r : outcome A * state) : Prop :=
  exists e s', r = (Raise e, s').



(** ** The draws a uniform generator chooses among *)






(** ** Well-formed runs *)

(** The configuration, data set and generator an adaptive run needs:
    K >= 2 exposures configured, K + 1 images per scene (what
    [DataGenerator(num_exposures=K)] provides), at least one scene,
    and a generator that returns permutations. *)
Definition well_formed (env : Env) (cfg : config) (data : ndarray) (K : nat)
  : Prop :=
  NUM_EXPOSURES cfg = Z.of_nat K /\
  2 <= K /\
  shape1 data = K + 1 /\
  shape0 data <> 0 /\
  forall c, Permutation (rng_permutation env c K) (seq 0 K).

(** Every baseline-label file an HDRCNN run can ask for exists. *)
Definition labels_present (env : Env) (data : ndarray) (K : nat) : Prop :=
  forall i e, i < shape0 data -> 1 <= e <= K ->
              io_imread env (label_path env (shape0 data) i e) <> None.

Definition labels_needed (env : Env) (kind : adaptive_kind) (data : ndarray)
           (K : nat) : Prop :=
  match kind with
  | Debevec => True
  | Hdrcnn => labels_present env data K
  end.

(** ** The stages of [main] *)

(** Lines 25-31: the output directory of a run on model directory [d],
    and the directory of one mode below it. *)
Definition output_dir (d : string) : string :=
  Py.osp_join d "evaluation_output".

Definition mode_dir (d sub : string) : string :=
  Py.osp_join (output_dir d) sub.

(** The model of lines 65-68. *)
Definition loaded_model (cfg : config) (ckpt : checkpoint_t) : meta_model_t :=
  {| weights := unet_state_dict ckpt; lr := TASK_LR cfg |}.

(** What lines 19-38 leave in the trace. *)
Definition directory_events (d : string) : list event :=
  [EvPrint "--- Evaluating on meta-test set ---";
   EvMakedirs (output_dir d);
   EvMakedirs (mode_dir d "single");
   EvMakedirs (mode_dir d "adapt_debevec");
   EvMakedirs (mode_dir d "adapt_hdrcnn");
   EvMakedirs (output_dir d);
   EvCreateLogger (output_dir d)].

(** What lines 40-47 add to it. *)
Definition config_events (args : args_t) : list event :=
  [EvLogGpu; EvLogGpu; EvLoadCfg (cfg_path args)].

(** What lines 19-72 leave in the trace when none of them raises. *)
Definition startup_events (args : args_t) (d : string) (cfg : config)
           (ckpt : checkpoint_t) : list event :=
  let model_path := model_path_of d (use_best args) in
  directory_events d ++ config_events args ++
  [EvGetLossFunc (LOSS_FUNC cfg);
   EvTorchLoad model_path;
   EvPrint "During training: Best Epoch, Best SSIM";
   EvPrint ("Loading pre-trained model from --> " ++ model_path)%string;
   EvLoadStateDict (unet_state_dict ckpt);
   EvPrint ("Successfully loaded pre-trained model from --> "
            ++ model_path)%string;
   EvDataGenerator (NUM_EXPOSURES cfg)].

(** Lines 76-202: the three modes, one after the other. *)
Definition three_modes (env : Env) (meta_model : meta_model_t) (cfg : config)
           (all_test_data : ndarray) (d : string) : M unit :=
  single_shot_mode env meta_model (LOSS_FUNC cfg) all_test_data
                   (mode_dir d "single") ;;
  debevec_mode env meta_model (LOSS_FUNC cfg) cfg all_test_data
               (mode_dir d "adapt_debevec") ;;
  hdrcnn_mode env meta_model (LOSS_FUNC cfg) cfg all_test_data
              (mode_dir d "adapt_hdrcnn").

(** The start-up of a run succeeds: a model directory is given, a GPU
    is present, the loss function is a supported one and the selected
    checkpoint loads. *)
Definition starts (env : Env) (args : args_t) (d : string)
           (ckpt : checkpoint_t) : Prop :=
  model_dir args = Some d /\
  cuda_is_available env = true /\
  In (LOSS_FUNC (load_cfg env args)) valid_loss_funcs /\
  torch_load env (model_path_of d (use_best args)) = Some ckpt.

(** ** What a computation may log and raise *)

(** Every event [c] appends to the trace satisfies [P], an exception it
    raises satisfies [Q] and a value it returns satisfies [R]. *)
Definition yields {A} (c : M A) (P : event -> Prop) (Q : exn -> Prop)
           (R : A -> Prop) : Prop :=
  forall s, exists evs,
    trace (snd (c s)) = trace s ++ evs /\
    Forall P evs /\
    match fst (c s) with
    | Ok a => R a
    | Raise e => Q e
    end.

(** The label files of the HDRCNN baseline that a run on [data] with
    the configuration [cfg] can ask for. *)
Definition label_read (env : Env) (cfg : config) (data : ndarray)
           (p : string) : Prop :=
  exists i x,
    i < shape0 data /\ (1 <= Z.of_nat x <= NUM_EXPOSURES cfg)%Z /\
    p = label_path env (shape0 data) i x.

(** The events of an adaptive mode. *)
Definition adaptive_event (env : Env) (kind : adaptive_kind) (cfg : config)
           (data : ndarray) (dir : string) (e : event) : Prop :=
  match e with
  | EvPrint m => m = adaptive_banner kind
  | EvImread p => kind = Hdrcnn /\ label_read env cfg data p
  | EvEvaluateMaml _ _ _ iters dir' =>
      iters = NUM_TASK_TR_ITER cfg /\ dir' = dir
  | EvResult w _ => w = adaptive_what_ssim kind \/ w = adaptive_what_psnr kind
  | _ => False
  end.

(** The exceptions of an adaptive mode. *)
Definition adaptive_exn (env : Env) (kind : adaptive_kind) (cfg : config)
           (data : ndarray) (e : exn) : Prop :=
  match e with
  | ValueError _ | IndexError | ZeroDivisionError => True
  | FileNotFoundError p =>
      kind = Hdrcnn /\ label_read env cfg data p /\ io_imread env p = None
  | _ => False
  end.

(** The events of the single-shot mode. *)
Definition single_shot_event (data : ndarray) (dir : string) (e : event)
  : Prop :=
  match e with
  | EvPrint m => m = "Performing Single-Shot Evaluation"
  | EvEvaluateSingle x y _ dir' =>
      dir' = dir /\
      exists i j, i < shape0 data /\ 1 <= j < shape1 data /\
                  x = at_ data i j /\ y = at_ data i 0
  | EvResult w _ =>
      w = "Average Single-Shot Evaluation SSIM" \/
      w = "Average Single-Shot Evaluation PSNR"
  | _ => False
  end.

(** The events of the start-up (lines 19-72). *)
Definition startup_event (args : args_t) (e : event) : Prop :=
  match e with
  | EvTorchLoad p =>
      exists d, model_dir args = Some d /\
                p = model_path_of d (use_best args)
  | EvMakedirs p =>
      exists d, model_dir args = Some d /\
                In p [output_dir d; mode_dir d "single";
                      mode_dir d "adapt_debevec"; mode_dir d "adapt_hdrcnn"]
  | EvEvaluateSingle _ _ _ _ | EvEvaluateMaml _ _ _ _ _ | EvImread _
  | EvResult _ _ => False
  | _ => True
  end.

(** ** The trace of a completed run *)

(** What a completed single-shot mode that reports [a] and [b] adds to
    the trace. *)
Definition single_shot_trace (data : ndarray) (dir : string) (a b : Q)
  : list event :=
  [EvPrint "Performing Single-Shot Evaluation"] ++
  map (fun c => single_event dir (fst c) (snd c)) (single_calls data) ++
  [EvResult "Average Single-Shot Evaluation SSIM" a;
   EvResult "Average Single-Shot Evaluation PSNR" b].

(** What a completed adaptive mode, entered after [c] draws of the
    generator and reporting [a] and [b], adds to the trace. *)
Definition adaptive_trace (env : Env) (kind : adaptive_kind) (cfg : config)
           (data : ndarray) (dir : string) (c : nat) (a b : Q) : list event :=
  [EvPrint (adaptive_banner kind)] ++
  flat_map (fun i =>
              adaptive_reads env kind data (NUM_EXPOSURES cfg) i (c + i) ++
              [maml_event (NUM_TASK_TR_ITER cfg) dir i
                 (adaptive_task env kind data (NUM_EXPOSURES cfg) i (c + i))])
           (seq 0 (shape0 data)) ++
  [EvResult (adaptive_what_ssim kind) a;
   EvResult (adaptive_what_psnr kind) b].

(** ** Surroundings with a fault, to run the model on *)

Module Faulty.

(** [e] on a machine without a GPU. *)
Definition no_gpu (e : Env) : Env :=
  {| cuda_is_available := false;
     script_dir := script_dir e;
     update_cfg := update_cfg e;
     get_cfg_defaults := get_cfg_defaults e;
     torch_load := torch_load e;
     meta_test_data := meta_test_data e;
     io_imread := io_imread e;
     rng_permutation := rng_permutation e;
     evaluate_single_maml := evaluate_single_maml e;
     evaluate_maml := evaluate_maml e |}.

(** [e] with no checkpoint file in the model directory. *)
Definition no_checkpoint (e : Env) : Env :=
  {| cuda_is_available := cuda_is_available e;
     script_dir := script_dir e;
     update_cfg := update_cfg e;
     get_cfg_defaults := get_cfg_defaults e;
     torch_load := fun _ => None;
     meta_test_data := meta_test_data e;
     io_imread := io_imread e;
     rng_permutation := rng_permutation e;
     evaluate_single_maml := evaluate_single_maml e;
     evaluate_maml := evaluate_maml e |}.

End Faulty.


(** ** Command lines *)

(** A command-line word that [argparse] takes for an option, not for
    the value of one. *)
Definition starts_with_dash (w : string) : bool :=
  match w with
  | String c _ => Ascii.eqb c "-"
  | EmptyString => false
  end.

(** A command line of options that each come with a value no option
    could be mistaken for. *)
Fixpoint plain_values (argv : list string) : bool :=
  match argv with
  | [] => true
  | _ :: v :: rest => negb (starts_with_dash v) && plain_values rest
  | _ => false
  end.

(** ** How a computation ends *)

(** The run [r] raised an exception that satisfies [Q] or returned a
    value that satisfies [R]. *)
Definition ends {A} (r : outcome A * state) (Q : exn -> Prop)
           (R : A -> Prop) : Prop :=
  match fst r with
  | Ok a => R a
  | Raise e => Q e
  end.

(** The exception of a read of a baseline-label file that is absent. *)
Definition absent_label (env : Env) (cfg : config) (data : ndarray)
           (e : exn) : Prop :=
  exists p, e = FileNotFoundError p /\
            label_read env cfg data p /\ io_imread env p = None.

(** What an exception raised inside a scene of an adaptive mode tells
    about the configuration and the data. *)
Definition scene_exn (env : Env) (kind : adaptive_kind) (cfg : config)
           (data : ndarray) (e : exn) : Prop :=
  shape0 data <> 0 /\
  match e with
  | ValueError _ => (NUM_EXPOSURES cfg < 2)%Z
  | IndexError =>
      (2 <= NUM_EXPOSURES cfg)%Z /\
      (Z.of_nat (shape1 data) <= NUM_EXPOSURES cfg)%Z
  | FileNotFoundError p =>
      kind = Hdrcnn /\ (2 <= NUM_EXPOSURES cfg)%Z /\
      label_read env cfg data p /\ io_imread env p = None
  | _ => False
  end.

(** The figure numbers ([idx]) of the evaluation calls in a trace. *)
Definition figure_indices (evs : list event) : list nat :=
  flat_map (fun e => match e with
                     | EvEvaluateSingle _ _ k _ => [k]
                     | EvEvaluateMaml _ _ k _ _ => [k]
                     | _ => []
                     end) evs.


(** ** Surroundings that differ in what a mode does not use *)

(** [e] and [e'] have the same random generator and the same
    evaluation routines; their files, machine and data set may
    differ. *)
Definition same_generator_and_routines (e e' : Env) : Prop :=
  (forall c n, rng_permutation e c n = rng_permutation e' c n) /\
  (forall m l x y k,
      evaluate_single_maml e m l x y k = evaluate_single_maml e' m l x y k) /\
  (forall m l tr te k iters,
      evaluate_maml e m l tr te k iters = evaluate_maml e' m l tr te k iters).

(** * Facts about the primitives *)

Lemma np_arange_exposures (K : Z) :
  Py.np_arange 1 (K + 1) = seq 1 (Z.to_nat K).
Proof.
  unfold Py.np_arange. f_equal. f_equal. lia.
Qed.

Lemma getitem_seq (a k i : nat) :
  i < k -> Py.getitem (seq a k) i = Ok (a + i).
Proof.
  intros Hi. unfold Py.getitem.
  rewrite (nth_error_nth' (seq a k) 0) by (rewrite length_seq; exact Hi).
  rewrite seq_nth by exact Hi. reflexivity.
Qed.

Lemma take_seq (k : nat) (ind : list nat) :
  Forall (fun i => i < k) ind -> Py.take (seq 1 k) ind = Ok (map S ind).
Proof.
  induction 1 as [|i ind Hi _ IH]; simpl.
  - reflexivity.
  - rewrite (getitem_seq 1 k i Hi), IH. reflexivity.
Qed.

Lemma perm_seq_bound (k : nat) (perm : list nat) :
  Permutation perm (seq 0 k) -> Forall (fun i => i < k) perm.
Proof.
  intros HP. apply Forall_forall. intros i Hi.
  apply (Permutation_in _ HP) in Hi. apply in_seq in Hi. lia.
Qed.

(** With at least two samples and a genuine permutation, the split
    is the head of the permutation against the rest. *)
Lemma split_ok (k : nat) (perm : list nat) :
  2 <= k -> Permutation perm (seq 0 k) ->
  exists q rest,
    perm = q :: rest /\
    Sklearn.train_test_split (seq 1 k) 1 perm = Ok (map S rest, [S q]).
Proof.
  intros Hk HP.
  pose proof (Permutation_length HP) as HL. rewrite length_seq in HL.
  pose proof (perm_seq_bound k perm HP) as HB.
  destruct perm as [|q rest]; simpl in HL; [lia|].
  exists q, rest. split; [reflexivity|].
  unfold Sklearn.train_test_split, Sklearn.validate_shuffle_split.
  rewrite length_seq.
  destruct (Nat.leb_spec k 1) as [H1|H1]; [lia|]. simpl orb. cbv iota.
  destruct (Nat.eqb_spec (k - 1) 0) as [H0|H0]; [lia|].
  cbn [firstn skipn].
  replace (k - 1) with (List.length rest) by lia.
  rewrite firstn_all.
  pose proof (Forall_inv HB) as Hq. pose proof (Forall_inv_tail HB) as Hrest.
  rewrite (take_seq k rest Hrest).
  rewrite (take_seq k [q]) by (constructor; [exact Hq | constructor]).
  reflexivity.
Qed.

(** With fewer than two samples the size check fails, whatever the
    generator would have drawn. *)
Lemma split_too_small (k : nat) (perm : list nat) :
  k < 2 ->
  Sklearn.train_test_split (seq 1 k) 1 perm =
  Raise (ValueError
           "test_size should be positive and smaller than the number of samples").
Proof.
  intros Hk. unfold Sklearn.train_test_split, Sklearn.validate_shuffle_split.
  rewrite length_seq.
  destruct (Nat.leb_spec k 1) as [H1|H1]; [reflexivity | lia].
Qed.


Lemma split_at_ok (env : Env) (K c : nat) :
  2 <= K ->
  Permutation (rng_permutation env c K) (seq 0 K) ->
  exists q rest,
    rng_permutation env c K = q :: rest /\
    split_at env (Z.of_nat K) c = Ok (map S rest, [S q]).
Proof.
  intros HK HP. unfold split_at.
  rewrite np_arange_exposures, Nat2Z.id, length_seq.
  apply split_ok; assumption.
Qed.

(** The two sides of a split of a permutation of [0..K-1]. *)
Lemma split_sides (K q : nat) (rest : list nat) :
  Permutation (q :: rest) (seq 0 K) ->
  Permutation (map S rest ++ [S q]) (seq 1 K) /\
  NoDup (map S rest ++ [S q]) /\
  List.length rest = K - 1.
Proof.
  intros HP.
  assert (P1 : Permutation (map S rest ++ [S q]) (seq 1 K)).
  { rewrite <- seq_shift.
    apply Permutation_trans with (map S (q :: rest)).
    - simpl. apply Permutation_sym. apply Permutation_cons_append.
    - apply Permutation_map. exact HP. }
  split; [exact P1|]. split.
  - apply (Permutation_NoDup (Permutation_sym P1)). apply seq_NoDup.
  - apply Permutation_length in HP. rewrite length_seq in HP. simpl in HP. lia.
Qed.

(** * The monad *)

Lemma bind_ok {A B} (c : M A) (k : A -> M B) (s s1 : state) (a : A) :
  c s = (Ok a, s1) -> bind c k s = k a s1.
Proof. intros H. unfold bind. rewrite H. reflexivity. Qed.

Lemma bind_raise {A B} (c : M A) (k : A -> M B) (s s1 : state) (e : exn) :
  c s = (Raise e, s1) -> bind c k s = (Raise e, s1).
Proof. intros H. unfold bind. rewrite H. reflexivity. Qed.

(** * States *)

Lemma state_ext (s t : state) :
  eval_single_ssim s = eval_single_ssim t ->
  eval_single_psnr s = eval_single_psnr t ->
  eval_adaptive_ssim s = eval_adaptive_ssim t ->
  eval_adaptive_psnr s = eval_adaptive_psnr t ->
  idx s = idx t -> rng_calls s = rng_calls t -> trace s = trace t ->
  s = t.
Proof.
  destruct s, t; simpl; intros; subst; reflexivity.
Qed.

Lemma trace_log_events (evs : list event) (s : state) :
  trace (log_events evs s) = trace s ++ evs.
Proof.
  revert s. induction evs as [|e evs IH]; intros s; simpl.
  - symmetry. apply app_nil_r.
  - unfold log_events in IH. rewrite IH. simpl. rewrite <- app_assoc. reflexivity.
Qed.

Lemma log_events_fields (evs : list event) (s : state) :
  eval_single_ssim (log_events evs s) = eval_single_ssim s /\
  eval_single_psnr (log_events evs s) = eval_single_psnr s /\
  eval_adaptive_ssim (log_events evs s) = eval_adaptive_ssim s /\
  eval_adaptive_psnr (log_events evs s) = eval_adaptive_psnr s /\
  idx (log_events evs s) = idx s /\
  rng_calls (log_events evs s) = rng_calls s.
Proof.
  revert s. induction evs as [|e evs IH]; intros s; simpl.
  - repeat split.
  - unfold log_events in IH. destruct (IH (log_event e s)) as (a & b & c & d & f & g).
    simpl in *. repeat split; assumption.
Qed.

(** * Single-shot mode *)

Section SingleShot.

Variable env : Env.
Variable meta_model : meta_model_t.
Variable loss_func : string.
Variable data : ndarray.
Variable dir : string.

Lemma single_body_run (i j : nat) (s : state) :
    i < shape0 data -> 0 < j < shape1 data ->
    single_shot_body env meta_model loss_func data dir i j s =
    (Ok tt, single_step env meta_model loss_func dir
                        (at_ data i j, at_ data i 0) s).
  Proof.
    intros Hi Hj. unfold single_shot_body, ndarray_getitem, bind.
    destruct (Nat.ltb_spec i (shape0 data)) as [_|]; [|lia].
    destruct (Nat.ltb_spec j (shape1 data)) as [_|]; [|lia].
    destruct (Nat.ltb_spec 0 (shape1 data)) as [_|]; [|lia].
    cbn. unfold single_step, single_value. cbn.
    destruct (evaluate_single_maml env meta_model loss_func
                (at_ data i j) (at_ data i 0) (idx s)) as [a b].
    reflexivity.
  Qed.

Lemma single_inner_run (i : nat) (js : list nat) (s : state) :
    i < shape0 data -> Forall (fun j => 0 < j < shape1 data) js ->
    for_ js (single_shot_body env meta_model loss_func data dir i) s =
    (Ok tt, single_run env meta_model loss_func dir
              (map (fun j => (at_ data i j, at_ data i 0)) js) s).
  Proof.
    intros Hi Hjs. revert s.
    induction Hjs as [|j js Hj _ IH]; intros s; simpl.
    - reflexivity.
    - rewrite (bind_ok _ _ _ _ _ (single_body_run i j s Hi Hj)). apply IH.
  Qed.

Lemma single_outer_run (scenes : list nat) (s : state) :
    Forall (fun i => i < shape0 data) scenes ->
    for_ scenes (fun i =>
      for_ (Py.range_from 1 (shape1 data))
           (single_shot_body env meta_model loss_func data dir i)) s =
    (Ok tt, single_run env meta_model loss_func dir
              (flat_map (fun i => map (fun j => (at_ data i j, at_ data i 0))
                                      (Py.range_from 1 (shape1 data)))
                        scenes) s).
  Proof.
    intros Hs. revert s.
    induction Hs as [|i scenes Hi _ IH]; intros s; simpl.
    - reflexivity.
    - erewrite bind_ok.
      2:{ apply single_inner_run; [exact Hi|].
          apply Forall_forall. intros j Hj. unfold Py.range_from in Hj.
          apply in_seq in Hj. lia. }
      rewrite IH. unfold single_run. rewrite fold_left_app. reflexivity.
  Qed.

  (** The loops of the single-shot mode never raise. *)
Lemma single_loops_run (s : state) :
    for_ (Py.range (shape0 data)) (fun i =>
      for_ (Py.range_from 1 (shape1 data))
           (single_shot_body env meta_model loss_func data dir i)) s =
    (Ok tt, single_run env meta_model loss_func dir (single_pairs data) s).
  Proof.
    apply single_outer_run. apply Forall_forall. intros i Hi.
    unfold Py.range in Hi. apply in_seq in Hi. lia.
  Qed.

  (** What the state holds after a run over a list of pairs. *)
Lemma single_run_state (ps : list (image * image)) (s : state) :
    let calls := numbered (idx s) ps in
    let vals := map (fun c => single_value env meta_model loss_func
                                           (fst c) (snd c)) calls in
    single_run env meta_model loss_func dir ps s =
    {| eval_single_ssim := fold_left Qplus (map fst vals) (eval_single_ssim s);
       eval_single_psnr := fold_left Qplus (map snd vals) (eval_single_psnr s);
       eval_adaptive_ssim := eval_adaptive_ssim s;
       eval_adaptive_psnr := eval_adaptive_psnr s;
       idx := idx s + List.length ps;
       rng_calls := rng_calls s;
       trace := trace s ++ map (fun c => single_event dir (fst c) (snd c)) calls
    |}.
  Proof.
    revert s. induction ps as [|p ps IH]; intros s.
    - simpl. destruct s; simpl. rewrite Nat.add_0_r, List.app_nil_r. reflexivity.
    - change (single_run env meta_model loss_func dir (p :: ps) s)
        with (single_run env meta_model loss_func dir ps
                (single_step env meta_model loss_func dir p s)).
      rewrite IH. apply state_ext; cbn; try reflexivity.
      + lia.
      + rewrite <- List.app_assoc. reflexivity.
  Qed.

Lemma length_numbered {A} (k : nat) (l : list A) :
    List.length (numbered k l) = List.length l.
  Proof. revert k. induction l; intros k; simpl; auto. Qed.

Lemma length_flat_map_const {A B} (f : A -> list B) (c : nat) (l : list A) :
    (forall x, List.length (f x) = c) ->
    List.length (flat_map f l) = List.length l * c.
  Proof.
    intros Hf. induction l as [|x l IH]; simpl.
    - reflexivity.
    - rewrite length_app, Hf, IH. reflexivity.
  Qed.

Lemma length_single_pairs :
    List.length (single_pairs data) = shape0 data * (shape1 data - 1).
  Proof.
    unfold single_pairs, Py.range, Py.range_from.
    rewrite (length_flat_map_const _ (shape1 data - 1)).
    - rewrite length_seq. reflexivity.
    - intros i. rewrite length_map, length_seq. reflexivity.
  Qed.

End SingleShot.

Section SingleShotMode.

Variable env : Env.
Variable meta_model : meta_model_t.
Variable loss_func : string.
Variable data : ndarray.
Variable dir : string.

Lemma report_single_zero (s : state) :
  report_single 0 s = (Raise ZeroDivisionError, s).
Proof. reflexivity. Qed.

Lemma report_single_nonzero (d : Z) (s : state) :
  d <> 0%Z ->
  report_single d s =
  (Ok tt,
   let a := (eval_single_ssim s / inject_Z d)%Q in
   let b := (eval_single_psnr s / inject_Z d)%Q in
   log_events [EvResult "Average Single-Shot Evaluation SSIM" a;
               EvResult "Average Single-Shot Evaluation PSNR" b]
              (set_single a b s)).
Proof.
  intros Hd. unfold report_single, bind, gets, py_div.
  destruct (Z.eqb_spec d 0) as [H0|_]; [contradiction|].
  reflexivity.
Qed.

(** The single-shot mode reaches its division whatever the data set
    holds; only the division can raise. *)
Lemma single_shot_mode_run (s : state) :
  single_shot_mode env meta_model loss_func data dir s =
  report_single
    (Z.of_nat (shape0 data) * (Z.of_nat (shape1 data) - 1))%Z
    (single_run env meta_model loss_func dir (single_pairs data)
       (set_idx 0 (set_single 0 0
          (log_event (EvPrint "Performing Single-Shot Evaluation") s)))).
Proof.
  unfold single_shot_mode.
  unfold bind at 1. cbn [emit modify].
  unfold bind at 1. cbn [modify].
  unfold bind at 1. cbn [modify].
  rewrite (bind_ok _ _ _ _ _ (single_loops_run env meta_model loss_func data dir _)).
  reflexivity.
Qed.

End SingleShotMode.

(** * Runs that return or raise *)

Lemma oor_inv {A} (r : outcome A * state) (v v' : A) (s' s'' : state) :
  ok_or_raise r v s' -> r = (Ok v', s'') -> v' = v /\ s'' = s'.
Proof.
  intros [H|(e & s0 & H)] H'; rewrite H in H'; inversion H'; auto.
Qed.

Lemma oor_bind {A B} (c : M A) (k : A -> M B) (s s1 s2 : state) (a : A) (b : B) :
  ok_or_raise (c s) a s1 -> ok_or_raise (k a s1) b s2 ->
  ok_or_raise (bind c k s) b s2.
Proof.
  intros [Hc|(e & s0 & Hc)] Hk.
  - rewrite (bind_ok _ _ _ _ _ Hc). exact Hk.
  - right. exists e, s0. apply bind_raise. exact Hc.
Qed.

Lemma oor_np_stack {A} (l : list A) (s : state) :
  ok_or_raise (np_stack l s) l s.
Proof.
  destruct l; [right; eexists; eexists; reflexivity | left; reflexivity].
Qed.

Lemma oor_image_set_getitem (image_set : image_set_t) (i : nat) (s : state) :
  ok_or_raise (image_set_getitem image_set i s) (image_at image_set i) s.
Proof.
  unfold image_set_getitem. destruct (i <? n_images image_set).
  - left. reflexivity.
  - right. eexists; eexists; reflexivity.
Qed.

Lemma oor_ndarray_batch (a : ndarray) (i : nat) (s : state) :
  ok_or_raise (ndarray_batch a i s) [row a i] s.
Proof.
  unfold ndarray_batch. destruct (i <? shape0 a).
  - left. reflexivity.
  - right. eexists; eexists; reflexivity.
Qed.

Lemma oor_for_collect {A B} (l : list A) (f : A -> M B) (g : A -> B)
      (ev : A -> list event) (s : state) :
  (forall x t, ok_or_raise (f x t) (g x) (log_events (ev x) t)) ->
  ok_or_raise (for_collect l f s) (map g l) (log_events (flat_map ev l) s).
Proof.
  intros Hf. revert s. induction l as [|x l IH]; intros s; simpl.
  - left. reflexivity.
  - eapply oor_bind; [apply Hf|].
    eapply oor_bind; [apply IH|].
    left. unfold ret, log_events. rewrite fold_left_app. reflexivity.
Qed.

Lemma log_events_no_events {A} (l : list A) (s : state) :
  log_events (flat_map (fun _ : A => @nil event) l) s = s.
Proof. induction l; simpl; auto. Qed.

Lemma flat_map_singleton {A B} (f : A -> B) (l : list A) :
  flat_map (fun x => [f x]) l = map f l.
Proof. induction l; simpl; congruence. Qed.

Section Adaptive.

Variable env : Env.
Variable meta_model : meta_model_t.
Variable loss_func : string.
Variable cfg : config.
Variable data : ndarray.
Variable dir : string.

Lemma oor_train_test_split (s : state) :
  ok_or_raise (train_test_split env (Py.np_arange 1 ((NUM_EXPOSURES cfg) + 1)) s)
              (split_or_empty env (NUM_EXPOSURES cfg) (rng_calls s))
              (set_rng_calls (rng_calls s + 1) s).
Proof.
  unfold train_test_split, split_or_empty, split_at, bind, gets, lift.
  destruct (Sklearn.train_test_split _ _ _) as [sp|e].
  - left. reflexivity.
  - right. eexists; eexists; reflexivity.
Qed.

Lemma oor_imread_label (path : string) (s : state) :
  ok_or_raise (imread_label env path s)
              (match io_imread env path with
               | Some raw => normalize_png raw
               | None => []
               end)
              (log_events [EvImread path] s).
Proof.
  unfold imread_label, bind, emit, modify.
  destruct (io_imread env path).
  - left. reflexivity.
  - right. eexists; eexists; reflexivity.
Qed.

Lemma oor_collect_test (image_set : image_set_t) (ts : list nat) (s : state) :
  ok_or_raise (collect_test image_set ts s)
              (map (image_at image_set) ts,
               map (fun _ => image_at image_set 0) ts) s.
Proof.
  unfold collect_test.
  eapply oor_bind.
  { apply (oor_for_collect ts _
             (fun i => (image_at image_set i, image_at image_set 0))
             (fun _ => [])).
    intros x t.
    eapply oor_bind; [apply oor_image_set_getitem|].
    eapply oor_bind; [apply oor_image_set_getitem|].
    left. reflexivity. }
  rewrite log_events_no_events.
  eapply oor_bind; [apply oor_np_stack|].
  eapply oor_bind; [apply oor_np_stack|].
  left. rewrite !map_map. reflexivity.
Qed.

Lemma oor_debevec_set (image_set : image_set_t) (s : state) :
  ok_or_raise (debevec_set env cfg image_set s)
              (debevec_sides image_set (split_or_empty env (NUM_EXPOSURES cfg) (rng_calls s)))
              (set_rng_calls (rng_calls s + 1) s).
Proof.
  unfold debevec_set.
  eapply (oor_bind _ _ _ _ _ (split_or_empty env (NUM_EXPOSURES cfg) (rng_calls s)));
    [apply oor_train_test_split|].
  destruct (split_or_empty env (NUM_EXPOSURES cfg) (rng_calls s)) as [tr ts].
  eapply oor_bind.
  { apply (oor_for_collect tr _
             (fun i => (image_at image_set i, image_at image_set 0))
             (fun _ => [])).
    intros x t.
    eapply oor_bind; [apply oor_image_set_getitem|].
    eapply oor_bind; [apply oor_image_set_getitem|].
    left. reflexivity. }
  rewrite log_events_no_events.
  eapply oor_bind; [apply oor_np_stack|].
  eapply oor_bind; [apply oor_np_stack|].
  eapply oor_bind; [apply oor_collect_test|].
  left. unfold debevec_sides. rewrite !map_map. reflexivity.
Qed.

Lemma oor_hdrcnn_set (curr_idx : nat) (image_set : image_set_t) (s : state) :
  ok_or_raise (hdrcnn_set env cfg (shape0 data) curr_idx image_set s)
              (hdrcnn_sides env (shape0 data) curr_idx image_set
                            (split_or_empty env (NUM_EXPOSURES cfg) (rng_calls s)))
              (log_events (hdrcnn_reads env data (NUM_EXPOSURES cfg) curr_idx (rng_calls s))
                          (set_rng_calls (rng_calls s + 1) s)).
Proof.
  unfold hdrcnn_set, hdrcnn_reads.
  eapply (oor_bind _ _ _ _ _ (split_or_empty env (NUM_EXPOSURES cfg) (rng_calls s)));
    [apply oor_train_test_split|].
  destruct (split_or_empty env (NUM_EXPOSURES cfg) (rng_calls s)) as [tr ts]. cbn [fst].
  eapply oor_bind.
  { apply (oor_for_collect tr _
             (fun i => (image_at image_set i,
                        label_of env (shape0 data) curr_idx i))
             (fun i => [EvImread (label_path env (shape0 data) curr_idx i)])).
    intros x t.
    eapply oor_bind; [apply oor_image_set_getitem|].
    eapply oor_bind; [apply oor_imread_label|].
    left. reflexivity. }
  rewrite flat_map_singleton.
  eapply oor_bind; [apply oor_np_stack|].
  eapply oor_bind; [apply oor_np_stack|].
  eapply oor_bind; [apply oor_collect_test|].
  left. unfold hdrcnn_sides. rewrite !map_map. reflexivity.
Qed.

Lemma oor_adapt_and_score (tr te : list image * list image) (s : state) :
  ok_or_raise
    (adapt_and_score env meta_model loss_func (NUM_TASK_TR_ITER cfg) dir [(tr, te)] s)
    tt
    (let t := (([fst tr], [snd tr]), ([fst te], [snd te])) in
     let k := idx s in
     let v := maml_value env meta_model loss_func (NUM_TASK_TR_ITER cfg) k t in
     let s2 := set_idx (k + 1)
                 (log_event (maml_event (NUM_TASK_TR_ITER cfg) dir k t) s) in
     set_adaptive (eval_adaptive_ssim s2 + fst v)%Q
                  (eval_adaptive_psnr s2 + snd v)%Q s2).
Proof.
  left. unfold adapt_and_score, bind, np_stack, ret, gets, emit, modify.
  cbn. unfold maml_value. cbn.
  destruct (evaluate_maml env meta_model loss_func _ _ (idx s) (NUM_TASK_TR_ITER cfg))
    as [a b]. reflexivity.
Qed.

Lemma oor_debevec_scene (curr_idx : nat) (s : state) :
  ok_or_raise
    (debevec_scene env meta_model loss_func cfg data dir curr_idx s)
    tt
    (adaptive_step env meta_model loss_func (NUM_TASK_TR_ITER cfg) dir []
       (debevec_task env data (NUM_EXPOSURES cfg) curr_idx (rng_calls s)) s).
Proof.
  unfold debevec_scene.
  eapply oor_bind; [apply oor_ndarray_batch|].
  eapply oor_bind.
  { cbn [for_collect].
    eapply oor_bind; [apply oor_debevec_set|].
    eapply oor_bind; [left; reflexivity|]. left. reflexivity. }
  pose proof (oor_adapt_and_score
                (fst (debevec_sides (row data curr_idx)
                        (split_or_empty env (NUM_EXPOSURES cfg) (rng_calls s))))
                (snd (debevec_sides (row data curr_idx)
                        (split_or_empty env (NUM_EXPOSURES cfg) (rng_calls s))))
                (set_rng_calls (rng_calls s + 1) s)) as H.
  rewrite <- !surjective_pairing in H.
  unfold adaptive_step, debevec_task, query_of.
  destruct (split_or_empty env (NUM_EXPOSURES cfg) (rng_calls s)) as [tr ts].
  exact H.
Qed.

Lemma oor_hdrcnn_scene (curr_idx : nat) (s : state) :
  ok_or_raise
    (hdrcnn_scene env meta_model loss_func cfg data dir curr_idx s)
    tt
    (adaptive_step env meta_model loss_func (NUM_TASK_TR_ITER cfg) dir
       (hdrcnn_reads env data (NUM_EXPOSURES cfg) curr_idx (rng_calls s))
       (hdrcnn_task env data (NUM_EXPOSURES cfg) curr_idx (rng_calls s)) s).
Proof.
  unfold hdrcnn_scene.
  eapply oor_bind; [apply oor_ndarray_batch|].
  eapply oor_bind.
  { cbn [for_collect].
    eapply oor_bind; [apply oor_hdrcnn_set|].
    eapply oor_bind; [left; reflexivity|]. left. reflexivity. }
  pose proof (oor_adapt_and_score
                (fst (hdrcnn_sides env (shape0 data) curr_idx (row data curr_idx)
                        (split_or_empty env (NUM_EXPOSURES cfg) (rng_calls s))))
                (snd (hdrcnn_sides env (shape0 data) curr_idx (row data curr_idx)
                        (split_or_empty env (NUM_EXPOSURES cfg) (rng_calls s))))
                (log_events (hdrcnn_reads env data (NUM_EXPOSURES cfg) curr_idx (rng_calls s))
                   (set_rng_calls (rng_calls s + 1) s))) as H.
  rewrite <- !surjective_pairing in H.
  unfold adaptive_step, hdrcnn_task, query_of.
  destruct (split_or_empty env (NUM_EXPOSURES cfg) (rng_calls s)) as [tr ts].
  exact H.
Qed.

End Adaptive.

Section AdaptiveLoop.

Variable env : Env.
Variable meta_model : meta_model_t.
Variable loss_func : string.
Variable iters : Z.
Variable dir : string.
Variable pre : nat -> nat -> list event.
Variable task : nat -> nat -> stacked * stacked.

Lemma oor_for_adaptive (body : nat -> M unit) (scenes : list nat) (s : state) :
  (forall i t, ok_or_raise (body i t) tt
                 (adaptive_step env meta_model loss_func iters dir
                    (pre i (rng_calls t)) (task i (rng_calls t)) t)) ->
  ok_or_raise (for_ scenes body s) tt
              (adaptive_run env meta_model loss_func iters dir pre task scenes s).
Proof.
  intros Hb. revert s. induction scenes as [|i scenes IH]; intros s; simpl.
  - left. reflexivity.
  - eapply oor_bind; [apply Hb | apply IH].
Qed.

Lemma oor_report_adaptive (n : nat) (w1 w2 : string) (s : state) :
  ok_or_raise (report_adaptive n w1 w2 s) tt (adaptive_report n w1 w2 s).
Proof.
  unfold report_adaptive, adaptive_report, bind, gets, py_div.
  destruct (Z.of_nat n =? 0)%Z.
  - right. eexists; eexists; reflexivity.
  - left. reflexivity.
Qed.

(** What the state holds after an adaptive loop that did not raise. *)
Lemma adaptive_run_state (scenes : list nat) (s : state) :
  let calls := adaptive_calls pre task scenes (rng_calls s) (idx s) in
  let vals := map (fun c => maml_value env meta_model loss_func iters
                                       (fst (snd c)) (snd (snd c))) calls in
  adaptive_run env meta_model loss_func iters dir pre task scenes s =
  {| eval_single_ssim := eval_single_ssim s;
     eval_single_psnr := eval_single_psnr s;
     eval_adaptive_ssim := fold_left Qplus (map fst vals) (eval_adaptive_ssim s);
     eval_adaptive_psnr := fold_left Qplus (map snd vals) (eval_adaptive_psnr s);
     idx := idx s + List.length scenes;
     rng_calls := rng_calls s + List.length scenes;
     trace := trace s ++
              flat_map (fun c => fst c ++
                                 [maml_event iters dir (fst (snd c)) (snd (snd c))])
                       calls
  |}.
Proof.
  revert s. induction scenes as [|i scenes IH]; intros s.
  - simpl. destruct s; simpl. rewrite !Nat.add_0_r, List.app_nil_r. reflexivity.
  - cbn [adaptive_run]. rewrite IH.
    destruct (log_events_fields (pre i (rng_calls s))
                (set_rng_calls (rng_calls s + 1) s))
      as (E1 & E2 & E3 & E4 & E5 & E6).
    cbn in E1, E2, E3, E4, E5, E6.
    apply state_ext; unfold adaptive_step; cbn;
      rewrite ?E1, ?E2, ?E3, ?E4, ?E5, ?E6, ?trace_log_events; cbn;
      try reflexivity; try lia.
    rewrite <- !List.app_assoc. reflexivity.
Qed.

Lemma adaptive_calls_seq (a n c k : nat) :
  adaptive_calls pre task (seq a n) c k =
  map (fun t => (pre (a + t) (c + t), (k + t, task (a + t) (c + t))))
      (seq 0 n).
Proof.
  revert a c k. induction n as [|n IH]; intros a c k.
  - reflexivity.
  - cbn [seq adaptive_calls map]. rewrite !Nat.add_0_r. f_equal.
    rewrite IH, <- seq_shift, map_map.
    apply map_ext. intros t.
    replace (S a + t) with (a + S t) by lia.
    replace (c + 1 + t) with (c + S t) by lia.
    replace (k + 1 + t) with (k + S t) by lia.
    reflexivity.
Qed.

End AdaptiveLoop.

(** * Adaptive modes *)

Section AdaptiveMode.

Variable env : Env.
Variable meta_model : meta_model_t.
Variable loss_func : string.
Variable cfg : config.
Variable data : ndarray.
Variable dir : string.

(** The state an adaptive mode ends in when nothing raises. *)
Lemma oor_adaptive_mode (kind : adaptive_kind) (s : state) :
  ok_or_raise
    (adaptive_mode env kind meta_model loss_func cfg data dir s) tt
    (adaptive_report (shape0 data)
       (adaptive_what_ssim kind) (adaptive_what_psnr kind)
       (adaptive_run env meta_model loss_func (NUM_TASK_TR_ITER cfg) dir
          (adaptive_reads env kind data (NUM_EXPOSURES cfg))
          (adaptive_task env kind data (NUM_EXPOSURES cfg))
          (Py.range (shape0 data))
          (adaptive_entry (adaptive_banner kind) s))).
Proof.
  destruct kind; cbn [adaptive_mode adaptive_what_ssim adaptive_what_psnr
                      adaptive_reads adaptive_task adaptive_banner].
  - unfold debevec_mode.
    eapply oor_bind; [left; reflexivity|].
    eapply oor_bind; [left; reflexivity|].
    eapply oor_bind; [left; reflexivity|].
    eapply oor_bind.
    + apply (oor_for_adaptive env meta_model loss_func (NUM_TASK_TR_ITER cfg)
               dir (fun _ _ => [])
               (debevec_task env data (NUM_EXPOSURES cfg))).
      intros i t. apply oor_debevec_scene.
    + apply oor_report_adaptive.
  - unfold hdrcnn_mode.
    eapply oor_bind; [left; reflexivity|].
    eapply oor_bind; [left; reflexivity|].
    eapply oor_bind; [left; reflexivity|].
    eapply oor_bind.
    + apply (oor_for_adaptive env meta_model loss_func (NUM_TASK_TR_ITER cfg)
               dir (hdrcnn_reads env data (NUM_EXPOSURES cfg))
               (hdrcnn_task env data (NUM_EXPOSURES cfg))).
      intros i t. apply oor_hdrcnn_scene.
    + apply oor_report_adaptive.
Qed.

End AdaptiveMode.

(** * Evaluation calls in a trace *)

Lemma evaluations_app (l1 l2 : list event) :
  evaluations (l1 ++ l2) = evaluations l1 ++ evaluations l2.
Proof. apply filter_app. Qed.

Lemma recorded_app env mm loss (l1 l2 : list event) :
  recorded env mm loss (l1 ++ l2) =
  recorded env mm loss l1 ++ recorded env mm loss l2.
Proof. apply flat_map_app. Qed.

Lemma evaluations_single env mm loss dir (calls : list (nat * (image * image))) :
  evaluations (map (fun c => single_event dir (fst c) (snd c)) calls) =
  map (fun c => single_event dir (fst c) (snd c)) calls /\
  recorded env mm loss (map (fun c => single_event dir (fst c) (snd c)) calls) =
  map (fun c => single_value env mm loss (fst c) (snd c)) calls.
Proof.
  induction calls as [|c calls [IH1 IH2]]; simpl.
  - split; reflexivity.
  - unfold evaluations in *. simpl. rewrite IH1.
    unfold recorded in *. rewrite IH2. split; reflexivity.
Qed.

Lemma hdrcnn_reads_quiet env mm loss data K i c :
  evaluations (hdrcnn_reads env data K i c) = [] /\
  recorded env mm loss (hdrcnn_reads env data K i c) = [].
Proof.
  unfold hdrcnn_reads. induction (fst (split_or_empty env K c)) as [|x l [IH1 IH2]].
  - split; reflexivity.
  - split; simpl; assumption.
Qed.

Lemma adaptive_reads_quiet env mm loss kind data K i c :
  evaluations (adaptive_reads env kind data K i c) = [] /\
  recorded env mm loss (adaptive_reads env kind data K i c) = [].
Proof.
  destruct kind; [split; reflexivity | apply hdrcnn_reads_quiet].
Qed.

Lemma evaluations_adaptive env mm loss kind data K iters dir
      (scenes : list nat) (c : nat) :
  let task := fun i => adaptive_task env kind data K i (c + i) in
  let evs :=
    flat_map (fun i => adaptive_reads env kind data K i (c + i) ++
                       [maml_event iters dir i (task i)]) scenes in
  evaluations evs = map (fun i => maml_event iters dir i (task i)) scenes /\
  recorded env mm loss evs =
  map (fun i => maml_value env mm loss iters i (task i)) scenes.
Proof.
  induction scenes as [|i scenes [IH1 IH2]]; cbn zeta in *.
  - split; reflexivity.
  - cbn [flat_map map].
    rewrite !evaluations_app, !recorded_app.
    destruct (adaptive_reads_quiet env mm loss kind data K i (c + i))
      as [E1 E2].
    rewrite E1, E2, IH1, IH2. split; reflexivity.
Qed.

Section AdaptiveModeOk.

Variable env : Env.
Variable meta_model : meta_model_t.
Variable loss_func : string.
Variable cfg : config.
Variable data : ndarray.
Variable dir : string.

Lemma adaptive_mode_no_scenes (kind : adaptive_kind) (s : state) :
  shape0 data = 0 ->
  fails (adaptive_mode env kind meta_model loss_func cfg data dir s).
Proof.
  intros H0. unfold fails.
  destruct kind; cbn [adaptive_mode]; unfold debevec_mode, hdrcnn_mode;
    rewrite H0; eexists; eexists; reflexivity.
Qed.

(** What a completed adaptive mode leaves: its trace, its reported
    values, the counters, and the single-shot results untouched. *)
Lemma adaptive_mode_ok (kind : adaptive_kind) (s s' : state) :
  adaptive_mode env kind meta_model loss_func cfg data dir s = (Ok tt, s') ->
  let n := shape0 data in
  let K := NUM_EXPOSURES cfg in
  let iters := NUM_TASK_TR_ITER cfg in
  let task := fun i => adaptive_task env kind data K i (rng_calls s + i) in
  let vals := map (fun i => maml_value env meta_model loss_func iters i (task i))
                  (seq 0 n) in
  n <> 0 /\
  trace s' =
    trace s ++ [EvPrint (adaptive_banner kind)] ++
    flat_map (fun i => adaptive_reads env kind data K i (rng_calls s + i) ++
                       [maml_event iters dir i (task i)]) (seq 0 n) ++
    [EvResult (adaptive_what_ssim kind) (eval_adaptive_ssim s');
     EvResult (adaptive_what_psnr kind) (eval_adaptive_psnr s')] /\
  eval_adaptive_ssim s' =
    (fold_left Qplus (map fst vals) 0 / inject_Z (Z.of_nat n))%Q /\
  eval_adaptive_psnr s' =
    (fold_left Qplus (map snd vals) 0 / inject_Z (Z.of_nat n))%Q /\
  eval_single_ssim s' = eval_single_ssim s /\
  eval_single_psnr s' = eval_single_psnr s /\
  idx s' = n /\
  rng_calls s' = rng_calls s + n.
Proof.
  intros Hrun. cbn zeta.
  assert (Hn : shape0 data <> 0).
  { intros H0. destruct (adaptive_mode_no_scenes kind s H0) as (e & s0 & Hf).
    rewrite Hf in Hrun. discriminate Hrun. }
  split; [exact Hn|].
  destruct (oor_inv _ _ _ _ _ (oor_adaptive_mode env meta_model loss_func cfg
                                 data dir kind s) Hrun) as [_ Hs'].
  rewrite adaptive_run_state in Hs'. unfold Py.range in Hs'.
  rewrite adaptive_calls_seq in Hs'. cbn [Nat.add] in Hs'.
  rewrite !map_map in Hs'. cbn [fst snd] in Hs'.
  rewrite length_seq in Hs'.
  subst s'. unfold adaptive_report, adaptive_entry.
  cbn -[Z.of_nat inject_Z Qdiv]. rewrite !map_map. cbn [fst snd].
  rewrite flat_map_concat_map, map_map, <- flat_map_concat_map.
  cbn [fst snd].
  rewrite <- !List.app_assoc. cbn [List.app].
  repeat split; reflexivity.
Qed.

End AdaptiveModeOk.

(** * The single-shot mode, completed or not *)

Section SingleShotOk.

Variable env : Env.
Variable meta_model : meta_model_t.
Variable loss_func : string.
Variable data : ndarray.
Variable dir : string.

(** Whatever the outcome, the evaluation calls of the mode are made. *)
Lemma single_shot_mode_trace (s : state) :
  exists tail,
    trace (snd (single_shot_mode env meta_model loss_func data dir s)) =
    trace s ++ [EvPrint "Performing Single-Shot Evaluation"] ++
    map (fun c => single_event dir (fst c) (snd c)) (single_calls data) ++ tail /\
    evaluations tail = [] /\ recorded env meta_model loss_func tail = [].
Proof.
  rewrite single_shot_mode_run, single_run_state. cbn [idx set_idx].
  fold (single_calls data). fold (single_divisor data).
  destruct (Z.eq_dec (single_divisor data) 0) as [H0|H0].
  - rewrite H0, report_single_zero. exists []. cbn.
    rewrite List.app_nil_r, <- List.app_assoc. repeat split; reflexivity.
  - rewrite (report_single_nonzero (single_divisor data) _ H0).
    eexists. cbn.
    rewrite <- !List.app_assoc. cbn. repeat split; reflexivity.
Qed.

Lemma single_shot_mode_ok (s s' : state) :
  single_shot_mode env meta_model loss_func data dir s = (Ok tt, s') ->
  (single_divisor data) <> 0%Z /\
  trace s' =
    trace s ++ [EvPrint "Performing Single-Shot Evaluation"] ++
    map (fun c => single_event dir (fst c) (snd c)) (single_calls data) ++
    [EvResult "Average Single-Shot Evaluation SSIM" (eval_single_ssim s');
     EvResult "Average Single-Shot Evaluation PSNR" (eval_single_psnr s')] /\
  eval_single_ssim s' =
    (fold_left Qplus
       (map fst (map (fun c => single_value env meta_model loss_func
                                            (fst c) (snd c))
                     (single_calls data))) 0
     / inject_Z (single_divisor data))%Q /\
  eval_single_psnr s' =
    (fold_left Qplus
       (map snd (map (fun c => single_value env meta_model loss_func
                                            (fst c) (snd c))
                     (single_calls data))) 0
     / inject_Z (single_divisor data))%Q /\
  eval_adaptive_ssim s' = eval_adaptive_ssim s /\
  eval_adaptive_psnr s' = eval_adaptive_psnr s /\
  rng_calls s' = rng_calls s.
Proof.
  rewrite single_shot_mode_run, single_run_state. cbn [idx set_idx].
  fold (single_calls data). fold (single_divisor data).
  intros Hrun.
  destruct (Z.eq_dec (single_divisor data) 0) as [H0|H0].
  - rewrite H0, report_single_zero in Hrun. discriminate Hrun.
  - split; [exact H0|].
    rewrite (report_single_nonzero (single_divisor data) _ H0)
      in Hrun.
    inversion Hrun; subst s'; clear Hrun. cbn -[inject_Z Qdiv].
    rewrite <- !List.app_assoc. cbn [List.app].
    repeat split; reflexivity.
Qed.

End SingleShotOk.

(** * Numbering the single-shot calls *)

Lemma numbered_app {A} (k : nat) (l1 l2 : list A) :
  numbered k (l1 ++ l2) = numbered k l1 ++ numbered (k + List.length l1) l2.
Proof.
  revert k. induction l1 as [|x l1 IH]; intros k; simpl.
  - rewrite Nat.add_0_r. reflexivity.
  - rewrite IH. do 3 f_equal. lia.
Qed.

Lemma numbered_map_seq {A} (g : nat -> A) (k a m : nat) :
  numbered k (map g (seq a m)) = map (fun j => (k + (j - a), g j)) (seq a m).
Proof.
  revert k a. induction m as [|m IH]; intros k a; simpl.
  - reflexivity.
  - rewrite Nat.sub_diag, Nat.add_0_r. f_equal.
    rewrite IH. apply map_ext_in. intros j Hj. apply in_seq in Hj.
    f_equal. lia.
Qed.

Lemma flat_map_ext_in {A B} (f g : A -> list B) (l : list A) :
  (forall x, In x l -> f x = g x) -> flat_map f l = flat_map g l.
Proof.
  intros H. induction l as [|x l IH]; simpl.
  - reflexivity.
  - rewrite (H x (or_introl eq_refl)), IH; [reflexivity|].
    intros y Hy. apply H. right. exact Hy.
Qed.

(** The [k]-th call of the nested loop is on exposure [j] of scene [i]
    with [k = i * K + (j - 1)], [K] the number of exposures after the
    reference. *)
Lemma single_calls_by_scene (data : ndarray) (dir : string) :
  let K := shape1 data - 1 in
  map (fun c => single_event dir (fst c) (snd c))
      (numbered 0 (single_pairs data)) =
  flat_map (fun i =>
              map (fun j => EvEvaluateSingle (at_ data i j) (at_ data i 0)
                                             (i * K + (j - 1)) dir)
                  (seq 1 K))
           (seq 0 (shape0 data)).
Proof.
  cbn zeta. unfold single_pairs, Py.range, Py.range_from.
  set (K := shape1 data - 1).
  assert (G : forall n a k,
             map (fun c => single_event dir (fst c) (snd c))
                 (numbered k
                    (flat_map (fun i => map (fun j => (at_ data i j, at_ data i 0))
                                            (seq 1 K)) (seq a n))) =
             flat_map (fun i =>
                         map (fun j => EvEvaluateSingle (at_ data i j) (at_ data i 0)
                                         (k + (i - a) * K + (j - 1)) dir)
                             (seq 1 K))
                      (seq a n)).
  { induction n as [|n IH]; intros a k.
    - reflexivity.
    - cbn [seq flat_map]. rewrite numbered_app, map_app.
      rewrite length_map, length_seq. rewrite IH.
      f_equal.
      + rewrite numbered_map_seq, map_map. apply map_ext_in.
        intros j Hj. unfold single_event. cbn [fst snd].
        f_equal. rewrite Nat.sub_diag. lia.
      + apply flat_map_ext_in. intros i Hi. apply in_seq in Hi.
        apply map_ext. intros j. f_equal.
        replace (i - a) with (S (i - S a)) by lia. lia. }
  rewrite G. apply flat_map_ext_in. intros i _. apply map_ext. intros j.
  f_equal. lia.
Qed.

(** * Adaptive modes complete on well-formed input *)

Lemma ok_not_raised {A} (r : outcome A * state) (v : A) (s' : state) :
  ok_or_raise r v s' -> (exists v0 s0, r = (Ok v0, s0)) -> r = (Ok v, s').
Proof.
  intros [H|(e & s0 & H)] (v1 & s1 & H1); [exact H|].
  rewrite H in H1. discriminate H1.
Qed.

Lemma for_collect_ok {A B} (l : list A) (f : A -> M B) (s : state) :
  (forall x t, In x l -> exists v t', f x t = (Ok v, t')) ->
  exists vs s', for_collect l f s = (Ok vs, s') /\
                List.length vs = List.length l.
Proof.
  revert s. induction l as [|x l IH]; intros s Hf; simpl.
  - exists [], s. split; reflexivity.
  - destruct (Hf x s (or_introl eq_refl)) as (v & t' & Hx).
    destruct (IH t') as (vs & s' & Hl & Hlen).
    { intros y t Hy. apply Hf. right. exact Hy. }
    exists (v :: vs), s'. split.
    + rewrite (bind_ok _ _ _ _ _ Hx), (bind_ok _ _ _ _ _ Hl). reflexivity.
    + simpl. rewrite Hlen. reflexivity.
Qed.

Lemma for_ok {A} (l : list A) (f : A -> M unit) (s : state) :
  (forall x t, In x l -> exists t', f x t = (Ok tt, t')) ->
  exists s', for_ l f s = (Ok tt, s').
Proof.
  revert s. induction l as [|x l IH]; intros s Hf; simpl.
  - exists s. reflexivity.
  - destruct (Hf x s (or_introl eq_refl)) as (t' & Hx).
    destruct (IH t') as (s' & Hl).
    { intros y t Hy. apply Hf. right. exact Hy. }
    exists s'. rewrite (bind_ok _ _ _ _ _ Hx). exact Hl.
Qed.

Lemma np_stack_ok {A} (l : list A) (s : state) :
  l <> [] -> np_stack l s = (Ok l, s).
Proof. destruct l; [contradiction | reflexivity]. Qed.

Lemma image_set_getitem_ok (x : image_set_t) (i : nat) (s : state) :
  i < n_images x -> image_set_getitem x i s = (Ok (image_at x i), s).
Proof.
  intros Hi. unfold image_set_getitem.
  destruct (Nat.ltb_spec i (n_images x)); [reflexivity | lia].
Qed.

Lemma nonempty_map {A B} (f : A -> B) (l : list A) : l <> [] -> map f l <> [].
Proof. destruct l; [contradiction | discriminate]. Qed.

Lemma nonempty_length {A} (l : list A) : List.length l <> 0 -> l <> [].
Proof. destruct l; [contradiction | discriminate]. Qed.

Lemma collect_test_ok (x : image_set_t) (ts : list nat) (s : state) :
  ts <> [] -> (forall e, In e ts -> e < n_images x) -> 0 < n_images x ->
  exists v s', collect_test x ts s = (Ok v, s').
Proof.
  intros Hne Hin H0. unfold collect_test.
  destruct (for_collect_ok ts
              (fun i => x0 <- image_set_getitem x i ;;
                        y <- image_set_getitem x 0 ;; ret (x0, y)) s)
    as (pairs & s' & Hp & Hlen).
  { intros e t He. eexists. eexists.
    rewrite (bind_ok _ _ _ _ _ (image_set_getitem_ok x e t (Hin e He))).
    rewrite (bind_ok _ _ _ _ _ (image_set_getitem_ok x 0 t H0)).
    reflexivity. }
  assert (Hpn : pairs <> []).
  { apply nonempty_length. rewrite Hlen. destruct ts; [contradiction|discriminate]. }
  eexists. eexists.
  rewrite (bind_ok _ _ _ _ _ Hp).
  rewrite (bind_ok _ _ _ _ _ (np_stack_ok _ _ (nonempty_map fst pairs Hpn))).
  rewrite (bind_ok _ _ _ _ _ (np_stack_ok _ _ (nonempty_map snd pairs Hpn))).
  reflexivity.
Qed.

Section Completes.

Variable env : Env.
Variable meta_model : meta_model_t.
Variable loss_func : string.
Variable cfg : config.
Variable data : ndarray.
Variable dir : string.
Variable K : nat.

Hypothesis wf : well_formed env cfg data K.

Lemma train_test_split_ok (s : state) :
  exists tr ts,
    train_test_split env (Py.np_arange 1 (NUM_EXPOSURES cfg + 1)) s =
    (Ok (tr, ts), set_rng_calls (rng_calls s + 1) s) /\
    tr <> [] /\ ts <> [] /\
    (forall e, In e tr \/ In e ts -> 1 <= e <= K).
Proof.
  destruct wf as (HK & H2 & _ & _ & Hrng).
  destruct (split_at_ok env K (rng_calls s) H2 (Hrng _)) as (q & rest & Hp & Hs).
  pose proof (Hrng (rng_calls s)) as HP. rewrite Hp in HP.
  destruct (split_sides K q rest HP) as (P1 & _ & HL).
  exists (map S rest), [S q]. split; [|split; [|split]].
  - unfold train_test_split, bind, gets, lift.
    unfold split_at in Hs. rewrite HK.
    rewrite np_arange_exposures, Nat2Z.id, length_seq in *.
    rewrite Hs. reflexivity.
  - destruct rest; [simpl in HL; lia | discriminate].
  - discriminate.
  - intros e He. apply in_or_app in He.
    apply (Permutation_in e P1) in He. apply in_seq in He. lia.
Qed.

Lemma adaptive_scene_ok (kind : adaptive_kind) (i : nat) (s : state) :
  labels_needed env kind data K -> i < shape0 data ->
  exists s',
    match kind with
    | Debevec => debevec_scene env meta_model loss_func cfg data dir i s
    | Hdrcnn => hdrcnn_scene env meta_model loss_func cfg data dir i s
    end = (Ok tt, s').
Proof.
  intros Hlab Hi.
  destruct wf as (HK & H2 & Hm & Hn & Hrng).
  assert (Hb : ndarray_batch data i s = (Ok [row data i], s)).
  { unfold ndarray_batch. destruct (Nat.ltb_spec i (shape0 data)); [reflexivity|lia]. }
  destruct (train_test_split_ok s) as (tr & ts & Hsp & Htr & Hts & Hrange).
  assert (Hbound : forall e, In e tr \/ In e ts -> e < n_images (row data i)).
  { intros e He. apply Hrange in He. cbn [n_images row]. lia. }
  assert (H0 : 0 < n_images (row data i)) by (cbn [n_images row]; lia).
  assert (Hset :
            exists v s1,
              match kind with
              | Debevec => debevec_set env cfg (row data i) s
              | Hdrcnn => hdrcnn_set env cfg (shape0 data) i (row data i) s
              end = (Ok v, s1)).
  { destruct kind; unfold debevec_set, hdrcnn_set;
      rewrite (bind_ok _ _ _ _ _ Hsp).
    - destruct (for_collect_ok tr
                  (fun e => x <- image_set_getitem (row data i) e ;;
                            y <- image_set_getitem (row data i) 0 ;; ret (x, y))
                  (set_rng_calls (rng_calls s + 1) s))
        as (pairs & s1 & Hp & Hlen).
      { intros e t He. eexists. eexists.
        rewrite (bind_ok _ _ _ _ _
                   (image_set_getitem_ok _ e t (Hbound e (or_introl He)))).
        rewrite (bind_ok _ _ _ _ _ (image_set_getitem_ok _ 0 t H0)).
        reflexivity. }
      assert (Hpn : pairs <> []).
      { apply nonempty_length. rewrite Hlen.
        destruct tr; [contradiction|discriminate]. }
      destruct (collect_test_ok (row data i) ts s1 Hts
                  (fun e He => Hbound e (or_intror He)) H0) as (v & s2 & Hc).
      eexists. eexists.
      rewrite (bind_ok _ _ _ _ _ Hp).
      rewrite (bind_ok _ _ _ _ _ (np_stack_ok _ _ (nonempty_map fst pairs Hpn))).
      rewrite (bind_ok _ _ _ _ _ (np_stack_ok _ _ (nonempty_map snd pairs Hpn))).
      rewrite (bind_ok _ _ _ _ _ Hc). reflexivity.
    - destruct (for_collect_ok tr
                  (fun e => x <- image_set_getitem (row data i) e ;;
                            cur_label <- imread_label env
                              (load_dir env ++ "/" ++
                               label_file_name
                                 (hdrcnn_image_idx i e (shape0 data)))%string ;;
                            ret (x, cur_label))
                  (set_rng_calls (rng_calls s + 1) s))
        as (pairs & s1 & Hp & Hlen).
      { intros e t He.
        pose proof (Hlab i e Hi (Hrange e (or_introl He))) as Hfile.
        destruct (io_imread env (label_path env (shape0 data) i e))
          as [raw|] eqn:E; [|contradiction Hfile; reflexivity].
        unfold label_path in E.
        eexists. eexists.
        rewrite (bind_ok _ _ _ _ _
                   (image_set_getitem_ok _ e t (Hbound e (or_introl He)))).
        unfold imread_label, bind, emit, modify.
        rewrite E. reflexivity. }
      assert (Hpn : pairs <> []).
      { apply nonempty_length. rewrite Hlen.
        destruct tr; [contradiction|discriminate]. }
      destruct (collect_test_ok (row data i) ts s1 Hts
                  (fun e He => Hbound e (or_intror He)) H0) as (v & s2 & Hc).
      eexists. eexists.
      rewrite (bind_ok _ _ _ _ _ Hp).
      rewrite (bind_ok _ _ _ _ _ (np_stack_ok _ _ (nonempty_map fst pairs Hpn))).
      rewrite (bind_ok _ _ _ _ _ (np_stack_ok _ _ (nonempty_map snd pairs Hpn))).
      rewrite (bind_ok _ _ _ _ _ Hc). reflexivity. }
  destruct Hset as ([tr' te'] & s1 & Hset).
  destruct (oor_adapt_and_score env meta_model loss_func cfg dir tr' te' s1)
    as [Has|(e & s2 & Has)].
  - destruct kind;
      (unfold debevec_scene, hdrcnn_scene;
       rewrite (bind_ok _ _ _ _ _ Hb); cbn [for_collect];
       eexists;
       erewrite bind_ok;
       [exact Has
       | rewrite (bind_ok _ _ _ _ _ Hset); reflexivity]).
  - exfalso. revert Has.
    unfold adapt_and_score, bind, np_stack, ret, gets, emit, modify. cbn.
    destruct (evaluate_maml env meta_model loss_func _ _ _ _).
    discriminate.
Qed.

(** On well-formed input, with the label files present for the HDRCNN
    mode, an adaptive mode completes. *)
Lemma adaptive_mode_completes (kind : adaptive_kind) (s : state) :
  labels_needed env kind data K ->
  exists s', adaptive_mode env kind meta_model loss_func cfg data dir s
             = (Ok tt, s').
Proof.
  intros Hlab.
  apply ex_intro with
    (x := adaptive_report (shape0 data)
            (adaptive_what_ssim kind) (adaptive_what_psnr kind)
            (adaptive_run env meta_model loss_func (NUM_TASK_TR_ITER cfg) dir
               (adaptive_reads env kind data (NUM_EXPOSURES cfg))
               (adaptive_task env kind data (NUM_EXPOSURES cfg))
               (Py.range (shape0 data))
               (adaptive_entry (adaptive_banner kind) s))).
  apply ok_not_raised; [apply oor_adaptive_mode|].
  destruct wf as (_ & _ & _ & Hn & _).
  destruct (for_ok (Py.range (shape0 data))
              (match kind with
               | Debevec => debevec_scene env meta_model loss_func cfg data dir
               | Hdrcnn => hdrcnn_scene env meta_model loss_func cfg data dir
               end)
              (adaptive_entry (adaptive_banner kind) s)) as (s1 & Hloop).
  { intros i t Hi. unfold Py.range in Hi. apply in_seq in Hi.
    destruct (adaptive_scene_ok kind i t Hlab) as (t' & Ht); [lia|].
    exists t'. destruct kind; exact Ht. }
  assert (Hrep : exists s2,
             report_adaptive (shape0 data) (adaptive_what_ssim kind)
                             (adaptive_what_psnr kind) s1 = (Ok tt, s2)).
  { unfold report_adaptive, bind, gets, py_div.
    destruct (Z.eqb_spec (Z.of_nat (shape0 data)) 0) as [E|_]; [lia|].
    eexists. reflexivity. }
  destruct Hrep as (s2 & Hrep).
  exists tt, s2.
  destruct kind; cbn [adaptive_mode adaptive_banner adaptive_what_ssim
                      adaptive_what_psnr] in *;
    unfold debevec_mode, hdrcnn_mode;
    unfold bind at 1; cbn [emit modify];
    unfold bind at 1; cbn [modify];
    unfold bind at 1; cbn [modify];
    unfold adaptive_entry in Hloop;
    rewrite (bind_ok _ _ _ _ _ Hloop); exact Hrep.
Qed.

End Completes.

(** * Claims *)

(** C3.  Single-shot mode calls the evaluation routine without
    adaptation ([evaluate_single_maml]) exactly K times per scene:
    scenes in index order, within a scene the exposures 1..K in
    ascending order, each call on that single exposure with exposure 0
    of the same scene as label, and no other evaluation call.  A
    completed adaptive mode (Debevec or HDRCNN) calls [evaluate_maml]
    exactly once per scene, in scene order, on the task built from that
    scene.  K is [EVAL.NUM_EXPOSURES]; a scene holds K + 1 images. *)
Theorem tasks_per_scene :
  forall (env : Env) (mm : meta_model_t) (loss : string) (cfg : config)
         (data : ndarray) (dir : string) (K : nat),
    NUM_EXPOSURES cfg = Z.of_nat K ->
    shape1 data = K + 1 ->
    (forall s, exists evs,
        trace (snd (single_shot_mode env mm loss data dir s)) = trace s ++ evs /\
        evaluations evs =
        flat_map (fun i =>
                    map (fun j => EvEvaluateSingle (at_ data i j) (at_ data i 0)
                                                   (i * K + (j - 1)) dir)
                        (seq 1 K))
                 (seq 0 (shape0 data)) /\
        List.length (evaluations evs) = shape0 data * K) /\
    (forall kind s s',
        adaptive_mode env kind mm loss cfg data dir s = (Ok tt, s') ->
        exists evs,
          trace s' = trace s ++ evs /\
          evaluations evs =
          map (fun i =>
                 let task := adaptive_task env kind data (Z.of_nat K) i
                                           (rng_calls s + i) in
                 EvEvaluateMaml (fst task) (snd task) i
                                (NUM_TASK_TR_ITER cfg) dir)
              (seq 0 (shape0 data)) /\
          List.length (evaluations evs) = shape0 data) /\
    (forall kind s,
        2 <= K -> shape0 data <> 0 ->
        (forall c, Permutation (rng_permutation env c K) (seq 0 K)) ->
        labels_needed env kind data K ->
        exists s', adaptive_mode env kind mm loss cfg data dir s = (Ok tt, s')).
Proof.
  intros env mm loss cfg data dir K HK Hshape. split; [|split].
  - intros s.
    destruct (single_shot_mode_trace env mm loss data dir s)
      as (tail & Ht & Hq & _).
    unfold single_calls in Ht.
    eexists. split; [exact Ht|].
    assert (E : evaluations
                  ([EvPrint "Performing Single-Shot Evaluation"] ++
                   map (fun c => single_event dir (fst c) (snd c))
                       (numbered 0 (single_pairs data)) ++ tail) =
                flat_map (fun i =>
                    map (fun j => EvEvaluateSingle (at_ data i j) (at_ data i 0)
                                                   (i * K + (j - 1)) dir)
                        (seq 1 K))
                 (seq 0 (shape0 data))).
    { rewrite !evaluations_app, Hq, List.app_nil_r.
      destruct (evaluations_single env mm loss dir
                  (numbered 0 (single_pairs data))) as [E _].
      rewrite E. cbn [evaluations filter is_evaluation List.app].
      rewrite single_calls_by_scene.
      replace (shape1 data - 1) with K by lia. reflexivity. }
    split; [exact E|].
    rewrite E. rewrite (length_flat_map_const _ K).
    + rewrite length_seq. reflexivity.
    + intros i. rewrite length_map, length_seq. reflexivity.
  - intros kind s s' Hrun.
    destruct (adaptive_mode_ok env mm loss cfg data dir kind s s' Hrun)
      as (_ & Ht & _).
    eexists. split; [exact Ht|].
    rewrite !evaluations_app.
    destruct (evaluations_adaptive env mm loss kind data (NUM_EXPOSURES cfg)
                (NUM_TASK_TR_ITER cfg) dir (seq 0 (shape0 data)) (rng_calls s))
      as [E _].
    cbn zeta in E. rewrite E. cbn [evaluations filter is_evaluation List.app].
    rewrite List.app_nil_r, HK. split; [reflexivity|].
    rewrite length_map, length_seq. reflexivity.
  - intros kind s H2 Hn Hrng Hlab.
    apply (adaptive_mode_completes env mm loss cfg data dir K); [|exact Hlab].
    repeat split; assumption.
Qed.

Lemma tasks_per_scene_witness :
  (NUM_EXPOSURES (Demo.cfg 3 "SSIMLoss") = Z.of_nat 3 /\
   shape1 (Demo.data 2 4) = 3 + 1 /\
   fst (adaptive_mode (Demo.env 3 "SSIMLoss" 2 (seq 1 6)) Hdrcnn Demo.model
          "SSIMLoss" (Demo.cfg 3 "SSIMLoss") (Demo.data 2 4) "out" init_state)
   = Ok tt) /\
  List.length
    (evaluations
       (trace (snd (single_shot_mode (Demo.env 3 "SSIMLoss" 2 (seq 1 6))
                      Demo.model "SSIMLoss" (Demo.data 2 4) "out" init_state))))
  = 2 * 3 /\
  List.length
    (evaluations
       (trace (snd (adaptive_mode (Demo.env 3 "SSIMLoss" 2 (seq 1 6)) Hdrcnn
                      Demo.model "SSIMLoss" (Demo.cfg 3 "SSIMLoss")
                      (Demo.data 2 4) "out" init_state))))
  = 2.
Proof.
  destruct (tasks_per_scene (Demo.env 3 "SSIMLoss" 2 (seq 1 6)) Demo.model
              "SSIMLoss" (Demo.cfg 3 "SSIMLoss") (Demo.data 2 4) "out" 3
              eq_refl eq_refl) as (Hs & Ha & _).
  split; [repeat split; vm_compute; reflexivity|].
  split.
  - destruct (Hs init_state) as (evs & Ht & _ & Hl).
    rewrite Ht. exact Hl.
  - destruct (Ha Hdrcnn init_state
                 (snd (adaptive_mode (Demo.env 3 "SSIMLoss" 2 (seq 1 6)) Hdrcnn
                         Demo.model "SSIMLoss" (Demo.cfg 3 "SSIMLoss")
                         (Demo.data 2 4) "out" init_state)))
      as (evs & Ht & _ & Hl).
    + vm_compute. reflexivity.
    + rewrite Ht. exact Hl.
Defined.

Lemma fold_left_Qplus_Qsum (l : list Q) (a : Q) :
  (fold_left Qplus l a == a + Qsum l)%Q.
Proof.
  revert a. induction l as [|x l IH]; intros a; simpl.
  - rewrite Qplus_0_r. reflexivity.
  - rewrite IH. unfold Qsum. simpl. rewrite Qplus_assoc. reflexivity.
Qed.

Lemma accumulated_mean (l : list Q) (d : Z) :
  d = Z.of_nat (List.length l) ->
  (fold_left Qplus l 0 / inject_Z d == arithmetic_mean l)%Q.
Proof.
  intros ->. unfold arithmetic_mean.
  rewrite fold_left_Qplus_Qsum, Qplus_0_l. reflexivity.
Qed.

(** C4.  When a mode completes, the SSIM and PSNR it reports (prints,
    and leaves in its accumulators) are the arithmetic means of the
    values the evaluation routine returned for the calls of that mode:
    the single-shot sums are divided by (number of scenes * K), which
    is the number of values recorded, and each adaptive sum by the
    number of scenes, likewise the number of values recorded. *)
Theorem reported_means :
  forall (env : Env) (mm : meta_model_t) (loss : string) (cfg : config)
         (data : ndarray) (dir : string) (K : nat),
    shape1 data = K + 1 ->
    (forall s s',
        single_shot_mode env mm loss data dir s = (Ok tt, s') ->
        exists evs,
          trace s' = trace s ++ evs /\
          In (EvResult "Average Single-Shot Evaluation SSIM"
                       (eval_single_ssim s')) evs /\
          In (EvResult "Average Single-Shot Evaluation PSNR"
                       (eval_single_psnr s')) evs /\
          List.length (recorded env mm loss evs) = shape0 data * K /\
          eval_single_ssim s' =
            (fold_left Qplus (map fst (recorded env mm loss evs)) 0
             / inject_Z (Z.of_nat (shape0 data * K)))%Q /\
          eval_single_psnr s' =
            (fold_left Qplus (map snd (recorded env mm loss evs)) 0
             / inject_Z (Z.of_nat (shape0 data * K)))%Q /\
          (eval_single_ssim s' ==
             arithmetic_mean (map fst (recorded env mm loss evs)))%Q /\
          (eval_single_psnr s' ==
             arithmetic_mean (map snd (recorded env mm loss evs)))%Q) /\
    (forall kind s s',
        adaptive_mode env kind mm loss cfg data dir s = (Ok tt, s') ->
        exists evs,
          trace s' = trace s ++ evs /\
          In (EvResult (adaptive_what_ssim kind) (eval_adaptive_ssim s')) evs /\
          In (EvResult (adaptive_what_psnr kind) (eval_adaptive_psnr s')) evs /\
          List.length (recorded env mm loss evs) = shape0 data /\
          eval_adaptive_ssim s' =
            (fold_left Qplus (map fst (recorded env mm loss evs)) 0
             / inject_Z (Z.of_nat (shape0 data)))%Q /\
          eval_adaptive_psnr s' =
            (fold_left Qplus (map snd (recorded env mm loss evs)) 0
             / inject_Z (Z.of_nat (shape0 data)))%Q /\
          (eval_adaptive_ssim s' ==
             arithmetic_mean (map fst (recorded env mm loss evs)))%Q /\
          (eval_adaptive_psnr s' ==
             arithmetic_mean (map snd (recorded env mm loss evs)))%Q) /\
    (forall s,
        shape0 data <> 0 -> K <> 0 ->
        exists s', single_shot_mode env mm loss data dir s = (Ok tt, s')) /\
    (forall kind s,
        NUM_EXPOSURES cfg = Z.of_nat K -> 2 <= K -> shape0 data <> 0 ->
        (forall c, Permutation (rng_permutation env c K) (seq 0 K)) ->
        labels_needed env kind data K ->
        exists s', adaptive_mode env kind mm loss cfg data dir s = (Ok tt, s')).
Proof.
  intros env mm loss cfg data dir K Hshape. split; [|split; [|split]].
  - intros s s' Hrun.
    destruct (single_shot_mode_ok env mm loss data dir s s' Hrun)
      as (_ & Ht & Ha & Hb & _).
    unfold single_calls, single_divisor in Ht, Ha, Hb.
    eexists. split; [exact Ht|].
    destruct (evaluations_single env mm loss dir
                (numbered 0 (single_pairs data))) as [_ E].
    assert (R : recorded env mm loss
                  ([EvPrint "Performing Single-Shot Evaluation"] ++
                   map (fun c => single_event dir (fst c) (snd c))
                       (numbered 0 (single_pairs data)) ++
                   [EvResult "Average Single-Shot Evaluation SSIM"
                             (eval_single_ssim s');
                    EvResult "Average Single-Shot Evaluation PSNR"
                             (eval_single_psnr s')]) =
                map (fun c => single_value env mm loss (fst c) (snd c))
                    (numbered 0 (single_pairs data))).
    { rewrite !recorded_app, E. cbn [recorded flat_map List.app].
      apply List.app_nil_r. }
    rewrite R.
    assert (L : List.length
                  (map (fun c => single_value env mm loss (fst c) (snd c))
                       (numbered 0 (single_pairs data))) = shape0 data * K).
    { rewrite length_map, length_numbered, length_single_pairs.
      f_equal. lia. }
    assert (D : (Z.of_nat (shape0 data) * (Z.of_nat (shape1 data) - 1))%Z =
                Z.of_nat (shape0 data * K)).
    { rewrite Hshape. lia. }
    rewrite D in Ha, Hb.
    split; [apply in_or_app; right; apply in_or_app; right; left; reflexivity|].
    split; [apply in_or_app; right; apply in_or_app; right; right; left;
            reflexivity|].
    split; [exact L|].
    split; [exact Ha|]. split; [exact Hb|].
    split.
    + rewrite Ha. apply accumulated_mean. rewrite length_map, L. reflexivity.
    + rewrite Hb. apply accumulated_mean. rewrite length_map, L. reflexivity.
  - intros kind s s' Hrun.
    destruct (adaptive_mode_ok env mm loss cfg data dir kind s s' Hrun)
      as (_ & Ht & Ha & Hb & _).
    eexists. split; [exact Ht|].
    destruct (evaluations_adaptive env mm loss kind data (NUM_EXPOSURES cfg)
                (NUM_TASK_TR_ITER cfg) dir (seq 0 (shape0 data)) (rng_calls s))
      as [_ E].
    cbn zeta in E.
    split; [apply in_or_app; right; apply in_or_app; right; left; reflexivity|].
    split; [apply in_or_app; right; apply in_or_app; right; right; left;
            reflexivity|].
    rewrite !recorded_app, E. cbn [recorded flat_map List.app].
    rewrite List.app_nil_r.
    split; [rewrite length_map, length_seq; reflexivity|].
    split; [exact Ha|]. split; [exact Hb|].
    split.
    + rewrite Ha. apply accumulated_mean.
      rewrite !length_map, length_seq. reflexivity.
    + rewrite Hb. apply accumulated_mean.
      rewrite !length_map, length_seq. reflexivity.
  - intros s Hn HK0. rewrite single_shot_mode_run.
    rewrite report_single_nonzero; [eexists; reflexivity|].
    rewrite Hshape. intros E. apply Z.mul_eq_0 in E. lia.
  - intros kind s HK H2 Hn Hrng Hlab.
    apply (adaptive_mode_completes env mm loss cfg data dir K); [|exact Hlab].
    repeat split; assumption.
Qed.

Lemma reported_means_witness :
  (shape1 (Demo.data 2 4) = 3 + 1 /\
   fst (single_shot_mode (Demo.env 3 "SSIMLoss" 2 (seq 1 6))
          Demo.model "SSIMLoss" (Demo.data 2 4) "out" init_state) = Ok tt /\
   fst (adaptive_mode (Demo.env 3 "SSIMLoss" 2 (seq 1 6)) Debevec Demo.model
          "SSIMLoss" (Demo.cfg 3 "SSIMLoss") (Demo.data 2 4) "out" init_state)
   = Ok tt) /\
  (eval_single_ssim
     (snd (single_shot_mode (Demo.env 3 "SSIMLoss" 2 (seq 1 6))
             Demo.model "SSIMLoss" (Demo.data 2 4) "out" init_state))
   == arithmetic_mean [0; 1; 2; 3; 4; 5])%Q /\
  (eval_adaptive_ssim
     (snd (adaptive_mode (Demo.env 3 "SSIMLoss" 2 (seq 1 6)) Debevec Demo.model
             "SSIMLoss" (Demo.cfg 3 "SSIMLoss") (Demo.data 2 4) "out"
             init_state))
   == arithmetic_mean [1; 2])%Q.
Proof.
  destruct (reported_means (Demo.env 3 "SSIMLoss" 2 (seq 1 6)) Demo.model
              "SSIMLoss" (Demo.cfg 3 "SSIMLoss") (Demo.data 2 4) "out" 3
              eq_refl) as (Hs & Ha & _).
  split; [repeat split; vm_compute; reflexivity|].
  split.
  - destruct (Hs init_state
                 (snd (single_shot_mode (Demo.env 3 "SSIMLoss" 2 (seq 1 6))
                         Demo.model "SSIMLoss" (Demo.data 2 4) "out"
                         init_state)))
      as (evs & Ht & _ & _ & _ & _ & _ & Hm & _).
    + vm_compute. reflexivity.
    + rewrite Hm. cbn [trace init_state List.app] in Ht. rewrite <- Ht.
      vm_compute. reflexivity.
  - destruct (Ha Debevec init_state
                 (snd (adaptive_mode (Demo.env 3 "SSIMLoss" 2 (seq 1 6)) Debevec
                         Demo.model "SSIMLoss" (Demo.cfg 3 "SSIMLoss")
                         (Demo.data 2 4) "out" init_state)))
      as (evs & Ht & _ & _ & _ & _ & _ & Hm & _).
    + vm_compute. reflexivity.
    + rewrite Hm. cbn [trace init_state List.app] in Ht. rewrite <- Ht.
      vm_compute. reflexivity.
Defined.

(** * The label file of a support exposure *)

Lemma length_append (a b : string) :
  String.length (a ++ b)%string = String.length a + String.length b.
Proof. induction a; simpl; congruence. Qed.

Lemma length_zeros (k : nat) : String.length (Py.zeros k) = k.
Proof. induction k; simpl; congruence. Qed.

Lemma length_string_of_uint (d : Decimal.uint) :
  String.length (DecimalString.NilEmpty.string_of_uint d) =
  DecimalNat.Unsigned.usize d.
Proof. induction d; simpl; congruence. Qed.

Lemma int_of_zeros (k : nat) (s : string) :
  Py.int_of_str (Py.zeros k ++ s)%string = Py.int_of_str s.
Proof.
  induction k as [|k IH]; simpl.
  - reflexivity.
  - unfold Py.int_of_str in *. simpl.
    destruct (DecimalString.NilEmpty.uint_of_string (Py.zeros k ++ s)) as [d|];
      destruct (DecimalString.NilEmpty.uint_of_string s) as [d'|];
      simpl in *; try congruence; try discriminate.
    rewrite <- IH. unfold Nat.of_uint. simpl. reflexivity.
Qed.

Lemma int_of_str_of_nat (n : nat) : Py.int_of_str (Py.str_of_nat n) = Some n.
Proof.
  unfold Py.int_of_str, Py.str_of_nat.
  rewrite DecimalString.NilEmpty.usu. simpl.
  rewrite DecimalNat.Unsigned.of_to. reflexivity.
Qed.

(** A normalized numeral of [m + 1] digits denotes at least [10 ^ m],
    unless it is zero. *)
Lemma of_uint_lower (d : Decimal.uint) :
  Decimal.unorm d = d -> Nat.of_uint d <> 0 ->
  10 ^ (DecimalNat.Unsigned.usize d - 1) <= Nat.of_uint d.
Proof.
  intros Hn Hz.
  destruct d as [|d|d|d|d|d|d|d|d|d|d];
    try (unfold Nat.of_uint; simpl Nat.of_uint_acc;
         rewrite DecimalNat.Unsigned.of_uint_acc_spec, Nat.tail_mul_spec;
         simpl DecimalNat.Unsigned.usize;
         replace (S (DecimalNat.Unsigned.usize d) - 1)
           with (DecimalNat.Unsigned.usize d) by lia;
         set (p := 10 ^ DecimalNat.Unsigned.usize d); lia).
  - discriminate Hn.
  - exfalso. rewrite DecimalFacts.unorm_D0 in Hn.
    unfold Decimal.unorm in Hn.
    destruct (Decimal.nzhead d) eqn:Hd; try discriminate Hn;
      try (exfalso; apply (DecimalFacts.nzhead_nonzero d d); congruence).
    inversion Hn; subst d. apply Hz. reflexivity.
Qed.

Lemma digits_below (n m : nat) :
  n < 10 ^ m -> 0 < m -> String.length (Py.str_of_nat n) <= m.
Proof.
  intros Hn Hm. unfold Py.str_of_nat. rewrite length_string_of_uint.
  destruct (Nat.eq_dec n 0) as [->|Hz].
  - simpl. lia.
  - pose proof (of_uint_lower (Nat.to_uint n)) as H.
    rewrite DecimalNat.Unsigned.of_to in H.
    assert (Hnorm : Decimal.unorm (Nat.to_uint n) = Nat.to_uint n).
    { pose proof (DecimalNat.Unsigned.to_of (Nat.to_uint n)) as T.
      rewrite DecimalNat.Unsigned.of_to in T. symmetry. exact T. }
    specialize (H Hnorm Hz).
    assert (Hlt : 10 ^ (DecimalNat.Unsigned.usize (Nat.to_uint n) - 1) < 10 ^ m)
      by lia.
    apply Nat.pow_lt_mono_r_iff in Hlt; lia.
Qed.

Lemma imreads_app (l1 l2 : list event) :
  imreads (l1 ++ l2) = imreads l1 ++ imreads l2.
Proof. apply flat_map_app. Qed.

Lemma imreads_hdrcnn_scenes env data K iters dir (scenes : list nat) (c : nat) :
  imreads
    (flat_map (fun i => adaptive_reads env Hdrcnn data K i (c + i) ++
                        [maml_event iters dir i
                           (adaptive_task env Hdrcnn data K i (c + i))])
              scenes) =
  flat_map (fun i => map (label_path env (shape0 data) i)
                         (fst (split_or_empty env K (c + i))))
           scenes.
Proof.
  induction scenes as [|i scenes IH].
  - reflexivity.
  - cbn [flat_map]. rewrite !imreads_app, IH. f_equal.
    cbn [adaptive_reads imreads flat_map maml_event]. rewrite List.app_nil_r.
    unfold hdrcnn_reads.
    induction (fst (split_or_empty env K (c + i))) as [|e l IHl].
    + reflexivity.
    + simpl. f_equal. exact IHl.
Qed.

(** C1.  In the HDRCNN-adapted loop the label of support exposure [i]
    of scene [s] (0-based) is read from the file whose index is
    [s + 1] plus one data-set length for [i = 1], [s + 1] for [i = 2],
    [s + 1] plus two data-set lengths for [i = 3] (the data-set length
    being the number of scenes), and whose name is that index in
    decimal, left-filled with zeros to six digits, followed by
    [_out.png]; a completed HDRCNN run reads exactly these files, scene
    by scene, for the support exposures drawn. *)
Theorem hdrcnn_label_file :
  forall (env : Env) (mm : meta_model_t) (loss : string) (cfg : config)
         (data : ndarray) (dir : string) (s : nat),
    hdrcnn_image_idx s 1 (shape0 data) = s + 1 + shape0 data /\
    hdrcnn_image_idx s 2 (shape0 data) = s + 1 /\
    hdrcnn_image_idx s 3 (shape0 data) = s + 1 + 2 * shape0 data /\
    (forall i,
        label_path env (shape0 data) s i =
        (load_dir env ++ "/"
         ++ Py.format_0d 6 (hdrcnn_image_idx s i (shape0 data))
         ++ "_out.png")%string) /\
    (forall image_idx,
        Py.int_of_str (Py.format_0d 6 image_idx) = Some image_idx /\
        String.length (Py.format_0d 6 image_idx) =
          Nat.max 6 (String.length (Py.str_of_nat image_idx)) /\
        Py.format_0d 6 image_idx =
          (Py.zeros (6 - String.length (Py.str_of_nat image_idx))
           ++ Py.str_of_nat image_idx)%string /\
        (image_idx < 10 ^ 6 -> String.length (Py.format_0d 6 image_idx) = 6)) /\
    (forall st st',
        hdrcnn_mode env mm loss cfg data dir st = (Ok tt, st') ->
        exists evs,
          trace st' = trace st ++ evs /\
          imreads evs =
          flat_map (fun i =>
                      map (label_path env (shape0 data) i)
                          (fst (split_or_empty env (NUM_EXPOSURES cfg)
                                               (rng_calls st + i))))
                   (seq 0 (shape0 data))).
Proof.
  intros env mm loss cfg data dir s.
  split; [unfold hdrcnn_image_idx; simpl; lia|].
  split; [unfold hdrcnn_image_idx; simpl; lia|].
  split; [unfold hdrcnn_image_idx; simpl; lia|].
  split; [reflexivity|].
  split.
  - intros image_idx. unfold Py.format_0d.
    split; [rewrite int_of_zeros; apply int_of_str_of_nat|].
    split; [rewrite length_append, length_zeros; lia|].
    split; [reflexivity|].
    intros Hlt. rewrite length_append, length_zeros.
    pose proof (digits_below image_idx 6 Hlt). lia.
  - intros st st' Hrun.
    destruct (adaptive_mode_ok env mm loss cfg data dir Hdrcnn st st' Hrun)
      as (_ & Ht & _).
    eexists. split; [exact Ht|].
    rewrite !imreads_app, imreads_hdrcnn_scenes.
    cbn [imreads flat_map List.app]. apply List.app_nil_r.
Qed.

Lemma hdrcnn_label_file_witness :
  (5 < 10 ^ 6 /\
   fst (hdrcnn_mode (Demo.env 3 "SSIMLoss" 2 (seq 1 6)) Demo.model "SSIMLoss"
          (Demo.cfg 3 "SSIMLoss") (Demo.data 2 4) "out" init_state) = Ok tt) /\
  hdrcnn_image_idx 5 1 2 = 5 + 1 + 2 /\
  hdrcnn_image_idx 5 2 2 = 5 + 1 /\
  hdrcnn_image_idx 5 3 2 = 5 + 1 + 2 * 2 /\
  String.length (Py.format_0d 6 5) = 6 /\
  imreads
    (trace (snd (hdrcnn_mode (Demo.env 3 "SSIMLoss" 2 (seq 1 6)) Demo.model
                   "SSIMLoss" (Demo.cfg 3 "SSIMLoss") (Demo.data 2 4) "out"
                   init_state))) =
  ["/repo/data/LDR-HDR-pair_Dataset/TestOutputs/000001_out.png";
   "/repo/data/LDR-HDR-pair_Dataset/TestOutputs/000005_out.png";
   "/repo/data/LDR-HDR-pair_Dataset/TestOutputs/000006_out.png";
   "/repo/data/LDR-HDR-pair_Dataset/TestOutputs/000004_out.png"].
Proof.
  destruct (hdrcnn_label_file (Demo.env 3 "SSIMLoss" 2 (seq 1 6)) Demo.model
              "SSIMLoss" (Demo.cfg 3 "SSIMLoss") (Demo.data 2 4) "out" 5)
    as (H1 & H2 & H3 & _ & H5 & H6).
  split; [split; [apply Nat.ltb_lt|]; vm_compute; reflexivity|].
  split; [exact H1|]. split; [exact H2|]. split; [exact H3|].
  split.
  - apply (proj2 (proj2 (proj2 (H5 5)))).
    apply Nat.ltb_lt. vm_compute. reflexivity.
  - destruct (H6 init_state
                 (snd (hdrcnn_mode (Demo.env 3 "SSIMLoss" 2 (seq 1 6))
                         Demo.model "SSIMLoss" (Demo.cfg 3 "SSIMLoss")
                         (Demo.data 2 4) "out" init_state)))
      as (evs & Ht & Hi).
    + vm_compute. reflexivity.
    + rewrite Ht. cbn [trace init_state List.app]. rewrite Hi.
      vm_compute. reflexivity.
Defined.

(** * The draws of the splitter *)



















Lemma rotate_3_perm (c : nat) : Permutation (Demo.rotate c 3) (seq 0 3).
Proof.
  unfold Demo.rotate. cbn [seq map].
  rewrite <- (Nat.Div0.add_mod_idemp_r 0 c 3),
          <- (Nat.Div0.add_mod_idemp_r 1 c 3),
          <- (Nat.Div0.add_mod_idemp_r 2 c 3).
  pose proof (Nat.mod_upper_bound c 3) as Hr.
  destruct (c mod 3) as [|[|[|r]]]; [| | |lia]; cbn.
  - apply Permutation_refl.
  - apply Permutation_sym. apply (Permutation_cons_append [1; 2] 0).
  - apply (Permutation_cons_append [0; 1] 2).
Qed.


(** * Support exposures beyond the third *)

Lemma split_identity (K : nat) :
  2 <= K ->
  Sklearn.train_test_split (Py.np_arange 1 (Z.of_nat K + 1)) 1 (seq 0 K) =
  Ok (seq 2 (K - 1), [1]).
Proof.
  intros HK. rewrite np_arange_exposures, Nat2Z.id.
  destruct (split_ok K (seq 0 K) HK (Permutation_refl _))
    as (q & rest & Hp & Hs).
  destruct K as [|K]; [lia|]. cbn [seq] in Hp. inversion Hp; subst q rest.
  rewrite Hs. rewrite seq_shift. simpl. rewrite Nat.sub_0_r. reflexivity.
Qed.

(** C10.  In the HDRCNN-adapted loop a support exposure [i] other than
    1, 2 and 3 gets no offset: its label file index is [s + 1], the
    index of exposure 2, so it is given the same file and the same
    label as exposure 2.  Such exposures are drawn as soon as K > 3:
    the identity draw puts exposures 2 and 4 in one support set, and
    for K >= 5 every draw puts two distinct exposures with the same
    label file in the support set. *)
Theorem hdrcnn_unmapped_exposures :
  forall (env : Env) (n_scenes s : nat),
    (forall i, i <> 1 -> i <> 2 -> i <> 3 ->
        hdrcnn_image_idx s i n_scenes = s + 1 /\
        hdrcnn_image_idx s i n_scenes = hdrcnn_image_idx s 2 n_scenes /\
        label_path env n_scenes s i = label_path env n_scenes s 2 /\
        label_of env n_scenes s i = label_of env n_scenes s 2) /\
    (forall K, 4 <= K ->
        exists tr ts,
          Sklearn.train_test_split (Py.np_arange 1 (Z.of_nat K + 1)) 1 (seq 0 K)
          = Ok (tr, ts) /\
          In 2 tr /\ In 4 tr /\
          label_path env n_scenes s 4 = label_path env n_scenes s 2) /\
    (forall K c, 5 <= K ->
        Permutation (rng_permutation env c K) (seq 0 K) ->
        exists tr ts e e',
          split_at env (Z.of_nat K) c = Ok (tr, ts) /\
          In e tr /\ In e' tr /\ e <> e' /\
          label_path env n_scenes s e = label_path env n_scenes s e').
Proof.
  intros env n_scenes s.
  assert (H : forall i, i <> 1 -> i <> 2 -> i <> 3 ->
                hdrcnn_image_idx s i n_scenes = s + 1).
  { intros i H1 H2 H3. unfold hdrcnn_image_idx.
    destruct (Nat.eqb_spec i 1); [contradiction|].
    destruct (Nat.eqb_spec i 2); [contradiction|].
    destruct (Nat.eqb_spec i 3); [contradiction|]. reflexivity. }
  assert (H2 : hdrcnn_image_idx s 2 n_scenes = s + 1) by reflexivity.
  assert (HP : forall i, i <> 1 -> i <> 2 -> i <> 3 ->
                 label_path env n_scenes s i = label_path env n_scenes s 2).
  { intros i A B C. unfold label_path. rewrite (H i A B C), H2. reflexivity. }
  split; [|split].
  - intros i A B C. split; [apply H; assumption|].
    split; [rewrite H2; apply H; assumption|].
    split; [apply HP; assumption|].
    unfold label_of. rewrite (HP i A B C). reflexivity.
  - intros K HK. exists (seq 2 (K - 1)), [1].
    split; [apply split_identity; lia|].
    split; [apply in_seq; lia|]. split; [apply in_seq; lia|].
    apply HP; lia.
  - intros K c HK Hperm.
    destruct (split_at_ok env K c) as (q & rest & Hp & Hs); [lia|exact Hperm|].
    rewrite Hp in Hperm.
    destruct (split_sides K q rest Hperm) as (P1 & ND & _).
    assert (Hin : forall e, 1 <= e <= K -> e <> S q -> In e (map S rest)).
    { intros e He Hne.
      assert (Hi : In e (map S rest ++ [S q])).
      { apply (Permutation_in e (Permutation_sym P1)). apply in_seq. lia. }
      apply in_app_or in Hi. destruct Hi as [Hi|[Hi|[]]]; [exact Hi|congruence]. }
    exists (map S rest), [S q].
    destruct (Nat.eq_dec (S q) 2) as [E2|N2];
      [|destruct (Nat.eq_dec (S q) 4) as [E4|N4]].
    + exists 4, 5. split; [exact Hs|].
      split; [apply Hin; lia|]. split; [apply Hin; lia|]. split; [lia|].
      rewrite (HP 4), (HP 5); try lia. reflexivity.
    + exists 2, 5. split; [exact Hs|].
      split; [apply Hin; lia|]. split; [apply Hin; lia|]. split; [lia|].
      rewrite (HP 5); try lia. reflexivity.
    + exists 2, 4. split; [exact Hs|].
      split; [apply Hin; lia|]. split; [apply Hin; lia|]. split; [lia|].
      rewrite (HP 4); try lia. reflexivity.
Qed.

Lemma hdrcnn_unmapped_exposures_witness :
  (4 <> 1 /\ 4 <> 2 /\ 4 <> 3 /\ 4 <= 4) /\
  hdrcnn_image_idx 5 4 45 = 6 /\
  label_path (Demo.env 4 "SSIMLoss" 45 []) 45 5 4 =
  "/repo/data/LDR-HDR-pair_Dataset/TestOutputs/000006_out.png" /\
  label_path (Demo.env 4 "SSIMLoss" 45 []) 45 5 2 =
  "/repo/data/LDR-HDR-pair_Dataset/TestOutputs/000006_out.png" /\
  imreads
    (trace (snd (hdrcnn_mode (Demo.env 4 "SSIMLoss" 1 [1; 2; 3]) Demo.model
                   "SSIMLoss" (Demo.cfg 4 "SSIMLoss") (Demo.data 1 5) "out"
                   init_state))) =
  ["/repo/data/LDR-HDR-pair_Dataset/TestOutputs/000001_out.png";
   "/repo/data/LDR-HDR-pair_Dataset/TestOutputs/000003_out.png";
   "/repo/data/LDR-HDR-pair_Dataset/TestOutputs/000001_out.png"].
Proof.
  destruct (hdrcnn_unmapped_exposures (Demo.env 4 "SSIMLoss" 45 []) 45 5)
    as (H & _ & _).
  destruct (H 4) as (H1 & _ & H3 & _); try (intros E; discriminate E).
  split; [repeat split; try (intros E; discriminate E); lia|].
  split; [rewrite H1; reflexivity|].
  split; [rewrite H3; vm_compute; reflexivity|].
  split; vm_compute; reflexivity.
Defined.

(** * The checkpoint flag *)

(** C9, at the command line [--model_dir out --use_best False].
    Inside [main] the flag selects the checkpoint as documented (true:
    [model_best.pth.tar], false: [model_last.pth.tar]), but the parser
    declares the option with [type=bool], so every non-empty value,
    ['False'] included, becomes [True]: the run loads
    [out/model_best.pth.tar] and never [out/model_last.pth.tar]. *)
Theorem use_best_False_loads_best :
  (forall d, model_path_of d true = Py.osp_join d "model_best.pth.tar") /\
  (forall d, model_path_of d false = Py.osp_join d "model_last.pth.tar") /\
  (forall c v, Py.bool_of_str (String c v) = true) /\
  parse_args ["--model_dir"; "out"; "--use_best"; "False"] =
  Some {| model_dir := Some "out"; use_best := true; cfg_path := None |} /\
  exists o st,
    script (Demo.env 3 "SSIMLoss" 2 (seq 1 6))
           ["--model_dir"; "out"; "--use_best"; "False"] = Some (o, st) /\
    existsb (fun e => match e with
                      | EvTorchLoad p => String.eqb p "out/model_best.pth.tar"
                      | _ => false
                      end) (trace st) = true /\
    existsb (fun e => match e with
                      | EvTorchLoad p => String.eqb p "out/model_last.pth.tar"
                      | _ => false
                      end) (trace st) = false.
Proof.
  split; [reflexivity|]. split; [reflexivity|]. split; [reflexivity|].
  split; [reflexivity|].
  exists (fst (main (Demo.env 3 "SSIMLoss" 2 (seq 1 6))
                    {| model_dir := Some "out"; use_best := true;
                       cfg_path := None |} init_state)),
         (snd (main (Demo.env 3 "SSIMLoss" 2 (seq 1 6))
                    {| model_dir := Some "out"; use_best := true;
                       cfg_path := None |} init_state)).
  split; [vm_compute; reflexivity|].
  split; vm_compute; reflexivity.
Qed.

(** * Accumulators *)

(** C8.  Each mode zeroes its SSIM and PSNR accumulators (and its task
    counter) before its first task: whatever values they hold on entry,
    the mode runs the same and ends in the same state, so nothing a
    previous mode accumulated reaches its result.  A completed
    single-shot mode leaves the adaptive accumulators as they were, and
    a completed adaptive mode leaves the single-shot results as they
    were. *)
Theorem accumulators_reset :
  forall (env : Env) (mm : meta_model_t) (loss : string) (cfg : config)
         (data : ndarray) (dir : string) (s : state),
    (forall a b k,
        single_shot_mode env mm loss data dir (set_idx k (set_single a b s)) =
        single_shot_mode env mm loss data dir s) /\
    (forall kind a b k,
        adaptive_mode env kind mm loss cfg data dir
                      (set_idx k (set_adaptive a b s)) =
        adaptive_mode env kind mm loss cfg data dir s) /\
    single_shot_mode env mm loss data dir s =
      report_single
        (Z.of_nat (shape0 data) * (Z.of_nat (shape1 data) - 1))%Z
        (single_run env mm loss dir (single_pairs data)
           (set_idx 0 (set_single 0 0
              (log_event (EvPrint "Performing Single-Shot Evaluation") s)))) /\
    (forall kind,
        ok_or_raise
          (adaptive_mode env kind mm loss cfg data dir s) tt
          (adaptive_report (shape0 data)
             (adaptive_what_ssim kind) (adaptive_what_psnr kind)
             (adaptive_run env mm loss (NUM_TASK_TR_ITER cfg) dir
                (adaptive_reads env kind data (NUM_EXPOSURES cfg))
                (adaptive_task env kind data (NUM_EXPOSURES cfg))
                (Py.range (shape0 data))
                (set_idx 0 (set_adaptive 0 0
                   (log_event (EvPrint (adaptive_banner kind)) s)))))) /\
    (forall s',
        single_shot_mode env mm loss data dir s = (Ok tt, s') ->
        eval_adaptive_ssim s' = eval_adaptive_ssim s /\
        eval_adaptive_psnr s' = eval_adaptive_psnr s) /\
    (forall kind s',
        adaptive_mode env kind mm loss cfg data dir s = (Ok tt, s') ->
        eval_single_ssim s' = eval_single_ssim s /\
        eval_single_psnr s' = eval_single_psnr s).
Proof.
  intros env mm loss cfg data dir s.
  split; [intros a b k; reflexivity|].
  split; [intros [] a b k; reflexivity|].
  split; [apply single_shot_mode_run|].
  split; [intros kind; apply oor_adaptive_mode|].
  split.
  - intros s' Hrun.
    destruct (single_shot_mode_ok env mm loss data dir s s' Hrun)
      as (_ & _ & _ & _ & Ha & Hb & _).
    split; assumption.
  - intros kind s' Hrun.
    destruct (adaptive_mode_ok env mm loss cfg data dir kind s s' Hrun)
      as (_ & _ & _ & _ & Ha & Hb & _).
    split; assumption.
Qed.

Lemma accumulators_reset_witness :
  (fst (single_shot_mode (Demo.env 3 "SSIMLoss" 2 (seq 1 6)) Demo.model
          "SSIMLoss" (Demo.data 2 4) "out"
          (set_adaptive 7 9 init_state)) = Ok tt /\
   fst (adaptive_mode (Demo.env 3 "SSIMLoss" 2 (seq 1 6)) Hdrcnn Demo.model
          "SSIMLoss" (Demo.cfg 3 "SSIMLoss") (Demo.data 2 4) "out"
          (set_adaptive 7 9 init_state)) = Ok tt) /\
  eval_adaptive_ssim
    (snd (single_shot_mode (Demo.env 3 "SSIMLoss" 2 (seq 1 6)) Demo.model
            "SSIMLoss" (Demo.data 2 4) "out" (set_adaptive 7 9 init_state)))
  = 7%Q /\
  adaptive_mode (Demo.env 3 "SSIMLoss" 2 (seq 1 6)) Hdrcnn Demo.model
    "SSIMLoss" (Demo.cfg 3 "SSIMLoss") (Demo.data 2 4) "out"
    (set_idx 5 (set_adaptive 7 9 init_state)) =
  adaptive_mode (Demo.env 3 "SSIMLoss" 2 (seq 1 6)) Hdrcnn Demo.model
    "SSIMLoss" (Demo.cfg 3 "SSIMLoss") (Demo.data 2 4) "out" init_state.
Proof.
  split; [split; vm_compute; reflexivity|].
  split.
  - destruct (accumulators_reset (Demo.env 3 "SSIMLoss" 2 (seq 1 6)) Demo.model
                "SSIMLoss" (Demo.cfg 3 "SSIMLoss") (Demo.data 2 4) "out"
                (set_adaptive 7 9 init_state))
      as (_ & _ & _ & _ & H & _).
    destruct (H (snd (single_shot_mode (Demo.env 3 "SSIMLoss" 2 (seq 1 6))
                        Demo.model "SSIMLoss" (Demo.data 2 4) "out"
                        (set_adaptive 7 9 init_state)))) as [Ha _].
    + vm_compute. reflexivity.
    + rewrite Ha. reflexivity.
  - exact (proj1 (proj2 (accumulators_reset
                           (Demo.env 3 "SSIMLoss" 2 (seq 1 6)) Demo.model
                           "SSIMLoss" (Demo.cfg 3 "SSIMLoss") (Demo.data 2 4)
                           "out" init_state)) Hdrcnn 7%Q 9%Q 5).
Defined.

(** * Failing runs *)



Lemma str_in_spec (x : string) (l : list string) :
  str_in x l = true <-> In x l.
Proof.
  unfold str_in. rewrite existsb_exists. split.
  - intros (y & Hy & E). apply String.eqb_eq in E. subst y. exact Hy.
  - intros H. exists x. split; [exact H | apply String.eqb_refl].
Qed.

(** C5.  If [EVAL.LOSS_FUNC] is none of the five supported names the
    run raises, and everything it did before is printing, creating the
    output directories and the logger, logging the GPU and reading the
    configuration: no checkpoint or data set is loaded, no label file
    is read, no loss function is built, nothing is evaluated.  When
    the start-up itself succeeds (a model directory is given and a GPU
    is present) the exception is the failed assertion of line 50,
    whose message is tagged [CONFIG]. *)
Theorem invalid_loss_func_rejected :
  forall (env : Env) (args : args_t) (s : state),
    ~ In (LOSS_FUNC (load_cfg env args))
         ["ExpandNetLoss"; "HaarLoss"; "LPIPSLoss"; "LPIPSLoss_L2"; "SSIMLoss"] ->
    exists e s' evs,
      main env args s = (Raise e, s') /\
      trace s' = trace s ++ evs /\
      forallb (fun ev => negb (loads_or_computes ev)) evs = true /\
      (model_dir args <> None -> cuda_is_available env = true ->
       e = AssertionError
             ("[CONFIG] evaluation loss function '"
              ++ LOSS_FUNC (load_cfg env args) ++ "' not valid")%string).
Proof.
  intros env args s Hbad.
  assert (Hin : str_in (LOSS_FUNC (load_cfg env args)) valid_loss_funcs = false).
  { destruct (str_in _ valid_loss_funcs) eqn:E; [|reflexivity].
    apply str_in_spec in E. contradiction. }
  unfold main, bind. cbn [emit modify].
  destruct (model_dir args) as [d|].
  - cbn [ret emit modify].
    destruct (cuda_is_available env).
    + unfold check_loss_func. rewrite Hin. cbn [raise emit modify].
      eexists. eexists. eexists. split; [reflexivity|].
      split; [cbn [trace log_event]; rewrite <- !List.app_assoc; reflexivity|].
      split; [reflexivity|]. intros _ _. reflexivity.
    + cbn [raise].
      eexists. eexists. eexists. split; [reflexivity|].
      split; [cbn [trace log_event]; rewrite <- !List.app_assoc; reflexivity|].
      split; [reflexivity|]. intros _ H. discriminate H.
  - cbn [raise].
    eexists. eexists. eexists. split; [reflexivity|].
    split; [cbn [trace log_event]; reflexivity|].
    split; [reflexivity|]. intros H. contradiction H. reflexivity.
Qed.

Lemma invalid_loss_func_rejected_witness :
  ~ In (LOSS_FUNC (load_cfg (Demo.env 3 "L1Loss" 2 (seq 1 6)) Demo.args))
       ["ExpandNetLoss"; "HaarLoss"; "LPIPSLoss"; "LPIPSLoss_L2"; "SSIMLoss"] /\
  fst (main (Demo.env 3 "L1Loss" 2 (seq 1 6)) Demo.args init_state) =
  Raise (AssertionError "[CONFIG] evaluation loss function 'L1Loss' not valid").
Proof.
  assert (H : ~ In (LOSS_FUNC (load_cfg (Demo.env 3 "L1Loss" 2 (seq 1 6))
                                        Demo.args))
                   ["ExpandNetLoss"; "HaarLoss"; "LPIPSLoss"; "LPIPSLoss_L2";
                    "SSIMLoss"]).
  { intros Hin. apply str_in_spec in Hin. vm_compute in Hin. discriminate Hin. }
  split; [exact H|].
  destruct (invalid_loss_func_rejected (Demo.env 3 "L1Loss" 2 (seq 1 6))
              Demo.args init_state H) as (e & s' & evs & Hrun & _ & _ & He).
  rewrite Hrun. cbn [fst]. f_equal. apply He.
  - intros E. discriminate E.
  - reflexivity.
Defined.

(** * Too few exposures *)

Section FewExposures.

Variable env : Env.
Variable meta_model : meta_model_t.
Variable loss_func : string.
Variable cfg : config.
Variable data : ndarray.
Variable dir : string.

Hypothesis few : (NUM_EXPOSURES cfg < 2)%Z.

Lemma train_test_split_few (s : state) :
  train_test_split env (Py.np_arange 1 (NUM_EXPOSURES cfg + 1)) s =
  (Raise (ValueError
            "test_size should be positive and smaller than the number of samples"),
   s).
Proof.
  unfold train_test_split, bind, gets, lift.
  rewrite np_arange_exposures, split_too_small by lia. reflexivity.
Qed.

Lemma adaptive_scene_few (kind : adaptive_kind) (s : state) :
  shape0 data <> 0 ->
  match kind with
  | Debevec => debevec_scene env meta_model loss_func cfg data dir 0 s
  | Hdrcnn => hdrcnn_scene env meta_model loss_func cfg data dir 0 s
  end =
  (Raise (ValueError
            "test_size should be positive and smaller than the number of samples"),
   s).
Proof.
  intros Hn.
  assert (Hb : ndarray_batch data 0 s = (Ok [row data 0], s)).
  { unfold ndarray_batch. destruct (Nat.ltb_spec 0 (shape0 data)); [reflexivity|lia]. }
  destruct kind; unfold debevec_scene, hdrcnn_scene;
    rewrite (bind_ok _ _ _ _ _ Hb); cbn [for_collect];
    apply bind_raise; apply bind_raise;
    unfold debevec_set, hdrcnn_set; apply bind_raise;
    apply train_test_split_few.
Qed.

(** The first scene of an adaptive mode already fails at its split. *)
Lemma adaptive_mode_few (kind : adaptive_kind) (s : state) :
  shape0 data <> 0 ->
  adaptive_mode env kind meta_model loss_func cfg data dir s =
  (Raise (ValueError
            "test_size should be positive and smaller than the number of samples"),
   adaptive_entry (adaptive_banner kind) s).
Proof.
  intros Hn.
  pose proof (adaptive_scene_few kind
                (adaptive_entry (adaptive_banner kind) s) Hn) as Hs.
  destruct (shape0 data) as [|n] eqn:En; [contradiction|].
  destruct kind; cbn [adaptive_mode adaptive_banner] in *;
    unfold debevec_mode, hdrcnn_mode, Py.range; rewrite En; cbn [seq for_];
    unfold bind at 1; cbn [emit modify];
    unfold bind at 1; cbn [modify];
    unfold bind at 1; cbn [modify];
    apply bind_raise; apply bind_raise; exact Hs.
Qed.

Lemma adaptive_mode_fails_few (kind : adaptive_kind) (s : state) :
  fails (adaptive_mode env kind meta_model loss_func cfg data dir s).
Proof.
  destruct (Nat.eq_dec (shape0 data) 0) as [H0|Hn].
  - apply adaptive_mode_no_scenes. exact H0.
  - eexists. eexists. apply adaptive_mode_few. exact Hn.
Qed.

End FewExposures.



(** * Label reads are checked *)























(** * Baseline labels *)



(** * Further properties: the runs of [main] as a whole *)

(** ** The stages of a run *)

Lemma main_starts (env : Env) (args : args_t) (d : string)
      (ckpt : checkpoint_t) (s : state) :
  starts env args d ckpt ->
  main env args s =
  three_modes env (loaded_model (load_cfg env args) ckpt) (load_cfg env args)
              (meta_test_data env (NUM_EXPOSURES (load_cfg env args))) d
              (log_events (startup_events args d (load_cfg env args) ckpt) s).
Proof.
  intros (Hd & Hc & Hl & Ht). apply str_in_spec in Hl.
  unfold main, three_modes. rewrite Hd, Hc.
  unfold check_loss_func. rewrite Hl.
  unfold bind at 1. cbn [emit modify].
  unfold bind at 1. cbn [ret].
  cbv zeta.
  do 6 (unfold bind at 1; cbn [emit modify]).
  unfold bind at 1. unfold bind at 1. cbn [emit modify].
  do 4 (unfold bind at 1; cbn [emit modify ret]).
  fold (output_dir d). fold (mode_dir d "single").
  rewrite Ht.
  unfold bind at 1. cbn [ret].
  do 5 (unfold bind at 1; cbn [emit modify ret]).
  reflexivity.
Qed.

(** * What the modes log and raise *)

Lemma yields_silent {A} (c : M A) (P : event -> Prop) (Q : exn -> Prop)
      (R : A -> Prop) :
  (forall s, trace (snd (c s)) = trace s /\
             match fst (c s) with Ok a => R a | Raise e => Q e end) ->
  yields c P Q R.
Proof.
  intros H s. destruct (H s) as [Ht Hr]. exists [].
  rewrite List.app_nil_r. repeat split; [exact Ht | constructor | exact Hr].
Qed.

Lemma yields_emit (e : event) (P : event -> Prop) (Q : exn -> Prop)
      (R : unit -> Prop) :
  P e -> R tt -> yields (emit e) P Q R.
Proof.
  intros He Hr s. exists [e]. repeat split; [repeat constructor; exact He | exact Hr].
Qed.

Lemma yields_bind {A B} (c : M A) (k : A -> M B) (P : event -> Prop)
      (Q : exn -> Prop) (R : A -> Prop) (R' : B -> Prop) :
  yields c P Q R -> (forall a, R a -> yields (k a) P Q R') ->
  yields (bind c k) P Q R'.
Proof.
  intros Hc Hk s. destruct (Hc s) as (evs1 & Ht1 & Hp1 & Hr1). unfold bind.
  destruct (c s) as [[a|e] s1]; cbn [fst snd] in *.
  - destruct (Hk a Hr1 s1) as (evs2 & Ht2 & Hp2 & Hr2).
    exists (evs1 ++ evs2). split; [|split].
    + rewrite Ht2, Ht1, List.app_assoc. reflexivity.
    + apply Forall_app. split; assumption.
    + exact Hr2.
  - exists evs1. repeat split; assumption.
Qed.

Lemma yields_weaken {A} (c : M A) (P P' : event -> Prop) (Q Q' : exn -> Prop)
      (R R' : A -> Prop) :
  yields c P Q R ->
  (forall e, P e -> P' e) -> (forall e, Q e -> Q' e) ->
  (forall a, R a -> R' a) ->
  yields c P' Q' R'.
Proof.
  intros Hc HP HQ HR s. destruct (Hc s) as (evs & Ht & Hp & Hr).
  exists evs. split; [exact Ht|]. split.
  - eapply Forall_impl; [|exact Hp]. exact HP.
  - destruct (fst (c s)); [apply HR | apply HQ]; exact Hr.
Qed.

Lemma yields_for {A} (l : list A) (body : A -> M unit) (P : event -> Prop)
      (Q : exn -> Prop) :
  (forall x, In x l -> yields (body x) P Q (fun _ => True)) ->
  yields (for_ l body) P Q (fun _ => True).
Proof.
  induction l as [|x l IH]; intros Hb; simpl.
  - apply yields_silent. intros s. split; [reflexivity | exact I].
  - eapply yields_bind; [apply Hb; left; reflexivity|].
    intros _ _. apply IH. intros y Hy. apply Hb. right. exact Hy.
Qed.

Lemma yields_for_collect {A B} (l : list A) (body : A -> M B)
      (P : event -> Prop) (Q : exn -> Prop) :
  (forall x, In x l -> yields (body x) P Q (fun _ => True)) ->
  yields (for_collect l body) P Q (fun _ => True).
Proof.
  induction l as [|x l IH]; intros Hb; simpl.
  - apply yields_silent. intros s. split; [reflexivity | exact I].
  - eapply yields_bind; [apply Hb; left; reflexivity|].
    intros y _. eapply yields_bind.
    + apply IH. intros z Hz. apply Hb. right. exact Hz.
    + intros ys _. apply yields_silent. intros s. split; [reflexivity | exact I].
Qed.

Lemma take_In {A} (arr : list A) (ind : list nat) (l : list A) :
  Py.take arr ind = Ok l -> forall x, In x l -> In x arr.
Proof.
  revert l. induction ind as [|i ind IH]; intros l H x Hx; simpl in H.
  - inversion H; subst l. destruct Hx.
  - unfold Py.getitem in H. destruct (nth_error arr i) as [y|] eqn:E; [|discriminate H].
    destruct (Py.take arr ind) as [ys|e]; [|discriminate H].
    inversion H; subst l. destruct Hx as [Hx|Hx].
    + subst x. eapply nth_error_In. exact E.
    + eapply IH; [reflexivity | exact Hx].
Qed.

Lemma train_test_split_In {A} (arr : list A) (perm : list nat)
      (tr ts : list A) :
  Sklearn.train_test_split arr 1 perm = Ok (tr, ts) ->
  forall x, In x tr \/ In x ts -> In x arr.
Proof.
  unfold Sklearn.train_test_split.
  destruct (Sklearn.validate_shuffle_split _ _) as [[n_train n_test]|e];
    [|discriminate].
  destruct (Py.take arr (firstn n_train (skipn n_test perm))) as [l1|e] eqn:E1;
    [|discriminate].
  destruct (Py.take arr (firstn n_test perm)) as [l2|e] eqn:E2; [|discriminate].
  intros H x Hx. inversion H; subst tr ts.
  destruct Hx as [Hx|Hx]; [eapply take_In; [exact E1|exact Hx]
                          | eapply take_In; [exact E2|exact Hx]].
Qed.

Lemma in_np_arange (K : Z) (x : nat) :
  In x (Py.np_arange 1 (K + 1)) -> (1 <= Z.of_nat x <= K)%Z.
Proof.
  rewrite np_arange_exposures. intros H. apply in_seq in H. lia.
Qed.

Section AdaptiveYields.

Variable env : Env.
Variable kind : adaptive_kind.
Variable meta_model : meta_model_t.
Variable loss_func : string.
Variable cfg : config.
Variable data : ndarray.
Variable dir : string.

Lemma yields_quiet {A} (c : M A) (R : A -> Prop) :
  (forall s, trace (snd (c s)) = trace s /\
             match fst (c s) with
             | Ok a => R a
             | Raise e => adaptive_exn env kind cfg data e
             end) ->
  yields c (adaptive_event env kind cfg data dir)
         (adaptive_exn env kind cfg data) R.
Proof. apply yields_silent. Qed.

Lemma yields_np_stack {A} (l : list A) :
  yields (np_stack l) (adaptive_event env kind cfg data dir)
         (adaptive_exn env kind cfg data) (fun _ => True).
Proof.
  apply yields_quiet. intros s. destruct l; split; reflexivity || exact I.
Qed.

Lemma yields_image_set_getitem (x : image_set_t) (i : nat) :
  yields (image_set_getitem x i) (adaptive_event env kind cfg data dir)
         (adaptive_exn env kind cfg data) (fun _ => True).
Proof.
  apply yields_quiet. intros s. unfold image_set_getitem.
  destruct (i <? n_images x); split; reflexivity || exact I.
Qed.

Lemma yields_ndarray_batch (i : nat) :
  yields (ndarray_batch data i) (adaptive_event env kind cfg data dir)
         (adaptive_exn env kind cfg data) (fun _ => True).
Proof.
  apply yields_quiet. intros s. unfold ndarray_batch.
  destruct (i <? shape0 data); split; reflexivity || exact I.
Qed.

Lemma yields_py_div (a : Q) (d : Z) :
  yields (py_div a d) (adaptive_event env kind cfg data dir)
         (adaptive_exn env kind cfg data) (fun _ => True).
Proof.
  apply yields_quiet. intros s. unfold py_div.
  destruct (d =? 0)%Z; split; reflexivity || exact I.
Qed.

Lemma yields_train_test_split :
  yields (train_test_split env (Py.np_arange 1 (NUM_EXPOSURES cfg + 1)))
         (adaptive_event env kind cfg data dir)
         (adaptive_exn env kind cfg data)
         (fun r => forall x, In x (fst r) \/ In x (snd r) ->
                             (1 <= Z.of_nat x <= NUM_EXPOSURES cfg)%Z).
Proof.
  apply yields_quiet. intros s. unfold train_test_split, bind, gets, lift.
  destruct (Sklearn.train_test_split _ _ _) as [[tr ts]|e] eqn:E;
    cbn [fst snd modify ret set_rng_calls trace].
  - split; [reflexivity|]. intros x Hx. apply in_np_arange.
    eapply train_test_split_In; [exact E | exact Hx].
  - split; [reflexivity|].
    unfold Sklearn.train_test_split in E.
    destruct (Sklearn.validate_shuffle_split _ _) as [[n_train n_test]|e0] eqn:V.
    + assert (Ht : forall (ind : list nat) e1,
                 Py.take (Py.np_arange 1 (NUM_EXPOSURES cfg + 1)) ind = Raise e1 ->
                 e1 = IndexError).
      { induction ind as [|i ind IH]; intros e1 H; simpl in H; [discriminate H|].
        unfold Py.getitem in H.
        destruct (nth_error _ i); [|inversion H; reflexivity].
        destruct (Py.take _ ind) as [ys|e2]; [discriminate H|].
        inversion H; subst e1. apply IH. reflexivity. }
      destruct (Py.take _ (firstn n_train _)) as [l1|e1] eqn:E1.
      * destruct (Py.take _ (firstn n_test _)) as [l2|e2] eqn:E2; [discriminate E|].
        inversion E; subst e. rewrite (Ht _ _ E2). exact I.
      * inversion E; subst e. rewrite (Ht _ _ E1). exact I.
    + inversion E; subst e. unfold Sklearn.validate_shuffle_split in V.
      destruct (_ || _); [inversion V; exact I|].
      destruct (_ =? 0); inversion V. exact I.
Qed.

Lemma yields_collect_test (x : image_set_t) (ts : list nat) :
  yields (collect_test x ts) (adaptive_event env kind cfg data dir)
         (adaptive_exn env kind cfg data) (fun _ => True).
Proof.
  unfold collect_test.
  eapply yields_bind.
  { apply yields_for_collect. intros i _.
    eapply yields_bind; [apply yields_image_set_getitem|]. intros ? _.
    eapply yields_bind; [apply yields_image_set_getitem|]. intros ? _.
    apply yields_quiet. intros s. split; [reflexivity | exact I]. }
  intros ? _.
  eapply yields_bind; [apply yields_np_stack|]. intros ? _.
  eapply yields_bind; [apply yields_np_stack|]. intros ? _.
  apply yields_quiet. intros s. split; [reflexivity | exact I].
Qed.

Lemma yields_adapt_and_score sets :
  yields (adapt_and_score env meta_model loss_func (NUM_TASK_TR_ITER cfg) dir sets)
         (adaptive_event env kind cfg data dir)
         (adaptive_exn env kind cfg data) (fun _ => True).
Proof.
  unfold adapt_and_score.
  do 4 (eapply yields_bind; [apply yields_np_stack|]; intros ? _).
  eapply yields_bind.
  { apply yields_quiet with (R := fun _ => True).
    intros s. split; [reflexivity | exact I]. }
  intros k _.
  eapply yields_bind.
  { apply yields_emit with (R := fun _ => True); [|exact I].
    cbn. split; reflexivity. }
  intros ? _.
  destruct (evaluate_maml env meta_model loss_func _ _ k _) as [va vb].
  eapply yields_bind.
  { apply yields_quiet with (R := fun _ => True).
    intros s. split; [reflexivity | exact I]. }
  intros ? _. apply yields_quiet. intros s. split; [reflexivity | exact I].
Qed.

Lemma yields_report_adaptive (n : nat) :
  yields (report_adaptive n (adaptive_what_ssim kind) (adaptive_what_psnr kind))
         (adaptive_event env kind cfg data dir)
         (adaptive_exn env kind cfg data) (fun _ => True).
Proof.
  unfold report_adaptive. cbv zeta.
  eapply yields_bind.
  { apply yields_quiet with (R := fun _ => True).
    intros s. split; [reflexivity | exact I]. }
  intros ? _.
  eapply yields_bind; [apply yields_py_div|]. intros ? _.
  eapply yields_bind.
  { apply yields_quiet with (R := fun _ => True).
    intros s. split; [reflexivity | exact I]. }
  intros ? _.
  eapply yields_bind.
  { apply yields_quiet with (R := fun _ => True).
    intros s. split; [reflexivity | exact I]. }
  intros ? _.
  eapply yields_bind; [apply yields_py_div|]. intros ? _.
  eapply yields_bind.
  { apply yields_quiet with (R := fun _ => True).
    intros s. split; [reflexivity | exact I]. }
  intros ? _.
  eapply yields_bind.
  { apply yields_emit with (R := fun _ => True); [|exact I].
    cbn. left. reflexivity. }
  intros ? _.
  apply yields_emit; [|exact I]. cbn. right. reflexivity.
Qed.

End AdaptiveYields.

Lemma yields_imread_label (env : Env) (cfg : config) (data : ndarray)
      (dir path : string) :
  label_read env cfg data path ->
  yields (imread_label env path) (adaptive_event env Hdrcnn cfg data dir)
         (adaptive_exn env Hdrcnn cfg data) (fun _ => True).
Proof.
  intros Hp s. exists [EvImread path]. unfold imread_label, bind, emit, modify.
  destruct (io_imread env path) as [raw|] eqn:E; cbn [fst snd raise ret].
  - split; [reflexivity|]. split; [|exact I].
    repeat constructor. exact Hp.
  - split; [reflexivity|]. split.
    + repeat constructor. exact Hp.
    + cbn. repeat split; assumption.
Qed.

Lemma yields_debevec_set (env : Env) (cfg : config) (data : ndarray)
      (dir : string) (x : image_set_t) :
  yields (debevec_set env cfg x) (adaptive_event env Debevec cfg data dir)
         (adaptive_exn env Debevec cfg data) (fun _ => True).
Proof.
  unfold debevec_set.
  eapply yields_bind; [apply yields_train_test_split|]. intros [tr ts] _.
  eapply yields_bind.
  { apply yields_for_collect. intros i _.
    eapply yields_bind; [apply yields_image_set_getitem|]. intros ? _.
    eapply yields_bind; [apply yields_image_set_getitem|]. intros ? _.
    apply yields_quiet. intros s. split; [reflexivity | exact I]. }
  intros ? _.
  eapply yields_bind; [apply yields_np_stack|]. intros ? _.
  eapply yields_bind; [apply yields_np_stack|]. intros ? _.
  eapply yields_bind; [apply yields_collect_test|]. intros ? _.
  apply yields_quiet. intros s. split; [reflexivity | exact I].
Qed.

Lemma yields_hdrcnn_set (env : Env) (cfg : config) (data : ndarray)
      (dir : string) (curr_idx : nat) (x : image_set_t) :
  curr_idx < shape0 data ->
  yields (hdrcnn_set env cfg (shape0 data) curr_idx x)
         (adaptive_event env Hdrcnn cfg data dir)
         (adaptive_exn env Hdrcnn cfg data) (fun _ => True).
Proof.
  intros Hi. unfold hdrcnn_set.
  eapply yields_bind; [apply yields_train_test_split|]. intros [tr ts] Hr.
  cbn [fst snd] in Hr.
  eapply yields_bind.
  { apply yields_for_collect. intros i Hin.
    eapply yields_bind; [apply yields_image_set_getitem|]. intros ? _.
    cbv zeta.
    eapply yields_bind.
    { apply yields_imread_label. exists curr_idx, i.
      split; [exact Hi|]. split; [apply Hr; left; exact Hin | reflexivity]. }
    intros ? _.
    apply yields_quiet. intros s. split; [reflexivity | exact I]. }
  intros ? _.
  eapply yields_bind; [apply yields_np_stack|]. intros ? _.
  eapply yields_bind; [apply yields_np_stack|]. intros ? _.
  eapply yields_bind; [apply yields_collect_test|]. intros ? _.
  apply yields_quiet. intros s. split; [reflexivity | exact I].
Qed.

Lemma yields_adaptive_mode (env : Env) (kind : adaptive_kind)
      (mm : meta_model_t) (loss : string) (cfg : config) (data : ndarray)
      (dir : string) :
  yields (adaptive_mode env kind mm loss cfg data dir)
         (adaptive_event env kind cfg data dir)
         (adaptive_exn env kind cfg data) (fun _ => True).
Proof.
  destruct kind; cbn [adaptive_mode]; unfold debevec_mode, hdrcnn_mode.
  - eapply yields_bind.
    { apply yields_emit with (R := fun _ => True); [reflexivity | exact I]. }
    intros ? _.
    do 2 (eapply yields_bind;
          [apply yields_quiet with (R := fun _ => True);
           intros s; split; [reflexivity | exact I]|]; intros ? _).
    eapply yields_bind;
      [|intros ? _; apply (yields_report_adaptive env Debevec)].
    apply yields_for. intros i Hi. unfold debevec_scene.
    eapply yields_bind; [apply yields_ndarray_batch|]. intros ? _.
    eapply yields_bind; [|intros ? _; apply yields_adapt_and_score].
    apply yields_for_collect. intros x _. apply yields_debevec_set.
  - eapply yields_bind.
    { apply yields_emit with (R := fun _ => True); [reflexivity | exact I]. }
    intros ? _.
    do 2 (eapply yields_bind;
          [apply yields_quiet with (R := fun _ => True);
           intros s; split; [reflexivity | exact I]|]; intros ? _).
    eapply yields_bind;
      [|intros ? _; apply (yields_report_adaptive env Hdrcnn)].
    apply yields_for. intros i Hi. unfold hdrcnn_scene.
    eapply yields_bind; [apply yields_ndarray_batch|]. intros ? _.
    eapply yields_bind; [|intros ? _; apply yields_adapt_and_score].
    apply yields_for_collect. intros x _. apply yields_hdrcnn_set.
    apply in_seq in Hi. lia.
Qed.

(** * The single-shot mode, whatever the data *)

Lemma in_numbered {A} (l : list A) (k : nat) (c : nat * A) :
  In c (numbered k l) -> In (snd c) l.
Proof.
  revert k. induction l as [|x l IH]; intros k H; simpl in H; [destruct H|].
  destruct H as [H|H].
  - subst c. left. reflexivity.
  - right. eapply IH. exact H.
Qed.

Lemma in_single_pairs (data : ndarray) (p : image * image) :
  In p (single_pairs data) ->
  exists i j, i < shape0 data /\ 1 <= j < shape1 data /\
              p = (at_ data i j, at_ data i 0).
Proof.
  unfold single_pairs, Py.range, Py.range_from. intros H.
  apply in_flat_map in H. destruct H as (i & Hi & H).
  apply in_map_iff in H. destruct H as (j & E & Hj).
  apply in_seq in Hi. apply in_seq in Hj.
  exists i, j. repeat split; try lia. symmetry. exact E.
Qed.

Lemma single_pairs_none (data : ndarray) :
  shape0 data = 0 \/ shape1 data = 1 \/ shape1 data = 0 ->
  single_pairs data = [].
Proof.
  intros H. apply length_zero_iff_nil. rewrite length_single_pairs.
  destruct H as [H|[H|H]]; rewrite H; lia.
Qed.

Lemma single_divisor_zero (data : ndarray) :
  single_divisor data = 0%Z <-> shape0 data = 0 \/ shape1 data = 1.
Proof. unfold single_divisor. nia. Qed.

Lemma single_shot_mode_raises (env : Env) (mm : meta_model_t) (loss : string)
      (data : ndarray) (dir : string) (s : state) :
  shape0 data = 0 \/ shape1 data = 1 ->
  single_shot_mode env mm loss data dir s =
  (Raise ZeroDivisionError,
   set_idx 0 (set_single 0 0
     (log_event (EvPrint "Performing Single-Shot Evaluation") s))).
Proof.
  intros H. rewrite single_shot_mode_run.
  rewrite single_pairs_none by tauto.
  apply single_divisor_zero in H. unfold single_divisor in H. rewrite H.
  apply report_single_zero.
Qed.

Lemma single_shot_mode_returns (env : Env) (mm : meta_model_t) (loss : string)
      (data : ndarray) (dir : string) (s : state) :
  shape0 data <> 0 -> shape1 data <> 1 ->
  exists s', single_shot_mode env mm loss data dir s = (Ok tt, s').
Proof.
  intros H0 H1. rewrite single_shot_mode_run.
  rewrite report_single_nonzero.
  - eexists. reflexivity.
  - intros E. apply (single_divisor_zero data) in E. tauto.
Qed.

Lemma yields_single_shot_mode (env : Env) (mm : meta_model_t) (loss : string)
      (data : ndarray) (dir : string) :
  yields (single_shot_mode env mm loss data dir)
         (single_shot_event data dir)
         (fun e => e = ZeroDivisionError /\
                   (shape0 data = 0 \/ shape1 data = 1))
         (fun _ => True).
Proof.
  intros s. rewrite single_shot_mode_run.
  set (s0 := set_idx 0 (set_single 0 0
               (log_event (EvPrint "Performing Single-Shot Evaluation") s))).
  assert (Hrun : exists evs,
             trace (single_run env mm loss dir (single_pairs data) s0) =
             trace s ++ evs /\ Forall (single_shot_event data dir) evs).
  { rewrite single_run_state. cbn [trace].
    exists ([EvPrint "Performing Single-Shot Evaluation"] ++
            map (fun c => single_event dir (fst c) (snd c))
                (numbered (idx s0) (single_pairs data))).
    split; [subst s0; cbn [trace set_idx set_single log_event];
            rewrite <- List.app_assoc; reflexivity|].
    apply Forall_app. split; [repeat constructor|].
    apply Forall_forall. intros e He. apply in_map_iff in He.
    destruct He as ([k p] & E & Hin). subst e. cbn [fst snd single_event].
    apply in_numbered in Hin. cbn [snd] in Hin.
    apply in_single_pairs in Hin. destruct Hin as (i & j & Hi & Hj & Ep).
    subst p. cbn [fst snd]. split; [reflexivity|].
    exists i, j. repeat split; try lia. }
  destruct Hrun as (evs & Ht & Hp).
  destruct (Z.eq_dec (Z.of_nat (shape0 data) * (Z.of_nat (shape1 data) - 1)) 0)
    as [E|E].
  - rewrite E, report_single_zero. cbn [fst snd].
    exists evs. split; [exact Ht|]. split; [exact Hp|].
    split; [reflexivity|]. apply single_divisor_zero. exact E.
  - rewrite report_single_nonzero by exact E. cbn [fst snd].
    eexists. split; [|split; [|exact I]].
    + rewrite trace_log_events. cbn [trace set_single]. rewrite Ht.
      rewrite <- List.app_assoc. reflexivity.
    + apply Forall_app. split; [exact Hp|].
      constructor; [cbn; left; reflexivity|].
      constructor; [cbn; right; reflexivity | constructor].
Qed.

(** * The three modes in sequence *)

Lemma three_modes_trace (env : Env) (mm : meta_model_t) (cfg : config)
      (data : ndarray) (d : string) (s : state) :
  exists evs1 evs2 evs3,
    trace (snd (three_modes env mm cfg data d s)) =
      trace s ++ evs1 ++ evs2 ++ evs3 /\
    Forall (single_shot_event data (mode_dir d "single")) evs1 /\
    Forall (adaptive_event env Debevec cfg data (mode_dir d "adapt_debevec"))
           evs2 /\
    Forall (adaptive_event env Hdrcnn cfg data (mode_dir d "adapt_hdrcnn"))
           evs3 /\
    forall e, fst (three_modes env mm cfg data d s) = Raise e ->
              adaptive_exn env Hdrcnn cfg data e.
Proof.
  unfold three_modes, bind.
  destruct (yields_single_shot_mode env mm (LOSS_FUNC cfg) data
              (mode_dir d "single") s) as (evs1 & Ht1 & Hp1 & Hr1).
  destruct (single_shot_mode env mm (LOSS_FUNC cfg) data _ s)
    as [[[]|e1] s1]; cbn [fst snd] in *.
  - destruct (yields_adaptive_mode env Debevec mm (LOSS_FUNC cfg) cfg data
                (mode_dir d "adapt_debevec") s1) as (evs2 & Ht2 & Hp2 & Hr2).
    cbn [adaptive_mode] in *.
    destruct (debevec_mode env mm (LOSS_FUNC cfg) cfg data _ s1)
      as [[[]|e2] s2]; cbn [fst snd] in *.
    + destruct (yields_adaptive_mode env Hdrcnn mm (LOSS_FUNC cfg) cfg data
                  (mode_dir d "adapt_hdrcnn") s2) as (evs3 & Ht3 & Hp3 & Hr3).
      cbn [adaptive_mode] in *.
      exists evs1, evs2, evs3. split; [|repeat split; try assumption].
      * rewrite Ht3, Ht2, Ht1, <- !List.app_assoc. reflexivity.
      * intros e He. rewrite He in Hr3. exact Hr3.
    + exists evs1, evs2, []. split; [|repeat split; try assumption].
      * rewrite Ht2, Ht1, List.app_nil_r, <- !List.app_assoc. reflexivity.
      * constructor.
      * intros e He. inversion He; subst e.
        destruct e2; cbn in Hr2 |- *; try exact Hr2.
        destruct Hr2 as [E _]. discriminate E.
  - exists evs1, [], []. split; [|repeat split; try assumption].
    + rewrite Ht1, List.app_nil_r. reflexivity.
    + constructor.
    + constructor.
    + intros e He. inversion He; subst e. destruct Hr1 as [Hr1 _].
      subst e1. exact I.
Qed.

(** * Start-up failures *)

Lemma main_without_model_dir (env : Env) (args : args_t) (s : state) :
  model_dir args = None ->
  main env args s =
  (Raise TypeError,
   log_events [EvPrint "--- Evaluating on meta-test set ---"] s).
Proof. intros H. unfold main, bind. rewrite H. reflexivity. Qed.

Lemma main_without_gpu (env : Env) (args : args_t) (d : string) (s : state) :
  model_dir args = Some d -> cuda_is_available env = false ->
  main env args s = (Raise CudaError, log_events (directory_events d) s).
Proof.
  intros Hd Hc. unfold main. rewrite Hd, Hc. reflexivity.
Qed.

Lemma main_invalid_loss_func (env : Env) (args : args_t) (d : string)
      (s : state) :
  model_dir args = Some d -> cuda_is_available env = true ->
  ~ In (LOSS_FUNC (load_cfg env args)) valid_loss_funcs ->
  main env args s =
  (Raise (AssertionError
            ("[CONFIG] evaluation loss function '"
             ++ LOSS_FUNC (load_cfg env args) ++ "' not valid")%string),
   log_events (directory_events d ++ config_events args) s).
Proof.
  intros Hd Hc Hl.
  assert (E : str_in (LOSS_FUNC (load_cfg env args)) valid_loss_funcs = false).
  { destruct (str_in _ valid_loss_funcs) eqn:E; [|reflexivity].
    apply str_in_spec in E. contradiction. }
  unfold main, check_loss_func. rewrite Hd, Hc, E. reflexivity.
Qed.

Lemma main_without_checkpoint (env : Env) (args : args_t) (d : string)
      (s : state) :
  model_dir args = Some d -> cuda_is_available env = true ->
  In (LOSS_FUNC (load_cfg env args)) valid_loss_funcs ->
  torch_load env (model_path_of d (use_best args)) = None ->
  main env args s =
  (Raise (FileNotFoundError (model_path_of d (use_best args))),
   log_events (directory_events d ++ config_events args ++
               [EvGetLossFunc (LOSS_FUNC (load_cfg env args));
                EvTorchLoad (model_path_of d (use_best args))]) s).
Proof.
  intros Hd Hc Hl Ht. apply str_in_spec in Hl.
  unfold main, check_loss_func. rewrite Hd, Hc, Hl.
  unfold bind at 1. cbn [emit modify].
  unfold bind at 1. cbn [ret]. cbv zeta.
  do 6 (unfold bind at 1; cbn [emit modify]).
  unfold bind at 1. unfold bind at 1. cbn [emit modify].
  do 4 (unfold bind at 1; cbn [emit modify ret]).
  rewrite Ht. reflexivity.
Qed.

Lemma startup_events_typed (args : args_t) (d : string) (cfg : config)
      (ckpt : checkpoint_t) :
  model_dir args = Some d ->
  Forall (startup_event args) (startup_events args d cfg ckpt).
Proof.
  intros Hd. unfold startup_events, directory_events, config_events.
  cbn [app]. repeat constructor; cbn; try exact I;
    exists d; (split; [exact Hd|]); cbn; tauto.
Qed.

(** Either the start-up succeeds, or the run stops in it. *)
Lemma main_cases (env : Env) (args : args_t) (s : state) :
  (exists d ckpt, starts env args d ckpt) \/
  (exists e evs,
      main env args s = (Raise e, log_events evs s) /\
      Forall (startup_event args) evs /\
      match e with
      | TypeError => model_dir args = None
      | CudaError => cuda_is_available env = false
      | AssertionError _ =>
          ~ In (LOSS_FUNC (load_cfg env args)) valid_loss_funcs
      | FileNotFoundError p =>
          exists d, model_dir args = Some d /\
                    p = model_path_of d (use_best args) /\
                    torch_load env p = None
      | _ => False
      end).
Proof.
  destruct (model_dir args) as [d|] eqn:Hd.
  2:{ right. exists TypeError, [EvPrint "--- Evaluating on meta-test set ---"].
      split; [apply main_without_model_dir; exact Hd|].
      split; [repeat constructor | reflexivity]. }
  assert (Hdir : Forall (startup_event args) (directory_events d)).
  { unfold directory_events. repeat constructor; cbn; try exact I;
      exists d; (split; [exact Hd|]); cbn; tauto. }
  assert (Hcfg : Forall (startup_event args) (config_events args)).
  { repeat constructor. }
  destruct (cuda_is_available env) eqn:Hc.
  2:{ right. exists CudaError, (directory_events d).
      split; [apply main_without_gpu; assumption|].
      split; [exact Hdir | reflexivity]. }
  destruct (in_dec string_dec (LOSS_FUNC (load_cfg env args)) valid_loss_funcs)
    as [Hl|Hl].
  2:{ right. eexists. eexists.
      split; [apply main_invalid_loss_func; eassumption|].
      split; [apply Forall_app; split; assumption | exact Hl]. }
  destruct (torch_load env (model_path_of d (use_best args))) as [ckpt|] eqn:Ht.
  - left. exists d, ckpt. repeat split; assumption.
  - right. eexists. eexists.
    split; [apply main_without_checkpoint; eassumption|].
    split.
    + apply Forall_app. split; [exact Hdir|].
      apply Forall_app. split; [exact Hcfg|].
      repeat constructor; cbn. exists d. split; [exact Hd | reflexivity].
    + exists d. repeat split; assumption.
Qed.

(** * The trace of a run, complete or not *)

Lemma main_trace (env : Env) (args : args_t) (s : state) :
  let cfg := load_cfg env args in
  let data := meta_test_data env (NUM_EXPOSURES cfg) in
  exists pre evs1 evs2 evs3,
    trace (snd (main env args s)) = trace s ++ pre ++ evs1 ++ evs2 ++ evs3 /\
    Forall (startup_event args) pre /\
    (evs1 ++ evs2 ++ evs3 <> [] ->
     exists d ckpt, starts env args d ckpt /\
                    pre = startup_events args d cfg ckpt) /\
    (forall d, model_dir args = Some d ->
       Forall (single_shot_event data (mode_dir d "single")) evs1 /\
       Forall (adaptive_event env Debevec cfg data (mode_dir d "adapt_debevec"))
              evs2 /\
       Forall (adaptive_event env Hdrcnn cfg data (mode_dir d "adapt_hdrcnn"))
              evs3).
Proof.
  intros cfg data.
  destruct (main_cases env args s) as [(d & ckpt & Hs)|(e & evs & Hm & Hp & _)].
  - rewrite (main_starts env args d ckpt s Hs).
    destruct (three_modes_trace env (loaded_model cfg ckpt) cfg data d
                (log_events (startup_events args d cfg ckpt) s))
      as (evs1 & evs2 & evs3 & Ht & H1 & H2 & H3 & _).
    exists (startup_events args d cfg ckpt), evs1, evs2, evs3.
    split; [|split; [|split]].
    + fold cfg. fold data. rewrite Ht, trace_log_events, <- !List.app_assoc.
      reflexivity.
    + apply startup_events_typed. apply Hs.
    + intros _. exists d, ckpt. split; [exact Hs | reflexivity].
    + intros d' Hd'. destruct Hs as (Hd & _). rewrite Hd in Hd'.
      inversion Hd'; subst d'. repeat split; assumption.
  - exists evs, [], [], []. rewrite Hm. cbn [snd app].
    split; [|split; [|split]].
    + rewrite trace_log_events, List.app_nil_r. reflexivity.
    + exact Hp.
    + intros H. contradiction H. reflexivity.
    + intros d _. repeat split; constructor.
Qed.

(** * Completed runs *)

Lemma three_modes_ok (env : Env) (mm : meta_model_t) (cfg : config)
      (data : ndarray) (d : string) (s s' : state) :
  three_modes env mm cfg data d s = (Ok tt, s') ->
  exists s1 s2,
    single_shot_mode env mm (LOSS_FUNC cfg) data (mode_dir d "single") s
      = (Ok tt, s1) /\
    adaptive_mode env Debevec mm (LOSS_FUNC cfg) cfg data
                  (mode_dir d "adapt_debevec") s1 = (Ok tt, s2) /\
    adaptive_mode env Hdrcnn mm (LOSS_FUNC cfg) cfg data
                  (mode_dir d "adapt_hdrcnn") s2 = (Ok tt, s').
Proof.
  unfold three_modes, bind. cbn [adaptive_mode].
  destruct (single_shot_mode env mm (LOSS_FUNC cfg) data _ s)
    as [[[]|e1] s1] eqn:E1; [|discriminate].
  destruct (debevec_mode env mm (LOSS_FUNC cfg) cfg data _ s1)
    as [[[]|e2] s2] eqn:E2; [|discriminate].
  intros H. exists s1, s2. split; [reflexivity|]. split; [exact E2|exact H].
Qed.

Lemma main_ok_starts (env : Env) (args : args_t) (s s' : state) :
  main env args s = (Ok tt, s') ->
  exists d ckpt, starts env args d ckpt.
Proof.
  intros H. destruct (main_cases env args s) as [Hs|(e & evs & Hm & _)];
    [exact Hs|]. rewrite Hm in H. discriminate H.
Qed.

Lemma completed_trace (env : Env) (mm : meta_model_t) (cfg : config)
      (data : ndarray) (d : string) (s s' : state) :
  three_modes env mm cfg data d s = (Ok tt, s') ->
  exists a2 b2,
    shape0 data <> 0 /\ shape1 data <> 1 /\
    (2 <= NUM_EXPOSURES cfg)%Z /\
    rng_calls s' = rng_calls s + 2 * shape0 data /\
    trace s' =
      trace s ++
      single_shot_trace data (mode_dir d "single")
                        (eval_single_ssim s') (eval_single_psnr s') ++
      adaptive_trace env Debevec cfg data (mode_dir d "adapt_debevec")
                     (rng_calls s) a2 b2 ++
      adaptive_trace env Hdrcnn cfg data (mode_dir d "adapt_hdrcnn")
                     (rng_calls s + shape0 data)
                     (eval_adaptive_ssim s') (eval_adaptive_psnr s').
Proof.
  intros H. apply three_modes_ok in H. destruct H as (s1 & s2 & H1 & H2 & H3).
  pose proof (single_shot_mode_ok _ _ _ _ _ _ _ H1)
    as (Hd & Ht1 & _ & _ & _ & _ & Hr1).
  pose proof (adaptive_mode_ok _ _ _ _ _ _ _ _ _ H2)
    as (Hn & Ht2 & _ & _ & Hs2a & Hs2b & _ & Hr2).
  pose proof (adaptive_mode_ok _ _ _ _ _ _ _ _ _ H3)
    as (_ & Ht3 & _ & _ & Hs3a & Hs3b & _ & Hr3).
  cbv zeta in *.
  exists (eval_adaptive_ssim s2), (eval_adaptive_psnr s2).
  split; [exact Hn|]. split.
  { intros E. apply Hd. apply single_divisor_zero. right. exact E. }
  split.
  { destruct (Z_lt_ge_dec (NUM_EXPOSURES cfg) 2) as [Hlt|Hge]; [|lia].
    exfalso.
    destruct (adaptive_mode_fails_few env mm (LOSS_FUNC cfg) cfg data
                (mode_dir d "adapt_debevec") Hlt Debevec s1) as (e & s0 & Hf).
    rewrite Hf in H2. discriminate H2. }
  split; [lia|].
  rewrite Ht3, Ht2, Ht1. unfold single_shot_trace, adaptive_trace.
  rewrite Hs3a, Hs3b, Hs2a, Hs2b, Hr2, Hr1.
  rewrite <- !List.app_assoc. reflexivity.
Qed.

(** * Start-up, single-shot mode and completed runs *)

(** X1.  The start-up of [main] fails at the first of four steps that
    cannot be done, in program order, whatever is wrong further on: no
    model directory ([osp.join(None, ...)] raises [TypeError] before any
    directory is made), no GPU (the GPU log line raises after the output
    directories and the logger were made and before the configuration
    is read, so the [cpu] fallback of line 20 is never used), a loss
    function that is not supported (line 50, before the checkpoint is
    touched), a checkpoint that does not load (before the data set is
    made).  When the four succeed, [main] is the three modes run from
    the state the start-up leaves. *)
Theorem startup_checks_in_order :
  forall (env : Env) (args : args_t) (s : state),
    (model_dir args = None ->
     main env args s =
     (Raise TypeError,
      log_events [EvPrint "--- Evaluating on meta-test set ---"] s)) /\
    (forall d,
        model_dir args = Some d -> cuda_is_available env = false ->
        main env args s =
        (Raise CudaError, log_events (directory_events d) s)) /\
    (forall d,
        model_dir args = Some d -> cuda_is_available env = true ->
        ~ In (LOSS_FUNC (load_cfg env args)) valid_loss_funcs ->
        main env args s =
        (Raise (AssertionError
                  ("[CONFIG] evaluation loss function '"
                   ++ LOSS_FUNC (load_cfg env args) ++ "' not valid")%string),
         log_events (directory_events d ++ config_events args) s)) /\
    (forall d,
        model_dir args = Some d -> cuda_is_available env = true ->
        In (LOSS_FUNC (load_cfg env args)) valid_loss_funcs ->
        torch_load env (model_path_of d (use_best args)) = None ->
        main env args s =
        (Raise (FileNotFoundError (model_path_of d (use_best args))),
         log_events (directory_events d ++ config_events args ++
                     [EvGetLossFunc (LOSS_FUNC (load_cfg env args));
                      EvTorchLoad (model_path_of d (use_best args))]) s)) /\
    (forall d ckpt,
        starts env args d ckpt ->
        main env args s =
        three_modes env (loaded_model (load_cfg env args) ckpt)
                    (load_cfg env args)
                    (meta_test_data env (NUM_EXPOSURES (load_cfg env args))) d
                    (log_events
                       (startup_events args d (load_cfg env args) ckpt) s)).
Proof.
  intros env args s. split; [apply main_without_model_dir|].
  split; [intros d; apply main_without_gpu|].
  split; [intros d; apply main_invalid_loss_func|].
  split; [intros d; apply main_without_checkpoint|].
  intros d ckpt. apply main_starts.
Qed.

Lemma startup_checks_in_order_witness :
  fst (main (Faulty.no_gpu (Demo.env 3 "L1Loss" 2 (seq 1 6))) Demo.args
            init_state) = Raise CudaError /\
  fst (main (Faulty.no_checkpoint (Demo.env 3 "SSIMLoss" 2 (seq 1 6)))
            Demo.args init_state) =
    Raise (FileNotFoundError "out/model_best.pth.tar") /\
  fst (main (Demo.env 3 "SSIMLoss" 2 (seq 1 6))
            {| model_dir := None; use_best := true; cfg_path := None |}
            init_state) = Raise TypeError.
Proof.
  split; [|split].
  - destruct (startup_checks_in_order
                (Faulty.no_gpu (Demo.env 3 "L1Loss" 2 (seq 1 6))) Demo.args
                init_state) as (_ & H & _).
    rewrite (H "out" eq_refl eq_refl). reflexivity.
  - destruct (startup_checks_in_order
                (Faulty.no_checkpoint (Demo.env 3 "SSIMLoss" 2 (seq 1 6)))
                Demo.args init_state) as (_ & _ & _ & H & _).
    rewrite (H "out" eq_refl eq_refl).
    + reflexivity.
    + apply str_in_spec. vm_compute. reflexivity.
    + reflexivity.
  - destruct (startup_checks_in_order
                (Demo.env 3 "SSIMLoss" 2 (seq 1 6))
                {| model_dir := None; use_best := true; cfg_path := None |}
                init_state) as (H & _).
    rewrite (H eq_refl). reflexivity.
Defined.

(** X2.  The single-shot mode fails in exactly one way: when the data
    set has no scene, or one image per scene (the reference alone), the
    divisor of lines 90-91 is zero and the division raises
    [ZeroDivisionError], after the loops made no evaluation at all.  On
    any other data set the mode completes; it raises nothing else.  In
    [main] such a data set ends the run with that exception once the
    start-up is through, without a single evaluation. *)
Theorem single_shot_outcome :
  forall (env : Env) (mm : meta_model_t) (loss : string) (data : ndarray)
         (dir : string) (s : state),
    (shape0 data = 0 \/ shape1 data = 1 ->
     single_shot_mode env mm loss data dir s =
     (Raise ZeroDivisionError,
      set_idx 0 (set_single 0 0
        (log_event (EvPrint "Performing Single-Shot Evaluation") s)))) /\
    (shape0 data <> 0 -> shape1 data <> 1 ->
     exists s', single_shot_mode env mm loss data dir s = (Ok tt, s')) /\
    (forall e s',
        single_shot_mode env mm loss data dir s = (Raise e, s') ->
        e = ZeroDivisionError /\ (shape0 data = 0 \/ shape1 data = 1)) /\
    (forall args d ckpt,
        starts env args d ckpt ->
        data = meta_test_data env (NUM_EXPOSURES (load_cfg env args)) ->
        shape0 data = 0 \/ shape1 data = 1 ->
        fst (main env args s) = Raise ZeroDivisionError /\
        evaluations (trace (snd (main env args s))) = evaluations (trace s)).
Proof.
  intros env mm loss data dir s.
  split; [apply single_shot_mode_raises|].
  split; [apply single_shot_mode_returns|].
  split.
  - intros e s' H.
    destruct (yields_single_shot_mode env mm loss data dir s)
      as (evs & _ & _ & Hr).
    rewrite H in Hr. exact Hr.
  - intros args d ckpt Hs Hdata H0.
    rewrite (main_starts env args d ckpt s Hs). rewrite <- Hdata.
    unfold three_modes.
    erewrite bind_raise; [|apply single_shot_mode_raises; exact H0].
    cbn [fst snd]. split; [reflexivity|].
    cbn [trace set_idx set_single log_event].
    rewrite trace_log_events, <- List.app_assoc, evaluations_app.
    unfold startup_events, directory_events, config_events. cbn.
    apply List.app_nil_r.
Qed.

Lemma single_shot_outcome_witness :
  (shape0 (Demo.data 0 4) = 0 \/ shape1 (Demo.data 0 4) = 1) /\
  fst (single_shot_mode (Demo.env 3 "SSIMLoss" 0 []) Demo.model "SSIMLoss"
                        (Demo.data 0 4) "out" init_state)
  = Raise ZeroDivisionError /\
  fst (main (Demo.env 0 "SSIMLoss" 2 []) Demo.args init_state)
  = Raise ZeroDivisionError.
Proof.
  split; [left; reflexivity|]. split.
  - destruct (single_shot_outcome (Demo.env 3 "SSIMLoss" 0 []) Demo.model
                "SSIMLoss" (Demo.data 0 4) "out" init_state) as (H & _).
    rewrite H; [reflexivity | left; reflexivity].
  - destruct (single_shot_outcome (Demo.env 0 "SSIMLoss" 2 []) Demo.model
                "SSIMLoss" (Demo.data 2 1) "out" init_state)
      as (_ & _ & _ & H).
    apply (H Demo.args "out"
             {| performance := 1%Q; epoch := 3; unet_state_dict := [1%Q] |}).
    + repeat split. apply str_in_spec. vm_compute. reflexivity.
    + reflexivity.
    + right. reflexivity.
Defined.

Lemma demo_well_formed :
  well_formed (Demo.env 3 "SSIMLoss" 2 (seq 1 6)) (Demo.cfg 3 "SSIMLoss")
              (Demo.data 2 4) 3.
Proof.
  split; [reflexivity|]. split; [lia|]. split; [reflexivity|].
  split; [discriminate|]. intros c. apply rotate_3_perm.
Qed.

Lemma demo_labels_present :
  labels_present (Demo.env 3 "SSIMLoss" 2 (seq 1 6)) (Demo.data 2 4) 3.
Proof.
  intros i e Hi He.
  assert (Hc : (i = 0 \/ i = 1) /\ (e = 1 \/ e = 2 \/ e = 3))
    by (cbn [shape0 Demo.data] in Hi; lia).
  destruct Hc as [[Ei|Ei] [Ee|[Ee|Ee]]]; subst i e; vm_compute; discriminate.
Qed.

Lemma demo_starts :
  starts (Demo.env 3 "SSIMLoss" 2 (seq 1 6)) Demo.args "out"
         {| performance := 1%Q; epoch := 3; unet_state_dict := [1%Q] |}.
Proof.
  repeat split. apply str_in_spec. vm_compute. reflexivity.
Qed.

(** X3.  A run completes when its start-up succeeds, the configuration
    asks for K >= 2 exposures, the data set has at least one scene with
    K + 1 images each, the generator returns permutations and every
    baseline-label file of the scenes' exposures 1..K exists.  It then
    has drawn two splits per scene and made K + 2 evaluation calls per
    scene (K single-shot, one Debevec-adapted, one HDRCNN-adapted).
    (As everywhere in this model, the evaluation routines are taken to
    return and the arrays that are stacked to have one shape.) *)
Theorem complete_run :
  forall (env : Env) (args : args_t) (d : string) (ckpt : checkpoint_t)
         (K : nat) (s : state),
    starts env args d ckpt ->
    well_formed env (load_cfg env args)
                (meta_test_data env (NUM_EXPOSURES (load_cfg env args))) K ->
    labels_present env
                   (meta_test_data env (NUM_EXPOSURES (load_cfg env args))) K ->
    exists s',
      main env args s = (Ok tt, s') /\
      rng_calls s' =
        rng_calls s
        + 2 * shape0 (meta_test_data env (NUM_EXPOSURES (load_cfg env args))) /\
      List.length (evaluations (trace s')) =
        List.length (evaluations (trace s))
        + shape0 (meta_test_data env (NUM_EXPOSURES (load_cfg env args)))
          * (K + 2).
Proof.
  intros env args d ckpt K s Hs Hwf Hlab.
  set (cfg := load_cfg env args) in *.
  set (data := meta_test_data env (NUM_EXPOSURES cfg)) in *.
  set (mm := loaded_model cfg ckpt).
  set (s0 := log_events (startup_events args d cfg ckpt) s).
  pose proof Hwf as (HK & H2 & Hm & Hn & Hrng).
  destruct (single_shot_mode_returns env mm (LOSS_FUNC cfg) data
              (mode_dir d "single") s0) as (s1 & H1); [exact Hn | lia |].
  destruct (adaptive_mode_completes env mm (LOSS_FUNC cfg) cfg data
              (mode_dir d "adapt_debevec") K Hwf Debevec s1 I) as (s2 & Hd2).
  destruct (adaptive_mode_completes env mm (LOSS_FUNC cfg) cfg data
              (mode_dir d "adapt_hdrcnn") K Hwf Hdrcnn s2 Hlab) as (s3 & Hd3).
  assert (Hrun : three_modes env mm cfg data d s0 = (Ok tt, s3)).
  { unfold three_modes. rewrite (bind_ok _ _ _ _ _ H1).
    cbn [adaptive_mode] in Hd2, Hd3. rewrite (bind_ok _ _ _ _ _ Hd2).
    exact Hd3. }
  exists s3. rewrite (main_starts env args d ckpt s Hs).
  fold cfg. fold data. fold mm. fold s0. split; [exact Hrun|].
  destruct (completed_trace _ _ _ _ _ _ _ Hrun)
    as (a2 & b2 & _ & _ & _ & Hr & Ht).
  assert (Hr0 : rng_calls s0 = rng_calls s)
    by (subst s0; apply log_events_fields).
  split; [rewrite Hr, Hr0; reflexivity|].
  rewrite Ht. subst s0. rewrite trace_log_events.
  unfold single_shot_trace, adaptive_trace.
  rewrite !evaluations_app.
  destruct (evaluations_single env mm (LOSS_FUNC cfg) (mode_dir d "single")
              (single_calls data)) as [Es _].
  rewrite Es.
  destruct (evaluations_adaptive env mm (LOSS_FUNC cfg) Debevec data
              (NUM_EXPOSURES cfg) (NUM_TASK_TR_ITER cfg)
              (mode_dir d "adapt_debevec") (seq 0 (shape0 data))
              (rng_calls (log_events (startup_events args d cfg ckpt) s)))
    as [Ed _].
  destruct (evaluations_adaptive env mm (LOSS_FUNC cfg) Hdrcnn data
              (NUM_EXPOSURES cfg) (NUM_TASK_TR_ITER cfg)
              (mode_dir d "adapt_hdrcnn") (seq 0 (shape0 data))
              (rng_calls (log_events (startup_events args d cfg ckpt) s)
               + shape0 data))
    as [Eh _].
  cbv zeta in Ed, Eh. rewrite Ed, Eh.
  unfold startup_events, directory_events, config_events. cbn [app evaluations filter is_evaluation].
  rewrite !List.length_app, !List.length_map, List.length_seq.
  unfold single_calls. rewrite length_numbered, length_single_pairs.
  cbn [List.length]. rewrite Hm. nia.
Qed.

Lemma complete_run_witness :
  starts (Demo.env 3 "SSIMLoss" 2 (seq 1 6)) Demo.args "out"
         {| performance := 1%Q; epoch := 3; unet_state_dict := [1%Q] |} /\
  exists s',
    main (Demo.env 3 "SSIMLoss" 2 (seq 1 6)) Demo.args init_state
    = (Ok tt, s') /\
    rng_calls s' = 4 /\ List.length (evaluations (trace s')) = 10.
Proof.
  split; [exact demo_starts|].
  destruct (complete_run (Demo.env 3 "SSIMLoss" 2 (seq 1 6)) Demo.args "out"
              {| performance := 1%Q; epoch := 3; unet_state_dict := [1%Q] |}
              3 init_state demo_starts demo_well_formed demo_labels_present)
    as (s' & Hrun & Hr & Hl).
  exists s'. split; [exact Hrun|]. split; [exact Hr | exact Hl].
Defined.

(** X4.  What a completed run has done, and what it needed.  If [main]
    returns, its start-up succeeded, the data set has a scene and more
    than the reference image per scene, and at least two exposures are
    configured.  Its trace is the start-up followed by the three
    modes, each a banner, its evaluation calls in scene order and its
    two results: the single-shot results are the ones left in the
    single-shot accumulators, the HDRCNN results the ones left in the
    adaptive accumulators (which held the Debevec results before).  The
    Debevec mode splits scene [i] by draw [c + i] of the generator and
    the HDRCNN mode by draw [c + n + i], where [c] draws had been made
    before and [n] is the number of scenes: the two modes never share a
    split, and the run has made [2 n] draws. *)
Theorem completed_run_trace :
  forall (env : Env) (args : args_t) (s s' : state),
    main env args s = (Ok tt, s') ->
    exists d ckpt a2 b2,
      starts env args d ckpt /\
      shape0 (meta_test_data env (NUM_EXPOSURES (load_cfg env args))) <> 0 /\
      shape1 (meta_test_data env (NUM_EXPOSURES (load_cfg env args))) <> 1 /\
      (2 <= NUM_EXPOSURES (load_cfg env args))%Z /\
      rng_calls s' =
        rng_calls s
        + 2 * shape0 (meta_test_data env (NUM_EXPOSURES (load_cfg env args))) /\
      trace s' =
        trace s ++
        startup_events args d (load_cfg env args) ckpt ++
        single_shot_trace
          (meta_test_data env (NUM_EXPOSURES (load_cfg env args)))
          (mode_dir d "single") (eval_single_ssim s') (eval_single_psnr s') ++
        adaptive_trace env Debevec (load_cfg env args)
          (meta_test_data env (NUM_EXPOSURES (load_cfg env args)))
          (mode_dir d "adapt_debevec") (rng_calls s) a2 b2 ++
        adaptive_trace env Hdrcnn (load_cfg env args)
          (meta_test_data env (NUM_EXPOSURES (load_cfg env args)))
          (mode_dir d "adapt_hdrcnn")
          (rng_calls s
           + shape0 (meta_test_data env (NUM_EXPOSURES (load_cfg env args))))
          (eval_adaptive_ssim s') (eval_adaptive_psnr s').
Proof.
  intros env args s s' H.
  destruct (main_ok_starts env args s s' H) as (d & ckpt & Hs).
  rewrite (main_starts env args d ckpt s Hs) in H.
  destruct (completed_trace _ _ _ _ _ _ _ H)
    as (a2 & b2 & Hn & Hm & HK & Hr & Ht).
  exists d, ckpt, a2, b2.
  pose proof (log_events_fields
                (startup_events args d (load_cfg env args) ckpt) s)
    as (_ & _ & _ & _ & _ & Hr0).
  rewrite Hr0 in Hr, Ht. rewrite trace_log_events in Ht.
  repeat (split; [assumption|]).
  rewrite Ht, <- !List.app_assoc. reflexivity.
Qed.

Lemma completed_run_trace_witness :
  main (Demo.env 3 "SSIMLoss" 2 (seq 1 6)) Demo.args init_state =
  (Ok tt, snd (main (Demo.env 3 "SSIMLoss" 2 (seq 1 6)) Demo.args init_state))
  /\
  rng_calls (snd (main (Demo.env 3 "SSIMLoss" 2 (seq 1 6)) Demo.args
                       init_state)) = 4.
Proof.
  assert (H : main (Demo.env 3 "SSIMLoss" 2 (seq 1 6)) Demo.args init_state =
              (Ok tt, snd (main (Demo.env 3 "SSIMLoss" 2 (seq 1 6)) Demo.args
                                init_state)))
    by (vm_compute; reflexivity).
  split; [exact H|].
  destruct (completed_run_trace _ _ _ _ H)
    as (d & ckpt & a2 & b2 & _ & _ & _ & _ & Hr & _).
  rewrite Hr. reflexivity.
Defined.

(** * The label files of the baseline *)

Lemma append_inv_head (a b c : string) :
  (a ++ b)%string = (a ++ c)%string -> b = c.
Proof.
  induction a as [|x a IH]; simpl; intros H; [exact H|].
  inversion H. apply IH. assumption.
Qed.

Lemma append_inv_tail (a b c : string) :
  (a ++ c)%string = (b ++ c)%string -> a = b.
Proof.
  revert b. induction a as [|x a IH]; intros [|y b] H; simpl in H.
  - reflexivity.
  - exfalso. apply (f_equal String.length) in H. simpl in H.
    rewrite length_append in H. lia.
  - exfalso. apply (f_equal String.length) in H. simpl in H.
    rewrite length_append in H. lia.
  - inversion H. f_equal. apply IH. assumption.
Qed.

Lemma int_of_format_0d (w n : nat) :
  Py.int_of_str (Py.format_0d w n) = Some n.
Proof.
  unfold Py.format_0d. cbv zeta. rewrite int_of_zeros.
  apply int_of_str_of_nat.
Qed.

Lemma label_file_name_inj (a b : nat) :
  label_file_name a = label_file_name b -> a = b.
Proof.
  unfold label_file_name. intros H. apply append_inv_tail in H.
  apply (f_equal Py.int_of_str) in H. rewrite !int_of_format_0d in H.
  inversion H. reflexivity.
Qed.

Lemma label_path_inj (env : Env) (n s s' i i' : nat) :
  label_path env n s i = label_path env n s' i' ->
  hdrcnn_image_idx s i n = hdrcnn_image_idx s' i' n.
Proof.
  unfold label_path. intros H.
  apply append_inv_head in H. apply append_inv_head in H.
  apply label_file_name_inj. exact H.
Qed.

Lemma hdrcnn_image_idx_cases (s i n : nat) :
  (i = 1 /\ hdrcnn_image_idx s i n = s + 1 + n) \/
  (i = 3 /\ hdrcnn_image_idx s i n = s + 1 + 2 * n) \/
  (i <> 1 /\ i <> 3 /\ hdrcnn_image_idx s i n = s + 1).
Proof.
  unfold hdrcnn_image_idx. cbv zeta.
  destruct (Nat.eqb_spec i 1); [left; lia|].
  destruct (Nat.eqb_spec i 2); [right; right; lia|].
  destruct (Nat.eqb_spec i 3); [right; left; lia|].
  right; right; lia.
Qed.

(** X5.  The label files of the HDRCNN baseline are laid out without
    overlap: over the scenes [s < n] of the data set and the exposures
    1, 2, 3, distinct (scene, exposure) pairs are read from distinct
    files, the file index runs through 1..3n (exposure 2 takes 1..n,
    exposure 1 takes n+1..2n, exposure 3 takes 2n+1..3n), and every
    index of 1..3n is the file of one pair.  File names of different
    indices differ, also beyond six digits. *)
Theorem label_files_distinct :
  forall (env : Env) (n s i : nat),
    s < n -> 1 <= i <= 3 ->
    1 <= hdrcnn_image_idx s i n <= 3 * n /\
    (forall s' i',
        s' < n -> 1 <= i' <= 3 ->
        label_path env n s i = label_path env n s' i' ->
        s = s' /\ i = i') /\
    (forall image_idx,
        1 <= image_idx <= 3 * n ->
        exists s' i',
          s' < n /\ 1 <= i' <= 3 /\
          hdrcnn_image_idx s' i' n = image_idx /\
          label_path env n s' i' =
          (load_dir env ++ "/" ++ label_file_name image_idx)%string) /\
    (forall a b, label_file_name a = label_file_name b -> a = b).
Proof.
  intros env n s i Hs Hi.
  pose proof (hdrcnn_image_idx_cases s i n) as Hc.
  split; [lia|]. split; [|split; [|apply label_file_name_inj]].
  - intros s' i' Hs' Hi' H. apply label_path_inj in H.
    pose proof (hdrcnn_image_idx_cases s' i' n) as Hc'. lia.
  - intros image_idx Hx.
    assert (Hcase : image_idx <= n \/ n < image_idx <= 2 * n \/
                    2 * n < image_idx) by lia.
    destruct Hcase as [H|[H|H]].
    + exists (image_idx - 1), 2. split; [lia|]. split; [lia|].
      assert (E : hdrcnn_image_idx (image_idx - 1) 2 n = image_idx)
        by (unfold hdrcnn_image_idx; simpl; lia).
      split; [exact E|]. unfold label_path. rewrite E. reflexivity.
    + exists (image_idx - 1 - n), 1. split; [lia|]. split; [lia|].
      assert (E : hdrcnn_image_idx (image_idx - 1 - n) 1 n = image_idx)
        by (unfold hdrcnn_image_idx; simpl; lia).
      split; [exact E|]. unfold label_path. rewrite E. reflexivity.
    + exists (image_idx - 1 - 2 * n), 3. split; [lia|]. split; [lia|].
      assert (E : hdrcnn_image_idx (image_idx - 1 - 2 * n) 3 n = image_idx)
        by (unfold hdrcnn_image_idx; simpl; lia).
      split; [exact E|]. unfold label_path. rewrite E. reflexivity.
Qed.

Lemma label_files_distinct_witness :
  (1 < 2 /\ 1 <= 3 <= 3) /\
  1 <= hdrcnn_image_idx 1 3 2 <= 3 * 2 /\
  label_path (Demo.env 3 "SSIMLoss" 2 (seq 1 6)) 2 1 3 <>
  label_path (Demo.env 3 "SSIMLoss" 2 (seq 1 6)) 2 0 1.
Proof.
  split; [lia|].
  destruct (label_files_distinct (Demo.env 3 "SSIMLoss" 2 (seq 1 6)) 2 1 3)
    as (Hr & Hd & _); [lia | lia |].
  split; [exact Hr|].
  intros E. destruct (Hd 0 1) as [E1 _]; [lia | lia | exact E | discriminate E1].
Defined.

(** * What a run reads and where it writes *)

Lemma main_events (env : Env) (args : args_t) (s : state) :
  let cfg := load_cfg env args in
  let data := meta_test_data env (NUM_EXPOSURES cfg) in
  exists evs,
    trace (snd (main env args s)) = trace s ++ evs /\
    forall e, In e evs ->
      startup_event args e \/
      exists d,
        model_dir args = Some d /\
        (single_shot_event data (mode_dir d "single") e \/
         adaptive_event env Debevec cfg data (mode_dir d "adapt_debevec") e \/
         adaptive_event env Hdrcnn cfg data (mode_dir d "adapt_hdrcnn") e).
Proof.
  intros cfg data.
  destruct (main_trace env args s)
    as (pre & evs1 & evs2 & evs3 & Ht & Hp & Hne & Hty).
  exists (pre ++ evs1 ++ evs2 ++ evs3). split; [exact Ht|].
  intros e He. apply in_app_or in He. destruct He as [He|He].
  - left. eapply Forall_forall; [exact Hp | exact He].
  - right. destruct Hne as (d & ckpt & Hs & _).
    { intros E. rewrite E in He. destruct He. }
    exists d. split; [apply Hs|].
    destruct (Hty d) as (H1 & H2 & H3); [apply Hs|].
    apply in_app_or in He. destruct He as [He|He].
    + left. eapply Forall_forall; [exact H1 | exact He].
    + apply in_app_or in He. destruct He as [He|He].
      * right. left. eapply Forall_forall; [exact H2 | exact He].
      * right. right. eapply Forall_forall; [exact H3 | exact He].
Qed.

Lemma no_imreads (P : event -> Prop) (evs : list event) :
  Forall P evs -> (forall p, ~ P (EvImread p)) -> imreads evs = [].
Proof.
  intros H Hn. induction H as [|e evs He _ IH]; [reflexivity|].
  cbn [imreads flat_map]. fold (imreads evs). rewrite IH.
  destruct e; try reflexivity. exfalso. eapply Hn. exact He.
Qed.

(** X6.  Label files are read by the HDRCNN-adapted mode alone, and
    only from the baseline's output directory: in any run of [main],
    complete or not, every file read with [io.imread] is
    [load_dir/NNNNNN_out.png] for the index of a scene of the data set
    and an exposure of 1..K, an index between 1 and three data-set
    lengths.  The single-shot mode and the Debevec-adapted mode read no
    file, whether they complete or fail. *)
Theorem label_reads_confined :
  forall (env : Env) (args : args_t) (mm : meta_model_t) (loss : string)
         (cfg : config) (data : ndarray) (dir : string) (s : state),
    (exists evs,
        trace (snd (main env args s)) = trace s ++ evs /\
        forall p, In (EvImread p) evs ->
          let n := shape0 (meta_test_data env
                             (NUM_EXPOSURES (load_cfg env args))) in
          exists i x,
            i < n /\
            (1 <= Z.of_nat x <= NUM_EXPOSURES (load_cfg env args))%Z /\
            1 <= hdrcnn_image_idx i x n <= 3 * n /\
            p = (load_dir env ++ "/"
                 ++ label_file_name (hdrcnn_image_idx i x n))%string) /\
    (exists evs,
        trace (snd (single_shot_mode env mm loss data dir s)) =
          trace s ++ evs /\
        imreads evs = []) /\
    (exists evs,
        trace (snd (debevec_mode env mm loss cfg data dir s)) =
          trace s ++ evs /\
        imreads evs = []).
Proof.
  intros env args mm loss cfg data dir s. split; [|split].
  - destruct (main_events env args s) as (evs & Ht & He).
    exists evs. split; [exact Ht|]. intros p Hp n.
    destruct (He _ Hp) as [H|(d & _ & [H|[H|H]])]; cbn in H;
      try contradiction.
    + destruct H as [H _]. discriminate H.
    + destruct H as (_ & i & x & Hi & Hx & E). exists i, x.
      split; [exact Hi|]. split; [exact Hx|].
      pose proof (hdrcnn_image_idx_cases i x n) as Hc.
      split; [fold n in Hi; lia | exact E].
  - destruct (yields_single_shot_mode env mm loss data dir s)
      as (evs & Ht & Hp & _).
    exists evs. split; [exact Ht|].
    apply (no_imreads _ _ Hp). intros p H. exact H.
  - destruct (yields_adaptive_mode env Debevec mm loss cfg data dir s)
      as (evs & Ht & Hp & _).
    exists evs. split; [exact Ht|].
    apply (no_imreads _ _ Hp). intros p [H _]. discriminate H.
Qed.



(** * The model directory and the checkpoint *)

Lemma string_append_assoc (a b c : string) :
  ((a ++ b) ++ c)%string = (a ++ b ++ c)%string.
Proof. induction a as [|x a IH]; simpl; [reflexivity | rewrite IH; reflexivity]. Qed.

Lemma ends_with_slash_append (a : string) :
  Py.ends_with_slash (a ++ "/") = true.
Proof.
  induction a as [|x a IH]; [reflexivity|].
  destruct a as [|y a]; [reflexivity|]. exact IH.
Qed.

Lemma osp_join_trailing_slash (d b : string) :
  d <> "" -> Py.ends_with_slash d = false ->
  Py.osp_join (d ++ "/") b = Py.osp_join d b.
Proof.
  intros Hd Hs. unfold Py.osp_join. rewrite Hs, ends_with_slash_append.
  destruct d as [|x d]; [contradiction Hd; reflexivity|].
  cbn [append]. rewrite string_append_assoc. reflexivity.
Qed.

Lemma bind_emit {B} (e : event) (k : unit -> M B) (s : state) :
  bind (emit e) k s = k tt (log_event e s).
Proof. reflexivity. Qed.

Lemma bind_ret {A B} (a : A) (k : A -> M B) (s : state) :
  bind (ret a) k s = k a s.
Proof. reflexivity. Qed.

(** X8.  A trailing slash on the model directory changes nothing: for
    a non-empty directory name that does not end in a slash, the run on
    that name followed by a slash makes the same directories, loads the
    same checkpoint, and ends in the same state with the same outcome. *)
Theorem trailing_slash_irrelevant :
  forall (env : Env) (args : args_t) (d : string) (s : state),
    model_dir args = Some d ->
    d <> "" -> Py.ends_with_slash d = false ->
    main env {| model_dir := Some (d ++ "/")%string;
                use_best := use_best args;
                cfg_path := cfg_path args |} s =
    main env args s.
Proof.
  intros env args d s Hd Hne Hs. unfold main.
  cbn [model_dir use_best cfg_path]. rewrite Hd.
  rewrite !bind_emit, !bind_ret. cbv beta zeta.
  unfold model_path_of, load_cfg. cbn [cfg_path].
  rewrite !(osp_join_trailing_slash d) by assumption.
  reflexivity.
Qed.

Lemma trailing_slash_irrelevant_witness :
  main (Demo.env 3 "SSIMLoss" 2 (seq 1 6))
       {| model_dir := Some "out/"; use_best := true; cfg_path := None |}
       init_state =
  main (Demo.env 3 "SSIMLoss" 2 (seq 1 6)) Demo.args init_state.
Proof.
  apply (trailing_slash_irrelevant (Demo.env 3 "SSIMLoss" 2 (seq 1 6))
           Demo.args "out" init_state).
  - reflexivity.
  - discriminate.
  - reflexivity.
Defined.

Lemma main_torch_load (env : Env) (args : args_t) (d : string) (s : state) :
  model_dir args = Some d ->
  exists evs,
    trace (snd (main env args s)) = trace s ++ evs /\
    (forall p, In (EvTorchLoad p) evs -> p = model_path_of d (use_best args)) /\
    (cuda_is_available env = true ->
     In (LOSS_FUNC (load_cfg env args)) valid_loss_funcs ->
     In (EvTorchLoad (model_path_of d (use_best args))) evs).
Proof.
  intros Hd.
  destruct (cuda_is_available env) eqn:Hc.
  2:{ exists (directory_events d).
      rewrite (main_without_gpu env args d s Hd Hc). cbn [snd].
      split; [apply trace_log_events|]. split; [|discriminate].
      intros p Hin. cbn in Hin.
      repeat (destruct Hin as [Hin|Hin]; [discriminate Hin|]). destruct Hin. }
  destruct (in_dec string_dec (LOSS_FUNC (load_cfg env args)) valid_loss_funcs)
    as [Hl|Hl].
  2:{ exists (directory_events d ++ config_events args).
      rewrite (main_invalid_loss_func env args d s Hd Hc Hl). cbn [snd].
      split; [apply trace_log_events|]. split; [|intros _ H; contradiction].
      intros p Hin. cbn in Hin.
      repeat (destruct Hin as [Hin|Hin]; [discriminate Hin|]). destruct Hin. }
  destruct (torch_load env (model_path_of d (use_best args)))
    as [ckpt|] eqn:El.
  - assert (Hs : starts env args d ckpt) by (repeat split; assumption).
    rewrite (main_starts env args d ckpt s Hs).
    destruct (three_modes_trace env
                (loaded_model (load_cfg env args) ckpt) (load_cfg env args)
                (meta_test_data env (NUM_EXPOSURES (load_cfg env args))) d
                (log_events
                   (startup_events args d (load_cfg env args) ckpt) s))
      as (e1 & e2 & e3 & Ht & H1 & H2 & H3 & _).
    rewrite Forall_forall in H1, H2, H3.
    exists (startup_events args d (load_cfg env args) ckpt ++ e1 ++ e2 ++ e3).
    split; [rewrite Ht, trace_log_events, <- !List.app_assoc; reflexivity|].
    split.
    + intros p Hin. apply in_app_or in Hin. destruct Hin as [Hin|Hin].
      * cbn in Hin.
        repeat (destruct Hin as [Hin|Hin];
                [try discriminate Hin; inversion Hin; reflexivity|]).
        destruct Hin.
      * exfalso. apply in_app_or in Hin.
        destruct Hin as [Hin|Hin]; [apply H1 in Hin; exact Hin|].
        apply in_app_or in Hin.
        destruct Hin as [Hin|Hin]; [apply H2 in Hin | apply H3 in Hin];
          exact Hin.
    + intros _ _. apply in_or_app. left. cbn. tauto.
  - rewrite (main_without_checkpoint env args d s Hd Hc Hl El). cbn [snd].
    eexists. split; [apply trace_log_events|]. split.
    + intros p Hin. cbn in Hin.
      repeat (destruct Hin as [Hin|Hin];
              [try discriminate Hin; inversion Hin; reflexivity|]).
      destruct Hin.
    + intros _ _. cbn. tauto.
Qed.

(** X9.  Which checkpoint a command line selects.  With
    [--model_dir d --use_best v] the only checkpoint the run opens is
    [d/model_last.pth.tar] when [v] is the empty string and
    [d/model_best.pth.tar] for every other value ([type=bool] turns any
    non-empty word into [True]); without [--use_best] it is
    [d/model_best.pth.tar].  The run does open it once a GPU is present
    and the loss function is a supported one.  ([d] and [v] are words
    that [argparse] takes for values, that is, they do not begin with a
    dash.) *)
Theorem use_best_value :
  forall (env : Env) (d v : string),
    starts_with_dash d = false -> starts_with_dash v = false ->
    (exists o st,
        script env ["--model_dir"; d; "--use_best"; v] = Some (o, st) /\
        (forall p, In (EvTorchLoad p) (trace st) ->
                   p = Py.osp_join d (if String.eqb v ""
                                      then "model_last.pth.tar"
                                      else "model_best.pth.tar")) /\
        (cuda_is_available env = true ->
         In (LOSS_FUNC (get_cfg_defaults env)) valid_loss_funcs ->
         In (EvTorchLoad (Py.osp_join d (if String.eqb v ""
                                         then "model_last.pth.tar"
                                         else "model_best.pth.tar")))
            (trace st))) /\
    (exists o st,
        script env ["--model_dir"; d] = Some (o, st) /\
        (forall p, In (EvTorchLoad p) (trace st) ->
                   p = Py.osp_join d "model_best.pth.tar") /\
        (cuda_is_available env = true ->
         In (LOSS_FUNC (get_cfg_defaults env)) valid_loss_funcs ->
         In (EvTorchLoad (Py.osp_join d "model_best.pth.tar")) (trace st))).
Proof.
  intros env d v _ _. split.
  - set (args := {| model_dir := Some d; use_best := Py.bool_of_str v;
                    cfg_path := None |}).
    exists (fst (main env args init_state)), (snd (main env args init_state)).
    split; [unfold script; cbn; rewrite <- surjective_pairing; reflexivity|].
    destruct (main_torch_load env args d init_state eq_refl)
      as (evs & Ht & H1 & H2).
    cbn [trace init_state app] in Ht. rewrite Ht.
    assert (E : model_path_of d (use_best args) =
                Py.osp_join d (if String.eqb v "" then "model_last.pth.tar"
                               else "model_best.pth.tar")).
    { unfold model_path_of, args. cbn [use_best].
      destruct v; reflexivity. }
    rewrite <- E. split; [exact H1 | exact H2].
  - set (args := {| model_dir := Some d; use_best := true; cfg_path := None |}).
    exists (fst (main env args init_state)), (snd (main env args init_state)).
    split; [unfold script; cbn; rewrite <- surjective_pairing; reflexivity|].
    destruct (main_torch_load env args d init_state eq_refl)
      as (evs & Ht & H1 & H2).
    cbn [trace init_state app] in Ht. rewrite Ht.
    split; [exact H1 | exact H2].
Qed.

Lemma use_best_value_witness :
  (starts_with_dash "out" = false /\ starts_with_dash "" = false) /\
  exists o st,
    script (Demo.env 3 "SSIMLoss" 2 (seq 1 6))
           ["--model_dir"; "out"; "--use_best"; ""] = Some (o, st) /\
    In (EvTorchLoad "out/model_last.pth.tar") (trace st).
Proof.
  split; [split; reflexivity|].
  destruct (use_best_value (Demo.env 3 "SSIMLoss" 2 (seq 1 6)) "out" ""
              eq_refl eq_refl) as ((o & st & Hrun & _ & Hin) & _).
  exists o, st. split; [exact Hrun|]. apply Hin.
  - reflexivity.
  - apply str_in_spec. vm_compute. reflexivity.
Defined.

(** * Command lines without a model directory *)

Lemma parse_from_model_dir (n : nat) :
  forall (argv : list string) (acc args : args_t),
    List.length argv <= n ->
    parse_from acc argv = Some args ->
    ~ In "--model_dir" argv ->
    model_dir args = model_dir acc.
Proof.
  induction n as [|n IH]; intros argv acc args Hlen Hp Hno.
  - destruct argv; [|simpl in Hlen; lia].
    simpl in Hp. inversion Hp. reflexivity.
  - destruct argv as [|opt [|v rest]]; simpl in Hp.
    + inversion Hp. reflexivity.
    + discriminate Hp.
    + simpl in Hlen.
      assert (Hrest : ~ In "--model_dir" rest).
      { intros H. apply Hno. right. right. exact H. }
      destruct (String.eqb_spec opt "--model_dir") as [E|_].
      { exfalso. apply Hno. left. exact E. }
      destruct (String.eqb opt "--use_best").
      { apply IH in Hp; [exact Hp | lia | exact Hrest]. }
      destruct (String.eqb opt "--cfg"); [|discriminate Hp].
      apply IH in Hp; [exact Hp | lia | exact Hrest].
Qed.

(** X10.  [--model_dir] is not declared as required, so a command line
    without it is accepted by the parser and [main] is entered with
    [args.model_dir = None]: the run prints its banner and dies in
    [osp.join] with [TypeError], before any directory is made.  (The
    command lines meant are sequences of the three declared options,
    each with a value that does not begin with a dash.) *)
Theorem no_model_dir_given :
  forall (env : Env) (argv : list string) (args : args_t),
    plain_values argv = true ->
    parse_args argv = Some args ->
    ~ In "--model_dir" argv ->
    script env argv =
    Some (Raise TypeError,
          log_event (EvPrint "--- Evaluating on meta-test set ---") init_state).
Proof.
  intros env argv args _ Hp Hno. unfold script. rewrite Hp.
  pose proof (parse_from_model_dir (List.length argv) argv default_args args
                (Nat.le_refl _) Hp Hno) as Hd.
  cbn [model_dir default_args] in Hd.
  rewrite (main_without_model_dir env args init_state Hd). reflexivity.
Qed.

Lemma no_model_dir_given_witness :
  (plain_values ["--cfg"; "eval.yaml"; "--use_best"; "True"] = true /\
   ~ In "--model_dir" ["--cfg"; "eval.yaml"; "--use_best"; "True"]) /\
  script (Demo.env 3 "SSIMLoss" 2 (seq 1 6))
         ["--cfg"; "eval.yaml"; "--use_best"; "True"] =
  Some (Raise TypeError,
        log_event (EvPrint "--- Evaluating on meta-test set ---") init_state).
Proof.
  assert (Hno : ~ In "--model_dir" ["--cfg"; "eval.yaml"; "--use_best"; "True"]).
  { intros H. cbn in H.
    repeat (destruct H as [H|H]; [discriminate H|]). exact H. }
  split; [split; [reflexivity | exact Hno]|].
  apply (no_model_dir_given (Demo.env 3 "SSIMLoss" 2 (seq 1 6))
           ["--cfg"; "eval.yaml"; "--use_best"; "True"]
           {| model_dir := None; use_best := true; cfg_path := Some "eval.yaml" |}).
  - reflexivity.
  - reflexivity.
  - exact Hno.
Defined.

(** * Well-formed runs stop at absent label files only *)

Lemma ends_ok {A} (r : outcome A * state) (Q : exn -> Prop) (R : A -> Prop)
      (v : A) (s' : state) :
  r = (Ok v, s') -> R v -> ends r Q R.
Proof. intros -> H. exact H. Qed.

Lemma ends_bind {A B} (c : M A) (k : A -> M B) (s : state)
      (Q : exn -> Prop) (R : A -> Prop) (R' : B -> Prop) :
  ends (c s) Q R ->
  (forall a s1, c s = (Ok a, s1) -> R a -> ends (k a s1) Q R') ->
  ends (bind c k s) Q R'.
Proof.
  unfold ends, bind. intros Hc Hk.
  destruct (c s) as [[a|e] s1]; cbn [fst] in *.
  - apply (Hk a s1 eq_refl Hc).
  - exact Hc.
Qed.

Lemma ends_for {A} (l : list A) (body : A -> M unit) (Q : exn -> Prop)
      (s : state) :
  (forall x t, In x l -> ends (body x t) Q (fun _ => True)) ->
  ends (for_ l body s) Q (fun _ => True).
Proof.
  revert s. induction l as [|x l IH]; intros s Hb; simpl.
  - exact I.
  - eapply ends_bind; [apply Hb; left; reflexivity|].
    intros _ s1 _ _. apply IH. intros y t Hy. apply Hb. right. exact Hy.
Qed.

Lemma ends_for_collect {A B} (l : list A) (body : A -> M B)
      (Q : exn -> Prop) (s : state) :
  (forall x t, In x l -> ends (body x t) Q (fun _ => True)) ->
  ends (for_collect l body s) Q (fun vs => List.length vs = List.length l).
Proof.
  revert s. induction l as [|x l IH]; intros s Hb; simpl.
  - reflexivity.
  - eapply ends_bind; [apply Hb; left; reflexivity|].
    intros y s1 _ _. eapply ends_bind.
    + apply IH. intros z t Hz. apply Hb. right. exact Hz.
    + intros ys s2 _ Hl. cbn. rewrite Hl. reflexivity.
Qed.

Section WellFormedEnds.

Variable env : Env.
Variable meta_model : meta_model_t.
Variable loss_func : string.
Variable cfg : config.
Variable data : ndarray.
Variable dir : string.
Variable K : nat.

Hypothesis wf : well_formed env cfg data K.

Lemma imread_label_ends (p : string) (s : state) :
  label_read env cfg data p ->
  ends (imread_label env p s) (absent_label env cfg data) (fun _ => True).
Proof.
  intros Hp. unfold ends, imread_label, bind, emit, modify.
  destruct (io_imread env p) as [raw|] eqn:E; cbn; [exact I|].
  exists p. repeat split; assumption.
Qed.

Lemma hdrcnn_set_ends (i : nat) (s : state) :
  i < shape0 data ->
  ends (hdrcnn_set env cfg (shape0 data) i (row data i) s)
       (absent_label env cfg data) (fun _ => True).
Proof.
  intros Hi. pose proof wf as (HK & H2 & Hm & Hn & Hrng).
  destruct (train_test_split_ok env cfg data K wf s)
    as (tr & ts & Hsp & Htr & Hts & Hrange).
  unfold hdrcnn_set. rewrite (bind_ok _ _ _ _ _ Hsp).
  eapply ends_bind.
  { apply ends_for_collect. intros x t Hx.
    assert (Hx' : 1 <= x <= K) by (apply Hrange; left; exact Hx).
    rewrite (bind_ok _ _ _ _ _
               (image_set_getitem_ok (row data i) x t
                  ltac:(cbn [n_images row]; lia))).
    cbv zeta. eapply ends_bind.
    - apply imread_label_ends. exists i, x.
      split; [exact Hi|]. split; [rewrite HK; lia | reflexivity].
    - intros ? ? _ _. exact I. }
  intros pairs s1 _ Hlen. cbn beta in Hlen.
  assert (Hne : pairs <> []).
  { intros E. subst pairs. destruct tr; [contradiction Htr; reflexivity|].
    discriminate Hlen. }
  rewrite (bind_ok _ _ _ _ _ (np_stack_ok _ s1 (nonempty_map fst pairs Hne))).
  rewrite (bind_ok _ _ _ _ _ (np_stack_ok _ s1 (nonempty_map snd pairs Hne))).
  destruct (collect_test_ok (row data i) ts s1 Hts) as (v & s2 & Hct).
  { intros e He. cbn [n_images row].
    assert (1 <= e <= K) by (apply Hrange; right; exact He). lia. }
  { cbn [n_images row]. lia. }
  rewrite (bind_ok _ _ _ _ _ Hct). exact I.
Qed.

Lemma hdrcnn_scene_ends (i : nat) (s : state) :
  i < shape0 data ->
  ends (hdrcnn_scene env meta_model loss_func cfg data dir i s)
       (absent_label env cfg data) (fun _ => True).
Proof.
  intros Hi. unfold hdrcnn_scene.
  assert (Hb : ndarray_batch data i s = (Ok [row data i], s)).
  { unfold ndarray_batch.
    destruct (Nat.ltb_spec i (shape0 data)); [reflexivity|lia]. }
  rewrite (bind_ok _ _ _ _ _ Hb).
  eapply ends_bind.
  { cbn [for_collect]. eapply ends_bind; [apply hdrcnn_set_ends; exact Hi|].
    intros v s1 _ _. cbn.
    exact (eq_refl : (fun sets => List.length sets = 1) [v]). }
  intros sets s1 _ Hlen. cbn beta in Hlen.
  destruct sets as [|st [|st' sets]]; try discriminate Hlen.
  unfold ends, adapt_and_score, bind, np_stack, gets, emit, modify. cbn.
  destruct (evaluate_maml _ _ _ _ _ _ _); exact I.
Qed.

Lemma hdrcnn_mode_ends (s : state) :
  ends (hdrcnn_mode env meta_model loss_func cfg data dir s)
       (absent_label env cfg data) (fun _ => True).
Proof.
  pose proof wf as (_ & _ & _ & Hn & _).
  unfold hdrcnn_mode.
  rewrite bind_emit. unfold bind at 1. cbn [modify]. unfold bind at 1.
  cbn [modify].
  eapply ends_bind.
  { apply ends_for. intros i t Hi. apply hdrcnn_scene_ends.
    apply in_seq in Hi. lia. }
  intros _ s1 _ _.
  unfold ends, report_adaptive, bind, py_div, gets, emit, modify.
  destruct (Z.eqb_spec (Z.of_nat (shape0 data)) 0) as [E|E]; [lia|].
  cbn. exact I.
Qed.

End WellFormedEnds.

(** X11.  On a well-formed configuration and data set (K >= 2
    exposures, K + 1 images per scene, at least one scene, a generator
    that returns permutations) a run whose start-up succeeded can be
    stopped by one thing only: a baseline-label file that is absent.
    The exception then is [FileNotFoundError] for that file, and it
    comes late: the trace of the run, complete or not, holds the whole
    single-shot mode and the whole Debevec-adapted mode with their
    printed results before anything of the HDRCNN-adapted mode.  (The
    evaluation routines are taken to return and the arrays that are
    stacked to have one shape.) *)
Theorem only_absent_labels_stop_a_run :
  forall (env : Env) (args : args_t) (d : string) (ckpt : checkpoint_t)
         (K : nat) (s : state),
    starts env args d ckpt ->
    well_formed env (load_cfg env args)
                (meta_test_data env (NUM_EXPOSURES (load_cfg env args))) K ->
    ends (main env args s)
         (absent_label env (load_cfg env args)
            (meta_test_data env (NUM_EXPOSURES (load_cfg env args))))
         (fun _ => True) /\
    exists a1 b1 a2 b2 rest,
      trace (snd (main env args s)) =
        trace s ++
        startup_events args d (load_cfg env args) ckpt ++
        single_shot_trace
          (meta_test_data env (NUM_EXPOSURES (load_cfg env args)))
          (mode_dir d "single") a1 b1 ++
        adaptive_trace env Debevec (load_cfg env args)
          (meta_test_data env (NUM_EXPOSURES (load_cfg env args)))
          (mode_dir d "adapt_debevec") (rng_calls s) a2 b2 ++
        rest /\
      Forall (adaptive_event env Hdrcnn (load_cfg env args)
                (meta_test_data env (NUM_EXPOSURES (load_cfg env args)))
                (mode_dir d "adapt_hdrcnn")) rest.
Proof.
  intros env args d ckpt K s Hs Hwf.
  set (cfg := load_cfg env args) in *.
  set (data := meta_test_data env (NUM_EXPOSURES cfg)) in *.
  set (mm := loaded_model cfg ckpt).
  set (s0 := log_events (startup_events args d cfg ckpt) s).
  pose proof Hwf as (HK & H2 & Hm & Hn & Hrng).
  destruct (single_shot_mode_returns env mm (LOSS_FUNC cfg) data
              (mode_dir d "single") s0) as (s1 & H1); [exact Hn | lia |].
  destruct (adaptive_mode_completes env mm (LOSS_FUNC cfg) cfg data
              (mode_dir d "adapt_debevec") K Hwf Debevec s1 I) as (s2 & Hd2).
  pose proof (single_shot_mode_ok _ _ _ _ _ _ _ H1)
    as (_ & Ht1 & _ & _ & _ & _ & Hr1).
  pose proof (adaptive_mode_ok _ _ _ _ _ _ _ _ _ Hd2)
    as (_ & Ht2 & _ & _ & _ & _ & _ & _).
  cbv zeta in Ht2. cbn [adaptive_mode] in Hd2.
  assert (Hrun : main env args s =
                 hdrcnn_mode env mm (LOSS_FUNC cfg) cfg data
                             (mode_dir d "adapt_hdrcnn") s2).
  { rewrite (main_starts env args d ckpt s Hs).
    fold cfg. fold data. fold mm. fold s0. unfold three_modes.
    rewrite (bind_ok _ _ _ _ _ H1), (bind_ok _ _ _ _ _ Hd2). reflexivity. }
  rewrite Hrun. split.
  - apply (hdrcnn_mode_ends env mm (LOSS_FUNC cfg) cfg data
             (mode_dir d "adapt_hdrcnn") K Hwf).
  - destruct (yields_adaptive_mode env Hdrcnn mm (LOSS_FUNC cfg) cfg data
                (mode_dir d "adapt_hdrcnn") s2) as (rest & Ht3 & Hp3 & _).
    cbn [adaptive_mode] in Ht3.
    exists (eval_single_ssim s1), (eval_single_psnr s1),
           (eval_adaptive_ssim s2), (eval_adaptive_psnr s2), rest.
    split; [|exact Hp3].
    rewrite Ht3, Ht2, Ht1. subst s0. rewrite trace_log_events.
    unfold single_shot_trace, adaptive_trace.
    rewrite Hr1.
    pose proof (log_events_fields (startup_events args d cfg ckpt) s)
      as (_ & _ & _ & _ & _ & Hr0).
    rewrite Hr0, <- !List.app_assoc. reflexivity.
Qed.

Lemma only_absent_labels_stop_a_run_witness :
  (starts (Demo.env 3 "SSIMLoss" 2 [1; 2; 5; 6]) Demo.args "out"
          {| performance := 1%Q; epoch := 3; unet_state_dict := [1%Q] |} /\
   well_formed (Demo.env 3 "SSIMLoss" 2 [1; 2; 5; 6]) (Demo.cfg 3 "SSIMLoss")
               (Demo.data 2 4) 3) /\
  exists p,
    fst (main (Demo.env 3 "SSIMLoss" 2 [1; 2; 5; 6]) Demo.args init_state) =
    Raise (FileNotFoundError p) /\
    io_imread (Demo.env 3 "SSIMLoss" 2 [1; 2; 5; 6]) p = None.
Proof.
  assert (Hs : starts (Demo.env 3 "SSIMLoss" 2 [1; 2; 5; 6]) Demo.args "out"
                 {| performance := 1%Q; epoch := 3; unet_state_dict := [1%Q] |}).
  { repeat split. apply str_in_spec. vm_compute. reflexivity. }
  assert (Hwf : well_formed (Demo.env 3 "SSIMLoss" 2 [1; 2; 5; 6])
                            (Demo.cfg 3 "SSIMLoss") (Demo.data 2 4) 3).
  { split; [reflexivity|]. split; [lia|]. split; [reflexivity|].
    split; [discriminate|]. intros c. apply rotate_3_perm. }
  split; [split; [exact Hs | exact Hwf]|].
  destruct (only_absent_labels_stop_a_run
              (Demo.env 3 "SSIMLoss" 2 [1; 2; 5; 6]) Demo.args "out"
              {| performance := 1%Q; epoch := 3; unet_state_dict := [1%Q] |}
              3 init_state Hs Hwf) as (He & _).
  unfold ends in He.
  destruct (fst (main (Demo.env 3 "SSIMLoss" 2 [1; 2; 5; 6]) Demo.args
                      init_state)) as [[]|e] eqn:E.
  - exfalso. vm_compute in E. discriminate E.
  - destruct He as (p & Ep & _ & Hp). exists p. subst e.
    split; [reflexivity | exact Hp].
Defined.

(** * The outcome of an adaptive mode *)

Lemma ends_weaken {A} (r : outcome A * state) (Q Q' : exn -> Prop)
      (R R' : A -> Prop) :
  ends r Q R -> (forall e, Q e -> Q' e) -> (forall a, R a -> R' a) ->
  ends r Q' R'.
Proof.
  unfold ends. destruct (fst r); intros H HQ HR; [apply HR | apply HQ]; exact H.
Qed.

Lemma ends_for_collect_all {A B} (l : list A) (body : A -> M B)
      (Q : exn -> Prop) (G : A -> Prop) (s : state) :
  (forall x t, In x l -> ends (body x t) Q (fun _ => G x)) ->
  ends (for_collect l body s) Q
       (fun vs => List.length vs = List.length l /\ Forall G l).
Proof.
  revert s. induction l as [|x l IH]; intros s Hb; simpl.
  - split; [reflexivity | constructor].
  - eapply ends_bind; [apply Hb; left; reflexivity|].
    intros y s1 _ Hx. eapply ends_bind.
    + apply IH. intros z t Hz. apply Hb. right. exact Hz.
    + intros ys s2 _ [Hl Hg]. cbn. split; [rewrite Hl; reflexivity|].
      constructor; assumption.
Qed.

Lemma ends_for_some {A} (l : list A) (body : A -> M unit) (Q : exn -> Prop)
      (G : Prop) (s : state) :
  (forall x t, In x l -> ends (body x t) Q (fun _ => G)) ->
  ends (for_ l body s) Q (fun _ => l <> [] -> G).
Proof.
  revert s. induction l as [|x l IH]; intros s Hb; simpl.
  - intros H. contradiction H. reflexivity.
  - eapply ends_bind; [apply Hb; left; reflexivity|].
    intros u s1 _ Hg. cbn beta in Hg.
    eapply ends_weaken;
      [apply IH; intros y t Hy; apply Hb; right; exact Hy | | ].
    + intros e He. exact He.
    + intros _ _ _. exact Hg.
Qed.

Section Outcome.

Variable env : Env.
Variable meta_model : meta_model_t.
Variable loss_func : string.
Variable cfg : config.
Variable data : ndarray.
Variable dir : string.

Hypothesis rng :
  forall c, Permutation
              (rng_permutation env c (Z.to_nat (NUM_EXPOSURES cfg)))
              (seq 0 (Z.to_nat (NUM_EXPOSURES cfg))).

Lemma train_test_split_cases (s : state) :
  ((NUM_EXPOSURES cfg < 2)%Z /\
   exists m,
     train_test_split env (Py.np_arange 1 (NUM_EXPOSURES cfg + 1)) s =
     (Raise (ValueError m), s)) \/
  ((2 <= NUM_EXPOSURES cfg)%Z /\
   exists tr ts,
     train_test_split env (Py.np_arange 1 (NUM_EXPOSURES cfg + 1)) s =
     (Ok (tr, ts), set_rng_calls (rng_calls s + 1) s) /\
     tr <> [] /\ ts <> [] /\
     forall x, In x tr \/ In x ts <->
               (1 <= Z.of_nat x <= NUM_EXPOSURES cfg)%Z).
Proof.
  destruct (Z_lt_ge_dec (NUM_EXPOSURES cfg) 2) as [Hlt|Hge].
  - left. split; [exact Hlt|]. eexists.
    apply train_test_split_few. exact Hlt.
  - right. split; [lia|].
    set (K := Z.to_nat (NUM_EXPOSURES cfg)).
    assert (HK : NUM_EXPOSURES cfg = Z.of_nat K) by (subst K; lia).
    assert (H2 : 2 <= K) by (subst K; lia).
    destruct (split_at_ok env K (rng_calls s) H2 (rng _))
      as (q & rest & Hp & Hs).
    pose proof (rng (rng_calls s)) as HP. fold K in HP. rewrite Hp in HP.
    destruct (split_sides K q rest HP) as (P1 & _ & HL).
    exists (map S rest), [S q]. split; [|split; [|split]].
    + unfold train_test_split, bind, gets, lift.
      unfold split_at in Hs. rewrite HK.
      rewrite np_arange_exposures, Nat2Z.id, length_seq in *.
      rewrite Hs. reflexivity.
    + destruct rest; [simpl in HL; lia | discriminate].
    + discriminate.
    + intros x. rewrite <- in_app_iff. split.
      * intros Hx. apply (Permutation_in x P1) in Hx. apply in_seq in Hx. lia.
      * intros Hx. apply (Permutation_in x (Permutation_sym P1)).
        apply in_seq. lia.
Qed.

Lemma image_set_getitem_ends (kind : adaptive_kind) (i x : nat) (s : state) :
  i < shape0 data ->
  (1 <= Z.of_nat x <= NUM_EXPOSURES cfg)%Z -> (2 <= NUM_EXPOSURES cfg)%Z ->
  ends (image_set_getitem (row data i) x s)
       (scene_exn env kind cfg data) (fun _ => x < shape1 data).
Proof.
  intros Hi Hx H2. unfold ends, image_set_getitem. cbn [n_images row].
  destruct (Nat.ltb_spec x (shape1 data)); cbn; [assumption|].
  split; [lia|]. split; lia.
Qed.

Lemma reference_getitem_ends (kind : adaptive_kind) (i : nat) (s : state)
      (Q : exn -> Prop) :
  0 < shape1 data ->
  ends (image_set_getitem (row data i) 0 s) Q (fun _ => True).
Proof.
  intros H. unfold ends, image_set_getitem. cbn [n_images row].
  destruct (Nat.ltb_spec 0 (shape1 data)); cbn; [exact I | lia].
Qed.

Lemma collect_test_ends (kind : adaptive_kind) (i : nat) (ts : list nat)
      (s : state) :
  i < shape0 data -> (2 <= NUM_EXPOSURES cfg)%Z -> ts <> [] ->
  (forall x, In x ts -> (1 <= Z.of_nat x <= NUM_EXPOSURES cfg)%Z) ->
  ends (collect_test (row data i) ts s)
       (scene_exn env kind cfg data)
       (fun _ => Forall (fun x => x < shape1 data) ts).
Proof.
  intros Hi H2 Hne Hr. unfold collect_test.
  eapply ends_bind.
  { apply ends_for_collect_all with (G := fun x => x < shape1 data).
    intros x t Hx. eapply ends_bind.
    - apply image_set_getitem_ends; [exact Hi | apply Hr; exact Hx | exact H2].
    - intros a s1 _ Hlt. cbn beta in Hlt. eapply ends_bind.
      + apply (reference_getitem_ends kind). lia.
      + intros ? ? _ _. exact Hlt. }
  intros pairs s1 _ [Hlen Hall]. cbn beta in Hlen.
  assert (Hp : pairs <> []).
  { intros E. subst pairs. destruct ts; [contradiction Hne; reflexivity|].
    discriminate Hlen. }
  rewrite (bind_ok _ _ _ _ _ (np_stack_ok _ s1 (nonempty_map fst pairs Hp))).
  rewrite (bind_ok _ _ _ _ _ (np_stack_ok _ s1 (nonempty_map snd pairs Hp))).
  exact Hall.
Qed.

Lemma exposures_in_range (tr ts : list nat) :
  (2 <= NUM_EXPOSURES cfg)%Z ->
  (forall x, In x tr \/ In x ts <->
             (1 <= Z.of_nat x <= NUM_EXPOSURES cfg)%Z) ->
  Forall (fun x => x < shape1 data) tr ->
  Forall (fun x => x < shape1 data) ts ->
  (2 <= NUM_EXPOSURES cfg < Z.of_nat (shape1 data))%Z.
Proof.
  intros H2 Hr Htr Hts. split; [exact H2|].
  rewrite Forall_forall in Htr, Hts.
  assert (Hin : In (Z.to_nat (NUM_EXPOSURES cfg)) tr \/
                In (Z.to_nat (NUM_EXPOSURES cfg)) ts) by (apply Hr; lia).
  destruct Hin as [Hin|Hin]; [apply Htr in Hin | apply Hts in Hin]; lia.
Qed.

Lemma set_ends (kind : adaptive_kind) (i : nat) (s : state) :
  i < shape0 data ->
  ends (match kind with
        | Debevec => debevec_set env cfg (row data i) s
        | Hdrcnn => hdrcnn_set env cfg (shape0 data) i (row data i) s
        end)
       (scene_exn env kind cfg data)
       (fun _ => (2 <= NUM_EXPOSURES cfg < Z.of_nat (shape1 data))%Z).
Proof.
  intros Hi.
  destruct (train_test_split_cases s)
    as [(Hlt & m & Hsp)|(H2 & tr & ts & Hsp & Htr & Hts & Hr)].
  { destruct kind; unfold debevec_set, hdrcnn_set;
      rewrite (bind_raise _ _ _ _ _ Hsp); cbn; (split; [lia | exact Hlt]). }
  assert (Hstack : forall (B : Type) (pairs : list (image * image)) s1
                           (k : list image -> list image -> M B),
             List.length pairs = List.length tr ->
             bind (np_stack (map fst pairs))
                  (fun a => bind (np_stack (map snd pairs)) (k a)) s1 =
             k (map fst pairs) (map snd pairs) s1).
  { intros B pairs s1 k Hlen.
    assert (Hp : pairs <> []).
    { intros E. subst pairs. destruct tr; [contradiction Htr; reflexivity|].
      discriminate Hlen. }
    rewrite (bind_ok _ _ _ _ _ (np_stack_ok _ s1 (nonempty_map fst pairs Hp))).
    rewrite (bind_ok _ _ _ _ _ (np_stack_ok _ s1 (nonempty_map snd pairs Hp))).
    reflexivity. }
  destruct kind; unfold debevec_set, hdrcnn_set;
    rewrite (bind_ok _ _ _ _ _ Hsp).
  - eapply ends_bind.
    { apply ends_for_collect_all with (G := fun x => x < shape1 data).
      intros x t Hx. eapply ends_bind.
      - apply image_set_getitem_ends;
          [exact Hi | apply Hr; left; exact Hx | exact H2].
      - intros a s1 _ Hlt. cbn beta in Hlt. eapply ends_bind.
        + apply (reference_getitem_ends Debevec). lia.
        + intros ? ? _ _. exact Hlt. }
    intros pairs s1 _ [Hlen Hall]. cbn beta in Hlen.
    rewrite Hstack by exact Hlen.
    eapply ends_bind.
    { apply (collect_test_ends Debevec); try assumption.
      intros x Hx. apply Hr. right. exact Hx. }
    intros v s2 _ Hall2. cbn.
    apply (exposures_in_range tr ts); assumption.
  - eapply ends_bind.
    { apply ends_for_collect_all with (G := fun x => x < shape1 data).
      intros x t Hx. eapply ends_bind.
      - apply image_set_getitem_ends;
          [exact Hi | apply Hr; left; exact Hx | exact H2].
      - intros a s1 _ Hlt. cbn beta in Hlt. cbv zeta. eapply ends_bind.
        + eapply ends_weaken.
          * apply (imread_label_ends env cfg data). exists i, x.
            split; [exact Hi|]. split; [apply Hr; left; exact Hx | reflexivity].
          * intros e (p & Ep & Hp & Hnone). subst e. cbn.
            split; [lia|]. repeat split; assumption.
          * intros ? H. exact H.
        + intros ? ? _ _. exact Hlt. }
    intros pairs s1 _ [Hlen Hall]. cbn beta in Hlen.
    rewrite Hstack by exact Hlen.
    eapply ends_bind.
    { apply (collect_test_ends Hdrcnn); try assumption.
      intros x Hx. apply Hr. right. exact Hx. }
    intros v s2 _ Hall2. cbn.
    apply (exposures_in_range tr ts); assumption.
Qed.

Lemma scene_ends (kind : adaptive_kind) (i : nat) (s : state) :
  i < shape0 data ->
  ends (match kind with
        | Debevec =>
            debevec_scene env meta_model loss_func cfg data dir i s
        | Hdrcnn =>
            hdrcnn_scene env meta_model loss_func cfg data dir i s
        end)
       (scene_exn env kind cfg data)
       (fun _ => (2 <= NUM_EXPOSURES cfg < Z.of_nat (shape1 data))%Z).
Proof.
  intros Hi.
  assert (Hb : ndarray_batch data i s = (Ok [row data i], s)).
  { unfold ndarray_batch.
    destruct (Nat.ltb_spec i (shape0 data)); [reflexivity|lia]. }
  assert (Hscore : forall sets s1,
             List.length sets = 1 ->
             fst (adapt_and_score env meta_model loss_func
                    (NUM_TASK_TR_ITER cfg) dir sets s1) = Ok tt).
  { intros sets s1 Hlen.
    destruct sets as [|st [|st' sets]]; try discriminate Hlen.
    unfold adapt_and_score, bind, np_stack, gets, emit, modify. cbn.
    destruct (evaluate_maml _ _ _ _ _ _ _); reflexivity. }
  destruct kind; unfold debevec_scene, hdrcnn_scene;
    rewrite (bind_ok _ _ _ _ _ Hb); cbn [for_collect].
  - eapply ends_bind.
    { eapply ends_bind; [apply (set_ends Debevec i s Hi)|].
      intros v s1 _ Hg. eapply ends_bind.
      - exact (I : ends (ret [] s1) _ (fun _ => True)).
      - intros vs s2 E _. inversion E; subst vs s2.
        exact (conj eq_refl Hg
               : (fun sets => List.length sets = 1 /\ _) [v]). }
    intros sets s1 _ [Hlen Hg]. unfold ends. rewrite Hscore by exact Hlen.
    exact Hg.
  - eapply ends_bind.
    { eapply ends_bind; [apply (set_ends Hdrcnn i s Hi)|].
      intros v s1 _ Hg. eapply ends_bind.
      - exact (I : ends (ret [] s1) _ (fun _ => True)).
      - intros vs s2 E _. inversion E; subst vs s2.
        exact (conj eq_refl Hg
               : (fun sets => List.length sets = 1 /\ _) [v]). }
    intros sets s1 _ [Hlen Hg]. unfold ends. rewrite Hscore by exact Hlen.
    exact Hg.
Qed.

Lemma adaptive_mode_ends (kind : adaptive_kind) (s : state) :
  ends (adaptive_mode env kind meta_model loss_func cfg data dir s)
       (fun e => match e with
                 | ZeroDivisionError => shape0 data = 0
                 | _ => scene_exn env kind cfg data e
                 end)
       (fun _ => shape0 data <> 0 /\
                 (2 <= NUM_EXPOSURES cfg < Z.of_nat (shape1 data))%Z).
Proof.
  assert (Hrep : forall w1 w2 s1,
             ends (report_adaptive (shape0 data) w1 w2 s1)
                  (fun e => e = ZeroDivisionError /\ shape0 data = 0)
                  (fun _ => shape0 data <> 0)).
  { intros w1 w2 s1.
    unfold ends, report_adaptive, bind, py_div, gets, emit, modify.
    destruct (Z.eqb_spec (Z.of_nat (shape0 data)) 0) as [E|E]; cbn.
    - split; [reflexivity | lia].
    - lia. }
  assert (Hloop : forall body,
             (forall i t, i < shape0 data ->
                          ends (body i t) (scene_exn env kind cfg data)
                               (fun _ => (2 <= NUM_EXPOSURES cfg
                                          < Z.of_nat (shape1 data))%Z)) ->
             forall w1 w2 s1,
               ends (bind (for_ (Py.range (shape0 data)) body)
                          (fun _ => report_adaptive (shape0 data) w1 w2) s1)
                    (fun e => match e with
                              | ZeroDivisionError => shape0 data = 0
                              | _ => scene_exn env kind cfg data e
                              end)
                    (fun _ => shape0 data <> 0 /\
                              (2 <= NUM_EXPOSURES cfg
                               < Z.of_nat (shape1 data))%Z)).
  { intros body Hbody w1 w2 s1. eapply ends_bind.
    - eapply ends_weaken.
      + apply ends_for_some
          with (G := (2 <= NUM_EXPOSURES cfg < Z.of_nat (shape1 data))%Z)
               (Q := scene_exn env kind cfg data).
        intros i t Hi. apply Hbody. apply in_seq in Hi. lia.
      + intros e He. destruct e; try exact He. destruct He as [_ []].
      + intros a H. exact H.
    - intros u s2 _ Hg. cbn beta in Hg. eapply ends_weaken; [apply Hrep| |].
      + intros e [-> H0]. exact H0.
      + intros u' Hn. cbn beta in Hn. split; [exact Hn|]. apply Hg.
        unfold Py.range. destruct (shape0 data); [contradiction Hn; reflexivity|].
        discriminate. }
  destruct kind; cbn [adaptive_mode]; unfold debevec_mode, hdrcnn_mode;
    rewrite bind_emit; unfold bind at 1; cbn [modify]; unfold bind at 1;
    cbn [modify]; apply Hloop; intros i t Hi.
  - apply (scene_ends Debevec i t Hi).
  - apply (scene_ends Hdrcnn i t Hi).
Qed.

End Outcome.

(** X12.  What the outcome of an adaptive mode tells, for a generator
    that returns permutations.  The mode completes only on a data set
    with at least one scene when 2 <= K < number of images per scene
    (K = [EVAL.NUM_EXPOSURES]); [ZeroDivisionError] means the data set
    has no scene; [ValueError], that fewer than two exposures are
    configured; [IndexError], that the scenes hold too few images for
    the configured exposures (K images or fewer); [FileNotFoundError],
    raised by the HDRCNN-adapted mode alone, that the named label file
    of the baseline is absent.  Nothing else is raised (the evaluation
    routines being taken to return and the stacked arrays to have one
    shape).  For the
    Debevec-adapted mode the cases are exhaustive, so each holds both
    ways: it completes exactly when the data set is not empty and
    2 <= K < images per scene, and raises [IndexError] exactly when the
    data set is not empty and 2 <= K with K images per scene or fewer. *)
Theorem adaptive_mode_outcome :
  forall (env : Env) (kind : adaptive_kind) (mm : meta_model_t)
         (loss : string) (cfg : config) (data : ndarray) (dir : string)
         (s : state),
    (forall c, Permutation
                 (rng_permutation env c (Z.to_nat (NUM_EXPOSURES cfg)))
                 (seq 0 (Z.to_nat (NUM_EXPOSURES cfg)))) ->
    match fst (adaptive_mode env kind mm loss cfg data dir s) with
    | Ok _ =>
        shape0 data <> 0 /\
        (2 <= NUM_EXPOSURES cfg < Z.of_nat (shape1 data))%Z
    | Raise ZeroDivisionError => shape0 data = 0
    | Raise (ValueError _) =>
        shape0 data <> 0 /\ (NUM_EXPOSURES cfg < 2)%Z
    | Raise IndexError =>
        shape0 data <> 0 /\ (2 <= NUM_EXPOSURES cfg)%Z /\
        (Z.of_nat (shape1 data) <= NUM_EXPOSURES cfg)%Z
    | Raise (FileNotFoundError p) =>
        kind = Hdrcnn /\ shape0 data <> 0 /\ (2 <= NUM_EXPOSURES cfg)%Z /\
        label_read env cfg data p /\ io_imread env p = None
    | Raise _ => False
    end /\
    ((exists s', debevec_mode env mm loss cfg data dir s = (Ok tt, s')) <->
     shape0 data <> 0 /\
     (2 <= NUM_EXPOSURES cfg < Z.of_nat (shape1 data))%Z) /\
    (fst (debevec_mode env mm loss cfg data dir s) = Raise IndexError <->
     shape0 data <> 0 /\ (2 <= NUM_EXPOSURES cfg)%Z /\
     (Z.of_nat (shape1 data) <= NUM_EXPOSURES cfg)%Z).
Proof.
  intros env kind mm loss cfg data dir s Hrng.
  assert (Hall : forall k,
             match fst (adaptive_mode env k mm loss cfg data dir s) with
             | Ok _ =>
                 shape0 data <> 0 /\
                 (2 <= NUM_EXPOSURES cfg < Z.of_nat (shape1 data))%Z
             | Raise ZeroDivisionError => shape0 data = 0
             | Raise (ValueError _) =>
                 shape0 data <> 0 /\ (NUM_EXPOSURES cfg < 2)%Z
             | Raise IndexError =>
                 shape0 data <> 0 /\ (2 <= NUM_EXPOSURES cfg)%Z /\
                 (Z.of_nat (shape1 data) <= NUM_EXPOSURES cfg)%Z
             | Raise (FileNotFoundError p) =>
                 k = Hdrcnn /\ shape0 data <> 0 /\
                 (2 <= NUM_EXPOSURES cfg)%Z /\
                 label_read env cfg data p /\ io_imread env p = None
             | Raise _ => False
             end).
  { intros k.
    pose proof (adaptive_mode_ends env mm loss cfg data dir Hrng k s) as H.
    unfold ends in H.
    destruct (fst (adaptive_mode env k mm loss cfg data dir s)) as [u|e];
      [exact H|].
    destruct e; unfold scene_exn in H; tauto. }
  split; [apply Hall|].
  pose proof (Hall Debevec) as Hd. cbn [adaptive_mode] in Hd.
  split; split.
  - intros (s' & E). rewrite E in Hd. exact Hd.
  - intros (Hn & HK).
    destruct (debevec_mode env mm loss cfg data dir s) as [[[]|e] s'];
      cbn [fst] in Hd; [exists s'; reflexivity|].
    exfalso. destruct e; try tauto; try lia.
    destruct Hd as [Hd _]. discriminate Hd.
  - intros E. rewrite E in Hd. exact Hd.
  - intros (Hn & H2 & Hm).
    destruct (fst (debevec_mode env mm loss cfg data dir s)) as [u|e].
    + exfalso. lia.
    + destruct e; try tauto; try (exfalso; lia).
      exfalso. destruct Hd as [Hd _]. discriminate Hd.
Qed.

Lemma adaptive_mode_outcome_witness :
  (forall c, Permutation
               (rng_permutation (Demo.env 3 "SSIMLoss" 2 (seq 1 6)) c
                  (Z.to_nat (NUM_EXPOSURES (Demo.cfg 3 "SSIMLoss"))))
               (seq 0 (Z.to_nat (NUM_EXPOSURES (Demo.cfg 3 "SSIMLoss"))))) /\
  fst (debevec_mode (Demo.env 3 "SSIMLoss" 2 (seq 1 6)) Demo.model "SSIMLoss"
                    (Demo.cfg 3 "SSIMLoss") (Demo.data 2 3) "out" init_state)
  = Raise IndexError.
Proof.
  assert (Hrng : forall c,
             Permutation
               (rng_permutation (Demo.env 3 "SSIMLoss" 2 (seq 1 6)) c
                  (Z.to_nat (NUM_EXPOSURES (Demo.cfg 3 "SSIMLoss"))))
               (seq 0 (Z.to_nat (NUM_EXPOSURES (Demo.cfg 3 "SSIMLoss"))))).
  { intros c. apply rotate_3_perm. }
  split; [exact Hrng|].
  destruct (adaptive_mode_outcome (Demo.env 3 "SSIMLoss" 2 (seq 1 6)) Debevec
              Demo.model "SSIMLoss" (Demo.cfg 3 "SSIMLoss") (Demo.data 2 3)
              "out" init_state Hrng) as (_ & _ & H).
  apply H. cbn. lia.
Defined.

(** * The two adaptive modes on one draw *)

(** X13.  The HDRCNN-adapted mode differs from the Debevec-adapted
    mode in the support labels and in nothing else.  Run on the same
    scene from the same state (so on the same draw of the generator),
    the two loop bodies build the same support images and the same
    query images and labels.  The query labels are the scene's reference
    image, once per query exposure, in both modes: no baseline file is
    ever used to score.  The Debevec support labels are the reference
    image as well; the HDRCNN support labels are the contents of the
    baseline files of the support exposures. *)
Theorem modes_differ_in_support_labels :
  forall (env : Env) (cfg : config) (data : ndarray) (i : nat) (s : state)
         (r1 r2 : (list image * list image) * (list image * list image))
         (s1 s2 : state),
    debevec_set env cfg (row data i) s = (Ok r1, s1) ->
    hdrcnn_set env cfg (shape0 data) i (row data i) s = (Ok r2, s2) ->
    fst (fst r1) = fst (fst r2) /\
    snd r1 = snd r2 /\
    rng_calls s1 = rng_calls s2 /\
    snd (snd r2) = map (fun _ => at_ data i 0) (fst (snd r2)) /\
    snd (fst r1) = map (fun _ => at_ data i 0) (fst (fst r1)) /\
    snd (fst r2) =
      map (label_of env (shape0 data) i)
          (fst (split_or_empty env (NUM_EXPOSURES cfg) (rng_calls s))).
Proof.
  intros env cfg data i s r1 r2 s1 s2 H1 H2.
  destruct (oor_inv _ _ _ _ _ (oor_debevec_set env cfg (row data i) s) H1)
    as [E1 Es1].
  destruct (oor_inv _ _ _ _ _ (oor_hdrcnn_set env cfg data i (row data i) s) H2)
    as [E2 Es2].
  subst r1 r2 s1 s2. unfold debevec_sides, hdrcnn_sides. cbn [fst snd].
  cbn [image_at row].
  split; [reflexivity|]. split; [reflexivity|]. split.
  - pose proof (log_events_fields
                  (hdrcnn_reads env data (NUM_EXPOSURES cfg) i (rng_calls s))
                  (set_rng_calls (rng_calls s + 1) s))
      as (_ & _ & _ & _ & _ & Hr).
    rewrite Hr. reflexivity.
  - split; [rewrite map_map; reflexivity|].
    split; [rewrite map_map; reflexivity | reflexivity].
Qed.

Lemma modes_differ_in_support_labels_witness :
  exists r1 r2,
    fst (debevec_set (Demo.env 3 "SSIMLoss" 2 (seq 1 6)) (Demo.cfg 3 "SSIMLoss")
                     (row (Demo.data 2 4) 0) init_state) = Ok r1 /\
    fst (hdrcnn_set (Demo.env 3 "SSIMLoss" 2 (seq 1 6)) (Demo.cfg 3 "SSIMLoss")
                    2 0 (row (Demo.data 2 4) 0) init_state) = Ok r2 /\
    snd r1 = snd r2.
Proof.
  destruct (debevec_set (Demo.env 3 "SSIMLoss" 2 (seq 1 6))
              (Demo.cfg 3 "SSIMLoss") (row (Demo.data 2 4) 0) init_state)
    as [[r1|e1] s1] eqn:E1; [|vm_compute in E1; discriminate E1].
  destruct (hdrcnn_set (Demo.env 3 "SSIMLoss" 2 (seq 1 6))
              (Demo.cfg 3 "SSIMLoss") 2 0 (row (Demo.data 2 4) 0) init_state)
    as [[r2|e2] s2] eqn:E2; [|vm_compute in E2; discriminate E2].
  exists r1, r2. split; [reflexivity|]. split; [reflexivity|].
  apply (modes_differ_in_support_labels
           (Demo.env 3 "SSIMLoss" 2 (seq 1 6)) (Demo.cfg 3 "SSIMLoss")
           (Demo.data 2 4) 0 init_state r1 r2 s1 s2 E1 E2).
Defined.

(** * Figure numbers *)

Lemma figure_indices_app (l1 l2 : list event) :
  figure_indices (l1 ++ l2) = figure_indices l1 ++ figure_indices l2.
Proof. apply flat_map_app. Qed.

Lemma figure_indices_quiet (evs : list event) :
  evaluations evs = [] -> figure_indices evs = [].
Proof.
  induction evs as [|e evs IH]; [reflexivity|].
  cbn [evaluations filter figure_indices flat_map].
  fold (evaluations evs). fold (figure_indices evs).
  destruct e; cbn [is_evaluation]; try discriminate; intros H;
    rewrite (IH H); reflexivity.
Qed.

Lemma figure_indices_numbered (dir : string) (l : list (image * image))
      (k : nat) :
  figure_indices (map (fun c => single_event dir (fst c) (snd c))
                      (numbered k l)) = seq k (List.length l).
Proof.
  revert k. induction l as [|p l IH]; intros k; [reflexivity|].
  cbn [numbered map figure_indices flat_map single_event fst snd app
       List.length seq].
  f_equal. fold (figure_indices
                   (map (fun c => single_event dir (fst c) (snd c))
                        (numbered (k + 1) l))).
  rewrite IH. replace (k + 1) with (S k) by lia. reflexivity.
Qed.

Lemma figure_indices_scenes (env : Env) (kind : adaptive_kind)
      (data : ndarray) (K iters : Z) (dir : string) (c a n : nat) :
  figure_indices
    (flat_map (fun i =>
                 adaptive_reads env kind data K i (c + i) ++
                 [maml_event iters dir i
                    (adaptive_task env kind data K i (c + i))])
              (seq a n)) = seq a n.
Proof.
  revert a. induction n as [|n IH]; intros a; [reflexivity|].
  cbn [seq flat_map]. rewrite !figure_indices_app, IH.
  rewrite figure_indices_quiet
    by (apply (adaptive_reads_quiet env {| weights := []; lr := 0 |} ""
                 kind data K a (c + a))).
  reflexivity.
Qed.

(** X14.  Within a mode the figures are numbered 0, 1, 2, ... without
    gap or repetition: the single-shot mode, however it ends, has
    passed the numbers 0 .. n (m - 1) - 1 to its calls in call order
    (n scenes of m images), and a completed adaptive mode the numbers
    0 .. n - 1.  No two calls of one mode are given the same number,
    so no figure of a mode overwrites another of that mode. *)
Theorem figure_numbers_consecutive :
  forall (env : Env) (mm : meta_model_t) (loss : string) (cfg : config)
         (data : ndarray) (dir : string) (s : state),
    (exists evs,
        trace (snd (single_shot_mode env mm loss data dir s)) =
          trace s ++ evs /\
        figure_indices evs = seq 0 (shape0 data * (shape1 data - 1)) /\
        NoDup (figure_indices evs)) /\
    (forall kind s',
        adaptive_mode env kind mm loss cfg data dir s = (Ok tt, s') ->
        exists evs,
          trace s' = trace s ++ evs /\
          figure_indices evs = seq 0 (shape0 data) /\
          NoDup (figure_indices evs)).
Proof.
  intros env mm loss cfg data dir s. split.
  - destruct (single_shot_mode_trace env mm loss data dir s)
      as (tail & Ht & Hq & _).
    assert (E : figure_indices
                  ([EvPrint "Performing Single-Shot Evaluation"] ++
                   map (fun c => single_event dir (fst c) (snd c))
                       (single_calls data) ++ tail) =
                seq 0 (shape0 data * (shape1 data - 1))).
    { rewrite !figure_indices_app. unfold single_calls.
      rewrite figure_indices_numbered, (figure_indices_quiet tail Hq).
      rewrite length_single_pairs, List.app_nil_r. reflexivity. }
    eexists. split; [exact Ht|]. split; [exact E|].
    rewrite E. apply seq_NoDup.
  - intros kind s' H.
    pose proof (adaptive_mode_ok _ _ _ _ _ _ _ _ _ H)
      as (_ & Ht & _). cbv zeta in Ht.
    match type of Ht with
    | _ = _ ++ ?l =>
        assert (E : figure_indices l = seq 0 (shape0 data))
    end.
    { rewrite !figure_indices_app, figure_indices_scenes.
      cbn [figure_indices flat_map app]. apply List.app_nil_r. }
    eexists. split; [exact Ht|]. split; [exact E|].
    rewrite E. apply seq_NoDup.
Qed.

(** * What the single-shot and Debevec-adapted modes do not depend on *)

Lemma bind_ext {A B} (c c' : M A) (k k' : A -> M B) (s : state) :
  c s = c' s -> (forall a s1, k a s1 = k' a s1) ->
  bind c k s = bind c' k' s.
Proof.
  intros Hc Hk. unfold bind. rewrite Hc.
  destruct (c' s) as [[a|e] s1]; [apply Hk | reflexivity].
Qed.

Lemma for_ext {A} (l : list A) (body body' : A -> M unit) (s : state) :
  (forall x t, body x t = body' x t) -> for_ l body s = for_ l body' s.
Proof.
  intros H. revert s. induction l as [|x l IH]; intros s; simpl.
  - reflexivity.
  - apply bind_ext; [apply H | intros _ s1; apply IH].
Qed.

Lemma for_collect_ext {A B} (l : list A) (body body' : A -> M B) (s : state) :
  (forall x t, body x t = body' x t) ->
  for_collect l body s = for_collect l body' s.
Proof.
  intros H. revert s. induction l as [|x l IH]; intros s; simpl.
  - reflexivity.
  - apply bind_ext; [apply H|]. intros y s1.
    apply bind_ext; [apply IH | reflexivity].
Qed.

(** X15.  The single-shot mode and the Debevec-adapted mode use nothing
    of their surroundings but the random generator and the evaluation
    routines: run from the same state on the same model, loss,
    configuration and data in two surroundings that agree on these,
    each mode ends with the same outcome in the same state, whatever
    label files, checkpoints or GPU the two surroundings have.  In
    particular no baseline-label file, present or absent, changes the
    single-shot or the Debevec-adapted results. *)
Theorem label_files_do_not_matter :
  forall (env env' : Env) (mm : meta_model_t) (loss : string) (cfg : config)
         (data : ndarray) (dir : string) (s : state),
    same_generator_and_routines env env' ->
    single_shot_mode env mm loss data dir s =
      single_shot_mode env' mm loss data dir s /\
    debevec_mode env mm loss cfg data dir s =
      debevec_mode env' mm loss cfg data dir s.
Proof.
  intros env env' mm loss cfg data dir s (Hrng & Hsingle & Hmaml). split.
  - unfold single_shot_mode.
    do 3 (apply bind_ext; [reflexivity|]; intros ? ?).
    apply bind_ext; [|reflexivity].
    apply for_ext. intros i t. apply for_ext. intros j u.
    unfold single_shot_body.
    do 4 (apply bind_ext; [reflexivity|]; intros ? ?).
    rewrite Hsingle. reflexivity.
  - unfold debevec_mode.
    do 3 (apply bind_ext; [reflexivity|]; intros ? ?).
    apply bind_ext; [|reflexivity].
    apply for_ext. intros i t. unfold debevec_scene.
    apply bind_ext; [reflexivity|]. intros batch t1.
    apply bind_ext.
    + apply for_collect_ext. intros x u. unfold debevec_set.
      apply bind_ext; [|reflexivity].
      unfold train_test_split.
      apply bind_ext; [reflexivity|]. intros c u1.
      rewrite Hrng. reflexivity.
    + intros sets t2. unfold adapt_and_score.
      do 6 (apply bind_ext; [reflexivity|]; intros ? ?).
      rewrite Hmaml. reflexivity.
Qed.

Lemma label_files_do_not_matter_witness :
  same_generator_and_routines
    (Demo.env 3 "SSIMLoss" 2 (seq 1 6)) (Demo.env 3 "SSIMLoss" 2 []) /\
  debevec_mode (Demo.env 3 "SSIMLoss" 2 (seq 1 6)) Demo.model "SSIMLoss"
               (Demo.cfg 3 "SSIMLoss") (Demo.data 2 4) "out" init_state =
  debevec_mode (Demo.env 3 "SSIMLoss" 2 []) Demo.model "SSIMLoss"
               (Demo.cfg 3 "SSIMLoss") (Demo.data 2 4) "out" init_state.
Proof.
  assert (H : same_generator_and_routines
                (Demo.env 3 "SSIMLoss" 2 (seq 1 6))
                (Demo.env 3 "SSIMLoss" 2 [])).
  { repeat split. }
  split; [exact H|].
  apply (label_files_do_not_matter
           (Demo.env 3 "SSIMLoss" 2 (seq 1 6)) (Demo.env 3 "SSIMLoss" 2 [])
           Demo.model "SSIMLoss" (Demo.cfg 3 "SSIMLoss") (Demo.data 2 4)
           "out" init_state H).
Defined.
